(** * internetconsultatie: near-duplicate clustering and resumable crawl

    A shallow embedding of [internetconsultatie/internetconsultatie.py]
    and the properties of its clustering pipeline ([get_ngrams],
    [jaccard_similarity], [add_components]), of its crawl loop
    ([download_responses]) and of the download of the consultations
    themselves ([parse_consultation], [download_consultations]).

    Conventions of the embedding.
    - Python [int] is [Z]; positions produced by [enumerate] are [nat].
    - Python [str] is [string]; one [ascii] stands for one code point in
      the range 0..255.
    - A Python [set] is a [gset]; insertion-ordered [dict]s and [list]s
      are lists.
    - Python [float] values of the similarity are exact rationals [Q]:
      both operands of the one division are integers far below 2^53, so
      the float is the correctly rounded quotient, and the model keeps
      the quotient itself.
    - A Python exception is the [Raise] outcome; a loop that is cut off
      by its fuel is the [OutOfFuel] outcome. *)

From Stdlib Require Import ZArith QArith String Ascii List Lia Bool.
From stdpp Require Import base gmap sets list strings.

(* set_solver clears hypotheses by name; the notice it prints when one is
   already gone is noise. *)
#[local] Set Warnings "-clear-no-such-hyp".

Local Open Scope string_scope.
Local Open Scope list_scope.
Local Open Scope Z_scope.

(** ** Outcomes of fallible code *)

Inductive exn : Type :=
| AttributeError
| ValueError
| TypeError
| ZeroDivisionError
| OtherError.

Inductive outcome (A : Type) : Type :=
| Ok (a : A)
| Raise (e : exn)
| OutOfFuel.
Arguments Ok {A} a.
Arguments Raise {A} e.
Arguments OutOfFuel {A}.

#[global] Instance outcome_ret : MRet outcome := fun A a => Ok a.

#[global] Instance outcome_bind : MBind outcome := fun A B k m =>
  match m with
  | Ok a => k a
  | Raise e => Raise e
  | OutOfFuel => OutOfFuel
  end.

(** [[f(x) for x in l]] with a fallible [f]: the first exception wins. *)
Fixpoint map_outcome {A B} (f : A -> outcome B) (l : list A) : outcome (list B) :=
  match l with
  | [] => Ok []
  | x :: l' => y ← f x; ys ← map_outcome f l'; Ok (y :: ys)
  end.

(** ** Cells of a data frame *)

(** The values the code stores in and reads from a frame: [None], the
    float [nan] that pandas uses for a missing value, a string, or an
    integer. *)
Inductive Cell : Type :=
| CNone
| CNaN
| CStr (s : string)
| CInt (z : Z).

#[global] Instance Cell_eq_dec : EqDecision Cell.
Proof. solve_decision. Defined.

#[global] Instance CStr_inj : Inj (=) (=) CStr.
Proof. by intros s1 s2 [= ->]. Qed.

(** [pd.isna] and [pd.notna] on a scalar. *)
Definition isna (c : Cell) : bool :=
  match c with
  | CNone | CNaN => true
  | _ => false
  end.

Definition notna (c : Cell) : bool := negb (isna c).

(** [c == ''] *)
Definition is_empty_str (c : Cell) : bool :=
  match c with
  | CStr s => if decide (s = "") then true else false
  | _ => false
  end.

(** ** Tokens and n-grams *)

Module Text.

(** [str.isspace] on the code points 0..255: tab, line feed, vertical
    tab, form feed, carriage return, the four separators 28..31, space,
    next-line (133) and no-break space (160). *)
Definition is_space (c : ascii) : bool :=
  let k := nat_of_ascii c in
  ((9 <=? k) && (k <=? 13) || (28 <=? k) && (k <=? 32)
   || (k =? 133) || (k =? 160))%nat.

(** [str.split()] without arguments: the maximal runs of characters that
    are not whitespace, in order.  [cur] is the run being read, last
    character first. *)
Fixpoint split_from (cur : list ascii) (s : string) : list string :=
  match s with
  | EmptyString =>
      match cur with
      | [] => []
      | _ => [string_of_list_ascii (rev cur)]
      end
  | String c s' =>
      if is_space c then
        match cur with
        | [] => split_from [] s'
        | _ => string_of_list_ascii (rev cur) :: split_from [] s'
        end
      else split_from (c :: cur) s'
  end.

Definition split (s : string) : list string := split_from [] s.

(** The sliding window of [nltk.ngrams] for a window of [n >= 1] items:
    one tuple per start position that leaves [n] items, stride 1. *)
Fixpoint windows {A} (n : nat) (l : list A) : list (list A) :=
  match l with
  | [] => []
  | _ :: l' =>
      if (n <=? length l)%nat then take n l :: windows n l' else []
  end.

(** [nltk.ngrams(sequence, n)] without padding.  The library builds [n]
    staggered copies of the sequence with [itertools.tee] and zips
    them: a negative [n] is refused by [tee] with a [ValueError], and
    for [n = 0] the zip of no iterables is empty. *)
Definition ngrams {A} (sequence : list A) (n : Z) : outcome (list (list A)) :=
  if n <? 0 then Raise ValueError
  else if n =? 0 then Ok []
  else Ok (windows (Z.to_nat n) sequence).

(** An n-gram is a tuple of tokens. *)
Abbreviation ngram := (list string).

(** Lines 119-122 of [get_ngrams]: the text that is shingled. *)
Definition select_txt (text text_attachment : Cell) : Cell :=
  if notna text_attachment then text_attachment else text.

(** Lines 123-125 of [get_ngrams].  An integer cell has no [split]
    method. *)
Definition ngrams_of_txt (txt : Cell) (n : Z) : outcome (option (gset ngram)) :=
  if isna txt || is_empty_str txt then Ok None
  else
    match txt with
    | CStr s =>
        grams ← ngrams (split s) n;
        Ok (Some (list_to_set grams))
    | _ => Raise AttributeError
    end.

Definition get_ngrams (text text_attachment : Cell) (n : Z)
  : outcome (option (gset ngram)) :=
  ngrams_of_txt (select_txt text text_attachment) n.

End Text.

(** ** Jaccard similarity and the edge loop *)

Module Similarity.
Import Text.

(** [not s] for a value that is [None] or a set. *)
Definition falsy_set (s : option (gset ngram)) : bool :=
  match s with
  | None => true
  | Some g => bool_decide (g = ∅)
  end.

(** [x / y] on a float [x] and an int [y]. *)
Definition truediv (x y : Z) : outcome Q :=
  if y =? 0 then Raise ZeroDivisionError else Ok (x # Z.to_pos y).

Definition jaccard_similarity (ngrams1 ngrams2 : option (gset ngram))
  : outcome (option Q) :=
  if falsy_set ngrams1 || falsy_set ngrams2 then Ok None
  else
    match ngrams1, ngrams2 with
    | Some s1, Some s2 =>
        let intersection := Z.of_nat (size (s1 ∩ s2)) in
        let union := Z.of_nat (size (s1 ∪ s2)) in
        if union =? 0 then Ok None
        else q ← truediv intersection union; Ok (Some q)
    | _, _ => Raise AttributeError
    end.

(** [not similarity] for a value that is [None] or a float: [None] and
    [0.0] are both falsy. *)
Definition falsy_similarity (similarity : option Q) : bool :=
  match similarity with
  | None => true
  | Some q => Qeq_bool q 0
  end.

(** [enumerate(l)] *)
Definition enumerate {A} (l : list A) : list (nat * A) :=
  zip (seq 0 (length l)) l.

(** A [for] loop whose body may raise: the loop variable runs over [l],
    [s] is the state the body updates. *)
Fixpoint ofold {A S} (body : S -> A -> outcome S) (l : list A) (s : S)
  : outcome S :=
  match l with
  | [] => Ok s
  | x :: l' => s' ← body s x; ofold body l' s'
  end.

(** The state of the edge loop: the list [edges], and a log of the pairs
    that were handed to [jaccard_similarity] (the log is not in the
    source; it records which pairs are scored). *)
Definition edge_state : Type := list (nat * nat) * list (nat * nat).

(** Body of the inner loop, lines 155-161. *)
Definition edges_inner (threshold : Q) (i : nat)
    (n_gram1 : option (gset ngram)) (st : edge_state)
    (jn : nat * option (gset ngram)) : outcome edge_state :=
  let '(j, n_gram2) := jn in
  let '(edges, scored) := st in
  if negb (i <? j)%nat then Ok st
  else
    similarity ← jaccard_similarity n_gram1 n_gram2;
    let scored := scored ++ [(i, j)] in
    if falsy_similarity similarity then Ok (edges, scored)
    else
      match similarity with
      | Some q =>
          if Qle_bool threshold q then Ok (edges ++ [(i, j)], scored)
          else Ok (edges, scored)
      | None => Raise TypeError
      end.

(** Lines 152-161: both loops. *)
Definition edges_scored (n_grams : list (option (gset ngram))) (threshold : Q)
  : outcome edge_state :=
  ofold (fun st '(i, n_gram1) =>
           ofold (edges_inner threshold i n_gram1) (enumerate n_grams) st)
        (enumerate n_grams) ([], []).

(** The value of [edges] after the loops. *)
Definition edges (n_grams : list (option (gset ngram))) (threshold : Q)
  : outcome (list (nat * nat)) :=
  st ← edges_scored n_grams threshold; Ok st.1.

End Similarity.

(** ** Data frames *)

Module Frame.

(** A frame: the row labels and the columns in their order; every
    column of a well-formed frame has one cell per row. *)
Record DataFrame : Type := mkDataFrame {
  index : list Z;
  columns : list (string * list Cell)
}.

Definition nrows (df : DataFrame) : nat := length (index df).

(** [df.columns] *)
Definition column_names (df : DataFrame) : list string := (columns df).*1.

Definition well_formed (df : DataFrame) : Prop :=
  Forall (fun kc => length kc.2 = nrows df) (columns df).

Fixpoint assoc {V} (c : string) (l : list (string * V)) : option V :=
  match l with
  | [] => None
  | (k, v) :: l' => if decide (k = c) then Some v else assoc c l'
  end.

Definition get_column (df : DataFrame) (c : string) : option (list Cell) :=
  assoc c (columns df).

(** [df.c]: the column as an attribute. *)
Definition attr (df : DataFrame) (c : string) : outcome (list Cell) :=
  match get_column df c with
  | Some col => Ok col
  | None => Raise AttributeError
  end.

(** [df.reset_index(drop=True)]: the rows are relabelled 0, 1, ... *)
Definition reset_index (df : DataFrame) : DataFrame :=
  {| index := Z.of_nat <$> seq 0 (nrows df); columns := columns df |}.

(** Replace the cells of every column named [c]. *)
Definition update_column (c : string) (f : list Cell -> list Cell)
    (cols : list (string * list Cell)) : list (string * list Cell) :=
  (fun kc : string * list Cell =>
     if decide (kc.1 = c) then (kc.1, f kc.2) else kc) <$> cols.

(** [df[c] = v] for a scalar [v]: an existing column is overwritten in
    place, a new one is added last. *)
Definition set_column (df : DataFrame) (c : string) (v : Cell) : DataFrame :=
  let col := replicate (nrows df) v in
  if decide (c ∈ column_names df)
  then {| index := index df;
          columns := update_column c (fun _ => col) (columns df) |}
  else {| index := index df; columns := columns df ++ [(c, col)] |}.

(** The cells of a column after a write to the rows labelled [label]. *)
Definition write_rows (idx : list Z) (label : Z) (v : Cell) (col : list Cell)
  : list Cell :=
  zip_with (fun l old => if decide (l = label) then v else old) idx col.

(** [df.loc[label, c] = v].  Every row with that label is written; a
    label that is not in the index adds a row, whose other cells are
    [nan]; a column that does not exist is added, filled with [nan]. *)
Definition loc_set (df : DataFrame) (label : Z) (c : string) (v : Cell)
  : DataFrame :=
  let df1 :=
    if decide (label ∈ index df) then df
    else {| index := index df ++ [label];
            columns := (fun kc : string * list Cell =>
                          (kc.1, kc.2 ++ [CNaN])) <$> columns df |} in
  let df2 :=
    if decide (c ∈ column_names df1) then df1
    else {| index := index df1;
            columns := columns df1 ++ [(c, replicate (nrows df1) CNaN)] |} in
  {| index := index df2;
     columns := update_column c (write_rows (index df2) label v) (columns df2) |}.

End Frame.

(** ** The graph library: [networkx.Graph] and [connected_components] *)

(** [networkx] is not part of the repository; the module follows the
    library's own code for the three operations [add_components] calls. *)
Module nx.

(** An undirected graph as the library keeps it: the nodes in the order
    they were added, and for each node its neighbours in the order they
    were added. *)
Record Graph : Type := mkGraph {
  nodes : list nat;
  adj : gmap nat (list nat)
}.

Definition empty : Graph := {| nodes := []; adj := ∅ |}.

Definition add_node (G : Graph) (u : nat) : Graph :=
  if decide (u ∈ nodes G) then G
  else {| nodes := nodes G ++ [u]; adj := <[u := []]> (adj G) |}.

(** [adj[u][v] = {}]: [v] becomes a neighbour of [u] unless it is one. *)
Definition add_neighbour (G : Graph) (u v : nat) : Graph :=
  let nbrs := adj G !!! u in
  if decide (v ∈ nbrs) then G
  else {| nodes := nodes G; adj := <[u := nbrs ++ [v]]> (adj G) |}.

Definition add_edge (G : Graph) (e : nat * nat) : Graph :=
  let G := add_node G e.1 in
  let G := add_node G e.2 in
  let G := add_neighbour G e.1 e.2 in
  add_neighbour G e.2 e.1.

Definition add_edges_from (G : Graph) (ebunch : list (nat * nat)) : Graph :=
  fold_left add_edge ebunch G.

(** The two inner loops of [_plain_bfs]: the neighbours [w] of one node,
    and the nodes [v] of one level.  The state is [seen] and the level
    under construction. *)
Definition visit_neighbours (nbrs : list nat) (st : gset nat * list nat)
  : gset nat * list nat :=
  fold_left (fun st w =>
               if decide (w ∈ st.1) then st
               else ({[w]} ∪ st.1, st.2 ++ [w]))
            nbrs st.

Definition visit_level (G : Graph) (thislevel : list nat) (seen : gset nat)
  : gset nat * list nat :=
  fold_left (fun st v => visit_neighbours (adj G !!! v) st) thislevel (seen, []).

(** [while nextlevel: ...] of [_plain_bfs], one level per iteration.
    The early return the library takes once every node of the graph
    has been seen saves work and returns the same set; it is not
    modelled. *)
Fixpoint plain_bfs_loop (fuel : nat) (G : Graph) (seen : gset nat)
    (nextlevel : list nat) : outcome (gset nat) :=
  match nextlevel with
  | [] => Ok seen
  | _ =>
      match fuel with
      | O => OutOfFuel
      | S fuel' =>
          let st := visit_level G nextlevel seen in
          plain_bfs_loop fuel' G st.1 st.2
      end
  end.

Definition plain_bfs (G : Graph) (source : nat) : outcome (gset nat) :=
  plain_bfs_loop (length (nodes G)) G {[source]} [source].

(** [connected_components(G)]: the components in the order in which
    their first node appears among the nodes of [G]. *)
Definition connected_components (G : Graph) : outcome (list (gset nat)) :=
  st ← Similarity.ofold
         (fun (st : gset nat * list (gset nat)) v =>
            if decide (v ∈ st.1) then Ok st
            else c ← plain_bfs G v; Ok (st.1 ∪ c, st.2 ++ [c]))
         (nodes G) (∅, []);
  Ok st.2.

End nx.

(** ** Text extraction and clustering *)

Module Cluster.
Import Text Similarity Frame.

Section WithCollaborators.

(** [int(s)] on a string: [None] when the string is not an integer
    literal. *)
Variable py_int : string -> option Z.

(** [textract.process(path).decode('utf8')] for the attachment with the
    given number in [dir_attachments]. *)
Variable textract_process : Z -> outcome string.

(** [int(attachment_name)] *)
Definition int_of_cell (c : Cell) : outcome Z :=
  match c with
  | CStr s =>
      match py_int s with
      | Some z => Ok z
      | None => Raise ValueError
      end
  | CInt z => Ok z
  | CNone | CNaN => Raise TypeError
  end.

(** Body of the loop of [extract_text], lines 106-113. *)
Definition extract_text_body (df : DataFrame) (ia : nat * Cell)
  : outcome DataFrame :=
  let '(i, attachment_name) := ia in
  if notna attachment_name && negb (is_empty_str attachment_name) then
    k ← int_of_cell attachment_name;
    match textract_process k with
    | Ok text_attachment =>
        Ok (loc_set df (Z.of_nat i) "text_attachment" (CStr text_attachment))
    | Raise TypeError =>
        Ok (loc_set df (Z.of_nat i) "text_attachment" CNone)
    | Raise e => Raise e
    | OutOfFuel => OutOfFuel
    end
  else Ok df.

Definition extract_text (df : DataFrame) : outcome DataFrame :=
  let df := reset_index df in
  let df := set_column df "text_attachment" CNone in
  attachment ← attr df "attachment";
  ofold extract_text_body (enumerate attachment) df.

(** Lines 164-166: the rows of the [i]-th component get the number [i]. *)
Definition assign_components (df : DataFrame) (comps : list (gset nat))
  : DataFrame :=
  fold_left (fun df (ic : nat * gset nat) =>
               fold_left (fun df j =>
                            loc_set df (Z.of_nat j) "component"
                                    (CInt (Z.of_nat ic.1)))
                         (elements ic.2) df)
            (enumerate comps) df.

(** Lines 147-151. *)
Definition n_grams_of (df : DataFrame) (n : Z)
  : outcome (list (option (gset ngram))) :=
  text ← attr df "text";
  text_attachment ← attr df "text_attachment";
  map_outcome (fun tt : Cell * Cell => get_ngrams tt.1 tt.2 n)
       (zip text text_attachment).

Definition add_components (df : DataFrame) (n : Z) (threshold : Q)
  : outcome DataFrame :=
  let df := reset_index df in
  let df := set_column df "component" CNone in
  df ← (if decide ("text_attachment" ∈ column_names df) then Ok df
        else extract_text df);
  n_grams ← n_grams_of df n;
  edges ← edges n_grams threshold;
  let G := nx.add_edges_from nx.empty edges in
  comps ← nx.connected_components G;
  Ok (assign_components df comps).

End WithCollaborators.

End Cluster.

(** ** The crawl: [download_responses] *)

Module Crawl.
Import Text Similarity Frame.

Definition BASE : string := "https://www.internetconsultatie.nl".

Definition newline : string := String (ascii_of_nat 10) EmptyString.

Definition SEP : string := newline +:+ "###" +:+ newline.

(** [sep.join(parts)] *)
Fixpoint join (sep : string) (parts : list string) : string :=
  match parts with
  | [] => ""
  | [p] => p
  | p :: rest => p +:+ sep +:+ join sep rest
  end.

(** What the code reads from the parsed html of a listing page: for the
    [div] of class [result--list], when there is one, the [href] of the
    first anchor of each [li] (when it has an anchor); for the [div] of
    class [pagination], when there is one, the text of each anchor with
    an [href], as the integer it denotes (when it denotes one).  The
    html parser is outside the repository. *)
Record Soup : Type := mkSoup {
  result_list : option (list (option string));
  pagination : option (list (option Z))
}.

(** What the code reads from the page of one response: the rows of the
    overview table (stripped [th] and [td] texts, when present), the
    stripped texts of the block quotes, and the ids of the downloads. *)
Record ResponsePage : Type := mkResponsePage {
  table : option (list (option string * option string));
  blockquotes : list string;
  downloads : list string
}.

(** A response is a [dict] from column names to values, in insertion
    order. *)
Abbreviation Response := (list (string * Cell)).

(** [d[k] = v] *)
Fixpoint dict_set (d : Response) (k : string) (v : Cell) : Response :=
  match d with
  | [] => [(k, v)]
  | (k', v') :: d' =>
      if decide (k' = k) then (k', v) :: d' else (k', v') :: dict_set d' k v
  end.

(** [d.pop(k, None)] *)
Definition dict_pop (d : Response) (k : string) : Response :=
  filter (fun kv => kv.1 ≠ k) d.

Definition get_url (item : option string) : option string :=
  match item with
  | None => None
  | Some href => Some (BASE +:+ href)
  end.

(** [[url for url in result_urls if url]] *)
Definition truthy_urls (result_urls : list (option string)) : list string :=
  r ← result_urls;
  match r with
  | Some url => if decide (url = "") then [] else [url]
  | None => []
  end.

Definition get_result_urls (soup : Soup) : outcome (list string) :=
  match result_list soup with
  | None => Raise AttributeError
  | Some results => Ok (truthy_urls (get_url <$> results))
  end.

(** [extract_kv] turns a missing [th] or [td] into [None]. *)
Definition cell_of_text (t : option string) : Cell :=
  match t with
  | Some s => CStr s
  | None => CNone
  end.

(** [parse_table]: the rows with a non-empty key, as a dict. *)
Definition parse_table (tbl : option (list (option string * option string)))
  : outcome Response :=
  match tbl with
  | None => Raise AttributeError
  | Some rows =>
      Ok (fold_left (fun d (kv : option string * option string) =>
                       match kv.1 with
                       | Some key =>
                           if decide (key = "") then d
                           else dict_set d key (cell_of_text kv.2)
                       | None => d
                       end)
                    rows [])
  end.

(** What the run does to the outside world, in order. *)
Inductive Event : Type :=
| GetListing (page : Z)
| GetResponse (url : string)
| GetAttachment (download_id : string)
| SaveAttachment (download_id : string)
| Save (df : DataFrame)
| Sleep.

(** The spreadsheet at [path_responses], when it exists, and the events
    so far, oldest first.  The files written to [dir_attachments] are
    kept as the events [SaveAttachment]. *)
Record World : Type := mkWorld {
  file : option DataFrame;
  trace : list Event
}.

(** Code that acts on the world and may raise. *)
Definition M (A : Type) : Type := World -> World * outcome A.

Definition ret {A} (a : A) : M A := fun w => (w, Ok a).

Definition bind {A B} (m : M A) (k : A -> M B) : M B :=
  fun w =>
    match m w with
    | (w', Ok a) => k a w'
    | (w', Raise e) => (w', Raise e)
    | (w', OutOfFuel) => (w', OutOfFuel)
    end.

Definition lift {A} (o : outcome A) : M A := fun w => (w, o).

Definition emit (e : Event) : M unit :=
  fun w => ({| file := file w; trace := trace w ++ [e] |}, Ok tt).

#[global] Instance M_ret : MRet M := @ret.

#[global] Instance M_bind : MBind M := fun A B k m => bind m k.

(** A list comprehension whose element may act on the world. *)
Fixpoint mapM {A B} (f : A -> M B) (l : list A) : M (list B) :=
  match l with
  | [] => ret []
  | x :: l' => y ← f x; ys ← mapM f l'; ret (y :: ys)
  end.

(** [df.to_excel(path_responses, index=False)] *)
Definition to_excel (df : DataFrame) : M unit :=
  fun w => ({| file := Some df; trace := trace w ++ [Save df] |}, Ok tt).

(** The column names of a list of dicts, in the order of their first
    appearance. *)
Definition first_keys (rs : list Response) : list string :=
  fold_left (fun acc k => if decide (k ∈ acc) then acc else acc ++ [k])
            (r ← rs; r.*1) [].

(** [pd.DataFrame(responses)]: a key a dict lacks becomes [nan]. *)
Definition DataFrame_of (rs : list Response) : DataFrame :=
  {| index := Z.of_nat <$> seq 0 (length rs);
     columns := (fun c => (c, (fun r => default CNaN (assoc c r)) <$> rs))
                  <$> first_keys rs |}.

(** [[dict(row) for _, row in df.iterrows()]] *)
Definition rows_of (df : DataFrame) : list Response :=
  (fun p => (fun kc : string * list Cell => (kc.1, default CNaN (kc.2 !! p)))
              <$> columns df)
    <$> seq 0 (nrows df).

(** The settings of a run. *)
Record Config : Type := mkConfig {
  name : bool;
  download_attachments : bool;
  extract_text_attachment : bool;
  components : bool;
  n : Z;
  threshold : Q
}.

(** The variables of the [while] loop. *)
Record LoopState : Type := mkLoopState {
  page : Z;
  max_page : option Z;
  responses : list Response
}.

Section WithSite.

(** The site: the listing page behind each page number of the
    consultation, and the page behind the url of a response. *)
Variable listing : Z -> Soup.
Variable response_page : string -> ResponsePage.

(** What [pd.read_excel] returns for a file that [to_excel] wrote from
    the given frame. *)
Variable read_back : DataFrame -> DataFrame.

Variable py_int : string -> option Z.
Variable textract_process : Z -> outcome string.

Variable cfg : Config.

(** [download_files]: each download is requested and its content is
    written to [<download_id>.pdf] in [dir_attachments]; the ids,
    joined. *)
Definition download_files (ids : list string) : M string :=
  _ ← mapM (fun id => _ ← emit (GetAttachment id); emit (SaveAttachment id))
           ids;
  ret (join "," ids).

Definition get_response (url : string) : M Response :=
  _ ← emit (GetResponse url);
  let rp := response_page url in
  response ← lift (parse_table (table rp));
  let response := if name cfg then response else dict_pop response "Naam" in
  let response := dict_set response "url" (CStr url) in
  let response := dict_set response "text" (CStr (join SEP (blockquotes rp))) in
  if download_attachments cfg then
    attachment ← download_files (downloads rp);
    ret (dict_set response "attachment" (CStr attachment))
  else ret response.

(** Lines 226-233: the largest page number among the pagination links. *)
Definition read_max_page (soup : Soup) : outcome Z :=
  match pagination soup with
  | None => Raise AttributeError
  | Some links =>
      numbers ← map_outcome (fun t : option Z =>
                        match t with
                        | Some k => Ok k
                        | None => Raise ValueError
                        end) links;
      match numbers with
      | [] => Raise ValueError
      | k :: rest => Ok (fold_left Z.max rest k)
      end
  end.

(** [not max_page] *)
Definition falsy_int (o : option Z) : bool :=
  match o with
  | None => true
  | Some k => k =? 0
  end.

(** One iteration of the [while True] loop, lines 209-237.  [inl] is the
    state for the next iteration, [inr] the responses at the [break]. *)
Definition crawl_body (done : list Cell) (st : LoopState)
  : M (LoopState + list Response) :=
  _ ← (if (page st mod 10 =? 0) && negb (bool_decide (responses st = []))
       then to_excel (DataFrame_of (responses st))
       else ret tt);
  _ ← emit (GetListing (page st));
  let soup_results := listing (page st) in
  result_urls ← lift (get_result_urls soup_results);
  new ← mapM get_response
              (filter (fun url => CStr url ∉ done) result_urls);
  let responses := responses st ++ new in
  let page := page st + 1 in
  max_page ← (if falsy_int (max_page st)
               then lift (read_max_page soup_results)
               else lift (Ok (default 0 (max_page st))));
  if max_page <? page then ret (inr responses)
  else
    _ ← emit Sleep;
    ret (inl {| page := page; max_page := Some max_page;
                responses := responses |}).

Fixpoint crawl_loop (fuel : nat) (done : list Cell) (st : LoopState)
  : M (list Response) :=
  match fuel with
  | O => lift OutOfFuel
  | S fuel' =>
      r ← crawl_body done st;
      match r with
      | inl st' => crawl_loop fuel' done st'
      | inr responses => ret responses
      end
  end.

(** Lines 198-204: the prior state, or an empty start when there is no
    file. *)
Definition load_prior : M (list Cell * list Response) :=
  fun w =>
    match file w with
    | None => (w, Ok ([], []))
    | Some stored =>
        let df := read_back stored in
        (w, done ← attr df "url"; Ok (done, rows_of df))
    end.

Definition download_responses (fuel : nat) : M DataFrame :=
  '(done, responses) ← load_prior;
  responses ← crawl_loop fuel done
                 {| page := 1; max_page := None; responses := responses |};
  let df := DataFrame_of responses in
  df ← (if extract_text_attachment cfg || components cfg
         then lift (Cluster.extract_text py_int textract_process df)
         else ret df);
  df ← (if components cfg
         then lift (Cluster.add_components py_int textract_process df
                      (n cfg) (threshold cfg))
         else ret df);
  _ ← to_excel df;
  ret df.

End WithSite.

End Crawl.

(** ** The consultations: [parse_consultation] and [download_consultations] *)

Module Consultations.
Import Crawl.

(** A value in the dict of a consultation: what a cell holds, or the
    [bool] stored under [report]. *)
Inductive Value : Type :=
| VCell (c : Cell)
| VBool (b : bool).

#[global] Instance Value_eq_dec : EqDecision Value.
Proof. solve_decision. Defined.

Abbreviation Consultation := (list (string * Value)).

(** [d[k] = v] *)
Fixpoint dict_put (d : Consultation) (k : string) (v : Value) : Consultation :=
  match d with
  | [] => [(k, v)]
  | (k', v') :: d' =>
      if decide (k' = k) then (k', v) :: d' else (k', v') :: dict_put d' k v
  end.

(** [s.replace(old, new)] for a non-empty [old]: the occurrences of
    [old] are replaced from left to right, without overlap.  [skip]
    counts the characters of the occurrence just replaced that are
    still to be passed over. *)
Fixpoint replace_from (old new : string) (skip : nat) (s : string) : string :=
  match s with
  | EmptyString => EmptyString
  | String c s' =>
      match skip with
      | S k => replace_from old new k s'
      | O =>
          if String.prefix old s
          then new +:+ replace_from old new (String.length old - 1) s'
          else String c (replace_from old new O s')
      end
  end.

Definition replace (s old new : string) : string := replace_from old new 0 s.

(** [re.sub(r'^_', '', s)]: one underscore at the start is dropped. *)
Definition sub_leading_underscore (s : string) : string :=
  match s with
  | String c s' => if decide (c = "_"%char) then s' else s
  | EmptyString => s
  end.

(** Lines 276-277: the name under which the html of a consultation is
    saved. *)
Definition html_filename (url : string) : string :=
  sub_leading_underscore (replace (replace url BASE "") "/" "_").

(** What the code reads from the page of one consultation: whether the
    html holds the notice that the site is unavailable, the rows of the
    overview table, the stripped text of the first [h1], the text of
    the [span] of class [reacties__sublabel], the groups that [NR_RESP]
    matches in the html, and whether the html holds the id of the link
    to the report. *)
Record ConsultationPage : Type := mkConsultationPage {
  unavailable : bool;
  overview : option (list (option string * option string));
  heading : option string;
  sublabel : option string;
  nr_matches : list string;
  report_link : bool
}.

(** What the run does to the outside world, in order. *)
Inductive Event : Type :=
| GetListing (url : string)
| GetConsultation (url : string)
| WriteHtml (filename : string)
| Save (rows : list Consultation)
| Sleep.

(** The spreadsheet at [path_consultations], when it exists, as the
    dicts its frame was made from, and the events so far. *)
Record World : Type := mkWorld {
  file : option (list Consultation);
  trace : list Event
}.

Definition M (A : Type) : Type := World -> World * outcome A.

Definition ret {A} (a : A) : M A := fun w => (w, Ok a).

Definition bind {A B} (m : M A) (k : A -> M B) : M B :=
  fun w =>
    match m w with
    | (w', Ok a) => k a w'
    | (w', Raise e) => (w', Raise e)
    | (w', OutOfFuel) => (w', OutOfFuel)
    end.

Definition lift {A} (o : outcome A) : M A := fun w => (w, o).

Definition emit (e : Event) : M unit :=
  fun w => ({| file := file w; trace := trace w ++ [e] |}, Ok tt).

#[global] Instance M_ret : MRet M := @ret.

#[global] Instance M_bind : MBind M := fun A B k m => bind m k.

Fixpoint mapM {A B} (f : A -> M B) (l : list A) : M (list B) :=
  match l with
  | [] => ret []
  | x :: l' => y ← f x; ys ← mapM f l'; ret (y :: ys)
  end.

(** [df.to_excel(...)] for the frame made from [rows]. *)
Definition to_excel (rows : list Consultation) : M unit :=
  fun w => ({| file := Some rows; trace := trace w ++ [Save rows] |}, Ok tt).

(** The name [get_next_link] is not defined in the module (its
    definition is commented out, lines 30-35, and nothing imports it):
    the call of line 321 raises [NameError], an exception that is kept
    here as [OtherError]. *)
Definition get_next_link (soup : Soup) : outcome (option string) :=
  Raise OtherError.

Section WithSite.

(** The site: the listing page and the consultation page behind a url. *)
Variable listing : string -> Soup.
Variable consultation_page : string -> ConsultationPage.

(** Lines 294-296 on a file that [to_excel] wrote from the given
    dicts: [list(df.url)] and the rows as dicts, or the exception. *)
Variable read_back :
  list Consultation -> outcome (list Value * list Consultation).

(** [pd.ExcelWriter(path_consultations, options=...)]: whether the
    constructor takes the keyword depends on the version of pandas. *)
Variable ExcelWriter : outcome unit.

Variable save_html : bool.

(** Lines 261-268: the number of responses. *)
Definition nr_responses (pg : ConsultationPage) : outcome Cell :=
  match sublabel pg with
  | Some text =>
      match Text.split text with
      | [nr; _] => Ok (CStr nr)
      | _ => Raise ValueError
      end
  | None =>
      Ok (match nr_matches pg with
          | nr :: _ => CStr nr
          | [] => CNone
          end)
  end.

Definition parse_consultation (url : string) : M Consultation :=
  _ ← emit (GetConsultation url);
  let pg := consultation_page url in
  if unavailable pg then ret [("url", VCell (CStr url))]
  else
    table ← lift (parse_table (overview pg));
    let consultation : Consultation :=
      (fun kv : string * Cell => (kv.1, VCell kv.2)) <$> table in
    title ← lift (match heading pg with
                  | Some text => Ok text
                  | None => Raise AttributeError
                  end);
    let consultation := dict_put consultation "title" (VCell (CStr title)) in
    nr ← lift (nr_responses pg);
    let consultation := dict_put consultation "nr_responses" (VCell nr) in
    let consultation := dict_put consultation "url" (VCell (CStr url)) in
    let consultation :=
      dict_put consultation "report" (VBool (report_link pg)) in
    consultation ←
      (if save_html then
         let filename := html_filename url in
         _ ← emit (WriteHtml filename);
         ret (dict_put consultation "html" (VCell (CStr filename)))
       else ret consultation);
    _ ← emit Sleep;
    ret consultation.

(** Lines 309-311 and 325-326: the frame is written through the writer. *)
Definition write_through (consultations : list Consultation) : M unit :=
  _ ← lift ExcelWriter;
  to_excel consultations.

(** One iteration of the [while nxt] loop, lines 307-323: the next
    value of [nxt] and the consultations. *)
Definition consult_body (done : list Value) (nxt : string) (i : Z)
    (consultations : list Consultation)
  : M (option string * list Consultation) :=
  _ ← (if (i mod 10 =? 0) && negb (bool_decide (consultations = []))
       then _ ← write_through consultations; to_excel consultations
       else ret tt);
  _ ← emit (GetListing nxt);
  let soup := listing nxt in
  result_urls ← lift (get_result_urls soup);
  new ← mapM parse_consultation
              (filter (fun url => VCell (CStr url) ∉ done) result_urls);
  let consultations := consultations ++ new in
  nxt ← lift (get_next_link soup);
  _ ← emit Sleep;
  ret (nxt, consultations).

(** [while nxt: ...]: the loop ends when [nxt] is [None] or empty. *)
Fixpoint consult_loop (fuel : nat) (done : list Value) (nxt : option string)
    (i : Z) (consultations : list Consultation) : M (list Consultation) :=
  match nxt with
  | None => ret consultations
  | Some url =>
      if decide (url = "") then ret consultations
      else
        match fuel with
        | O => lift OutOfFuel
        | S fuel' =>
            r ← consult_body done url i consultations;
            consult_loop fuel' done r.1 (i + 1) r.2
        end
  end.

(** Lines 293-299: the prior state, or an empty start when there is no
    file. *)
Definition load_prior : M (list Value * list Consultation) :=
  fun w =>
    match file w with
    | None => (w, Ok ([], []))
    | Some stored => (w, read_back stored)
    end.

(** [download_consultations]; the frame it returns is given by the
    dicts it is made from.  The directory for the html is not
    modelled. *)
Definition download_consultations (fuel : nat) : M (list Consultation) :=
  '(done, consultations) ← load_prior;
  consultations ← consult_loop fuel done
                     (Some (BASE +:+ "/geslotenconsultaties")) 0 consultations;
  _ ← write_through consultations;
  ret consultations.

End WithSite.

End Consultations.

(** ** A small consultation *)

Module Demo.
Import Frame.

(** Stand-ins for [int] and for the text extractor: attachment 7 holds
    a text, attachment 8 cannot be opened. *)
Definition demo_int (s : string) : option Z :=
  if decide (s = "7") then Some 7
  else if decide (s = "8") then Some 8
  else None.

Definition demo_textract (k : Z) : outcome string :=
  if k =? 7 then Ok "the quick brown fox jumps" else Raise TypeError.

(** Four responses: the first and the third differ in their last word,
    the second has the third's text as its attachment, the fourth is
    shorter than one bigram. *)
Definition demo_frame : DataFrame :=
  {| index := [10; 20; 30; 40];
     columns :=
       [("url", [CStr "u1"; CStr "u2"; CStr "u3"; CStr "u4"]);
        ("text", [CStr "the quick brown fox leaps"; CStr "";
                  CStr "the quick brown fox jumps"; CStr "x"]);
        ("attachment", [CStr ""; CStr "7"; CNaN; CStr "8"])] |}.

(** [demo_frame] after clustering on bigrams at threshold 0.3. *)
Definition demo_clustered : DataFrame :=
  {| index := [0; 1; 2; 3];
     columns :=
       [("url", [CStr "u1"; CStr "u2"; CStr "u3"; CStr "u4"]);
        ("text", [CStr "the quick brown fox leaps"; CStr "";
                  CStr "the quick brown fox jumps"; CStr "x"]);
        ("attachment", [CStr ""; CStr "7"; CNaN; CStr "8"]);
        ("component", [CInt 0; CInt 0; CInt 0; CNone]);
        ("text_attachment",
         [CNone; CStr "the quick brown fox jumps"; CNone; CNone])] |}.

(** A consultation of two listing pages.  On the shifting site the
    response [/r/2] is named on both pages (a response came in while
    the crawl was between the pages); on the steady site every response
    is named once. *)
Definition demo_links : option (list (option Z)) := Some [Some 1; Some 2].

Definition shifting_listing (page : Z) : Crawl.Soup :=
  if page =? 1 then
    Crawl.mkSoup (Some [Some "/r/1"; Some "/r/2"]) demo_links
  else if page =? 2 then
    Crawl.mkSoup (Some [Some "/r/2"; Some "/r/3"]) demo_links
  else Crawl.mkSoup None None.

Definition steady_listing (page : Z) : Crawl.Soup :=
  if page =? 1 then
    Crawl.mkSoup (Some [Some "/r/1"; Some "/r/2"]) demo_links
  else if page =? 2 then
    Crawl.mkSoup (Some [Some "/r/3"]) demo_links
  else Crawl.mkSoup None None.

Definition demo_response_page (url : string) : Crawl.ResponsePage :=
  Crawl.mkResponsePage
    (Some [(Some "Naam", Some "N.N."); (Some "Plaats", Some "Utrecht")])
    [if decide (url = Crawl.BASE +:+ "/r/3") then "iets heel anders"
     else if decide (url = Crawl.BASE +:+ "/r/2")
          then "the quick brown fox leaps"
          else "the quick brown fox jumps"]
    [].

(** The spreadsheet is read back as it was written. *)
Definition demo_read_back (df : DataFrame) : DataFrame := df.

Definition demo_config : Crawl.Config :=
  Crawl.mkConfig false true true true 2 (3 # 10).

(** Settings the spec calls invalid: [n < 1], threshold above 1. *)
Definition invalid_config : Crawl.Config :=
  Crawl.mkConfig false true true true 0 (2 # 1).

(** No file yet, nothing done yet. *)
Definition fresh_world : Crawl.World := Crawl.mkWorld None [].

End Demo.

(** * Properties *)

(** ** Shingling *)

Section TextFacts.
Import Text.

(** The spec's TextNormalizer, following its words: the attachment text
    if it is present and non-empty, else the inline text if it is
    present and non-empty, else an absent value. *)
Definition present_nonempty (c : Cell) : bool :=
  notna c && negb (is_empty_str c).

Definition spec_normalize (inline_text attachment_text : Cell) : Cell :=
  if present_nonempty attachment_text then attachment_text
  else if present_nonempty inline_text then inline_text
  else CNone.

Definition space_free (s : string) : Prop :=
  Forall (fun c => is_space c = false) (list_ascii_of_string s).

Lemma append_cons (c : ascii) (s t : string) :
  String c s +:+ t = String c (s +:+ t).
Proof. reflexivity. Qed.

Lemma append_empty_l (t : string) : "" +:+ t = t.
Proof. reflexivity. Qed.

Lemma append_empty_r (s : string) : s +:+ "" = s.
Proof.
  induction s as [|c s IH]; [done|]. by rewrite append_cons, IH.
Qed.

Lemma string_of_snoc (l : list ascii) (c : ascii) (s : string) :
  string_of_list_ascii (l ++ [c]) +:+ s
  = string_of_list_ascii l +:+ String c s.
Proof.
  induction l as [|a l IH]; simpl; [done|]. by rewrite !append_cons, IH.
Qed.

(** A whitespace character ends the token before it and starts a new
    search after it. *)
Lemma split_from_space cur s1 c s2 :
  is_space c = true ->
  split_from cur (s1 +:+ String c s2) = split_from cur s1 ++ split s2.
Proof.
  intros Hc. revert cur.
  induction s1 as [|a s1 IH]; intros cur.
  - rewrite append_empty_l. simpl. rewrite Hc. by destruct cur.
  - rewrite append_cons. simpl.
    destruct (is_space a); [|by apply IH].
    destruct cur; simpl; by rewrite IH.
Qed.

(** A stretch without whitespace is one token. *)
Lemma split_from_space_free cur s :
  space_free s ->
  cur ≠ [] ∨ s ≠ "" ->
  split_from cur s = [string_of_list_ascii (rev cur) +:+ s].
Proof.
  revert cur. induction s as [|a s IH]; intros cur Hfree Hne; simpl.
  - destruct Hne as [Hne|Hne]; [|done].
    rewrite append_empty_r. by destruct cur.
  - unfold space_free in Hfree. simpl in Hfree.
    apply Forall_cons in Hfree as [Ha Hs]. rewrite Ha.
    rewrite IH; [|done|by left].
    simpl. by rewrite string_of_snoc.
Qed.

Lemma split_empty : split "" = [].
Proof. done. Qed.

Lemma split_space s1 c s2 :
  is_space c = true -> split (s1 +:+ String c s2) = split s1 ++ split s2.
Proof. apply split_from_space. Qed.

Lemma split_space_free s : space_free s -> s ≠ "" -> split s = [s].
Proof.
  intros Hfree Hne. unfold split.
  rewrite split_from_space_free; [done..|by right].
Qed.

(** The windows of width [n >= 1] are the [n] items from each start
    position that leaves [n] items. *)
Lemma elem_of_windows {A} (n : nat) (l : list A) (g : list A) :
  (1 <= n)%nat ->
  g ∈ windows n l <->
  exists i : nat, (i + n <= length l)%nat /\ g = take n (drop i l).
Proof.
  intros Hn. induction l as [|x l IH].
  - simpl. split; [by intros ?%elem_of_nil|].
    intros (i & Hi & _). simpl in Hi. lia.
  - cbn [windows]. destruct (Nat.leb_spec n (length (x :: l))) as [Hle|Hgt].
    + rewrite elem_of_cons, IH. split.
      * intros [->|(i & Hi & ->)]; [exists 0%nat | exists (S i)]; simpl in *;
          (split; [lia | done]).
      * intros ([|i] & Hi & ->); [by left | right].
        exists i. simpl in *. split; [lia | done].
    + split; [by intros ?%elem_of_nil|].
      intros (i & Hi & _). lia.
Qed.

Lemma windows_short {A} (n : nat) (l : list A) :
  (length l < n)%nat -> windows n l = [].
Proof.
  intros Hlt. destruct l as [|x l]; [done|]. cbn [windows].
  destruct (Nat.leb_spec n (length (x :: l))); [lia | done].
Qed.

Lemma get_ngrams_str (s : string) (n : Z) :
  1 <= n -> s ≠ "" ->
  ngrams_of_txt (CStr s) n
  = Ok (Some (list_to_set (windows (Z.to_nat n) (split s)))).
Proof.
  intros Hn Hs. unfold ngrams_of_txt, ngrams. simpl.
  destruct (decide (s = "")); [done|]. simpl.
  destruct (Z.ltb_spec n 0); [lia|].
  destruct (Z.eqb_spec n 0); [lia|]. done.
Qed.

(** C2 (as stated) fails: with an attachment text that is present but
    empty the code returns [None] although the inline text is present
    and non-empty, where the spec's normalizer selects the inline
    text. *)
Lemma get_ngrams_empty_attachment_no_fallback :
  spec_normalize (CStr "a b") (CStr "") = CStr "a b"
  /\ get_ngrams (CStr "a b") (CStr "") 1 = Ok None
  /\ ngrams_of_txt (spec_normalize (CStr "a b") (CStr "")) 1
     = Ok (Some {[ ["a"]; ["b"] ]})
  /\ get_ngrams (CStr "a b") (CStr "") 1
     ≠ ngrams_of_txt (spec_normalize (CStr "a b") (CStr "")) 1.
Proof.
  repeat split; try (vm_compute; reflexivity). vm_compute. discriminate.
Qed.

(** C2 (amended): the text that is shingled is the attachment text
    whenever the attachment text is present (not [None], not [nan]),
    and the inline text otherwise.  The code agrees with the spec's
    normalizer on every input except an attachment text that is present
    and empty; there it returns [None] and does not fall back to the
    inline text. *)
Theorem get_ngrams_selection (text text_attachment : Cell) (n : Z) :
  get_ngrams text text_attachment n
  = if decide (text_attachment = CStr "") then Ok None
    else ngrams_of_txt (spec_normalize text text_attachment) n.
Proof.
  unfold get_ngrams, select_txt, spec_normalize, present_nonempty.
  destruct (decide (text_attachment = CStr "")) as [->|Hne]; [done|].
  destruct text_attachment as [| |a|z]; simpl; try done.
  - destruct text as [| |t|z]; simpl; try done.
    destruct (decide (t = "")) as [->|]; done.
  - destruct text as [| |t|z]; simpl; try done.
    destruct (decide (t = "")) as [->|]; done.
  - destruct (decide (a = "")) as [->|]; done.
Qed.

(** C3 (as stated) fails: a text with fewer than [n] tokens yields the
    empty set, not [None]. *)
Lemma get_ngrams_few_tokens_empty_set :
  (length (split "a b") < Z.to_nat 3)%nat
  /\ get_ngrams (CStr "a b") CNone 3 = Ok (Some ∅)
  /\ get_ngrams (CStr "a b") CNone 3 ≠ Ok None.
Proof.
  repeat split; try (vm_compute; reflexivity); try (vm_compute; lia).
  vm_compute. discriminate.
Qed.

(** C3 (amended): for [n >= 1], [get_ngrams] returns [None] when the
    selected text is absent or empty; for a non-empty text it splits
    the text on whitespace and returns the set of all contiguous token
    [n]-tuples (sliding window, stride 1), which is the empty set, not
    [None], when the text has fewer than [n] tokens. *)
Theorem get_ngrams_shingles (text text_attachment : Cell) (n : Z) :
  1 <= n ->
  match select_txt text text_attachment with
  | CNone | CNaN => get_ngrams text text_attachment n = Ok None
  | CStr s =>
      if decide (s = "") then get_ngrams text text_attachment n = Ok None
      else
        exists G : gset ngram,
          get_ngrams text text_attachment n = Ok (Some G)
          /\ (forall g : ngram,
                g ∈ G <->
                exists i : nat,
                  (i + Z.to_nat n <= length (split s))%nat
                  /\ g = take (Z.to_nat n) (drop i (split s)))
          /\ ((length (split s) < Z.to_nat n)%nat -> G = ∅)
  | CInt _ => get_ngrams text text_attachment n = Raise AttributeError
  end.
Proof.
  intros Hn. unfold get_ngrams.
  destruct (select_txt text text_attachment) as [| |s|z]; try done.
  destruct (decide (s = "")) as [->|Hs]; [done|].
  eexists. split; [by apply get_ngrams_str|]. split.
  - intros g. rewrite elem_of_list_to_set. apply elem_of_windows. lia.
  - intros Hlt. by rewrite windows_short.
Qed.

(** [get_ngrams_shingles] on the text [a b c] with bigrams. *)
Lemma get_ngrams_shingles_witness :
  exists G : gset ngram,
    get_ngrams (CStr "a b c") CNone 2 = Ok (Some G)
    /\ (forall g : ngram,
          g ∈ G <->
          exists i : nat,
            (i + 2 <= 3)%nat /\ g = take 2 (drop i ["a"; "b"; "c"]))
    /\ ((3 < 2)%nat -> G = ∅).
Proof.
  exact (get_ngrams_shingles (CStr "a b c") CNone 2 ltac:(lia)).
Defined.

End TextFacts.

(** ** Jaccard similarity *)

Section SimilarityFacts.
Import Text Similarity.

(** The spec's SimilarityScorer, following its words: [None] if either
    input is [None] or empty, otherwise the size of the intersection
    over the size of the union. *)
Definition spec_jaccard (a b : option (gset ngram)) : option Q :=
  match a, b with
  | Some A, Some B =>
      if decide (A = ∅ \/ B = ∅) then None
      else Some (Z.of_nat (size (A ∩ B)) # Pos.of_nat (size (A ∪ B)))
  | _, _ => None
  end.

Lemma to_pos_of_nat (k : nat) : Z.to_pos (Z.of_nat k) = Pos.of_nat k.
Proof.
  destruct k as [|k]; [done|]. simpl. by rewrite Pos.of_nat_succ.
Qed.

Lemma pos_of_nat_Z (k : nat) : (1 <= k)%nat -> Z.pos (Pos.of_nat k) = Z.of_nat k.
Proof. intros Hk. rewrite <- to_pos_of_nat. rewrite Z2Pos.id; lia. Qed.

Lemma union_size_pos (A B : gset ngram) : A ≠ ∅ -> (1 <= size (A ∪ B))%nat.
Proof.
  intros HA.
  assert (size (A ∪ B) ≠ 0%nat); [|lia].
  intros Hz%size_empty_inv. apply HA. set_solver.
Qed.

Lemma jaccard_similarity_spec (a b : option (gset ngram)) :
  jaccard_similarity a b = Ok (spec_jaccard a b).
Proof.
  unfold jaccard_similarity, spec_jaccard, falsy_set.
  destruct a as [A|]; [|done].
  destruct b as [B|]; [|by rewrite orb_true_r].
  destruct (decide (A = ∅ \/ B = ∅)) as [[->| ->]|Hne].
  - by rewrite bool_decide_eq_true_2.
  - rewrite (bool_decide_eq_true_2 (∅ = ∅)) by done. by rewrite orb_true_r.
  - rewrite !bool_decide_eq_false_2 by tauto. simpl.
    pose proof (union_size_pos A B ltac:(tauto)) as Hpos.
    destruct (Z.eqb_spec (Z.of_nat (size (A ∪ B))) 0) as [Hz|_]; [lia|].
    unfold truediv.
    destruct (Z.eqb_spec (Z.of_nat (size (A ∪ B))) 0) as [Hz|_]; [lia|].
    simpl. by rewrite to_pos_of_nat.
Qed.

Lemma spec_jaccard_range (a b : option (gset ngram)) (q : Q) :
  spec_jaccard a b = Some q -> (0 <= q /\ q <= 1)%Q.
Proof.
  unfold spec_jaccard. destruct a as [A|], b as [B|]; try done.
  destruct (decide _) as [|Hne]; [done|]. intros [= <-].
  pose proof (union_size_pos A B ltac:(tauto)) as Hpos.
  assert (size (A ∩ B) <= size (A ∪ B))%nat as Hle.
  { apply subseteq_size. transitivity A;
      [apply intersection_subseteq_l | apply union_subseteq_l]. }
  unfold Qle. simpl. rewrite pos_of_nat_Z by done. lia.
Qed.

(** C7: [jaccard_similarity] never raises (in particular it never
    divides by zero); it returns [None] when either input is [None] or
    empty, and otherwise the size of the intersection over the size of
    the union, a value between 0 and 1. *)
Theorem jaccard_similarity_total (a b : option (gset ngram)) :
  jaccard_similarity a b
  = Ok (match a, b with
        | Some A, Some B =>
            if decide (A = ∅ \/ B = ∅) then None
            else Some (Z.of_nat (size (A ∩ B)) # Pos.of_nat (size (A ∪ B)))
        | _, _ => None
        end)
  /\ match jaccard_similarity a b with
     | Ok (Some q) => (0 <= q /\ q <= 1)%Q
     | Ok None => a = None \/ a = Some ∅ \/ b = None \/ b = Some ∅
     | _ => False
     end.
Proof.
  split; [apply jaccard_similarity_spec|].
  rewrite jaccard_similarity_spec.
  destruct (spec_jaccard a b) as [q|] eqn:Hq.
  - by apply (spec_jaccard_range a b).
  - unfold spec_jaccard in Hq. destruct a as [A|]; [|by left].
    destruct b as [B|]; [|by right; right; left].
    destruct (decide _) as [[->| ->]|]; [|by repeat right|done].
    by right; left.
Qed.

(** The bigrams of [the quick brown fox jumps] and of [the quick brown
    fox leaps] share three of five. *)
Example jaccard_scenario :
  jaccard_similarity
    (Some {[ ["the"; "quick"]; ["quick"; "brown"]; ["brown"; "fox"];
             ["fox"; "jumps"] ]})
    (Some {[ ["the"; "quick"]; ["quick"; "brown"]; ["brown"; "fox"];
             ["fox"; "leaps"] ]})
  = Ok (Some (3 # 5)).
Proof. vm_compute. reflexivity. Qed.

End SimilarityFacts.

(** ** The edge loop *)

Section EdgeFacts.
Import Text Similarity.

Implicit Types (n_grams : list (option (gset ngram))) (threshold : Q).

(** What the two guards of the inner loop let through. *)
Definition passes threshold (a b : option (gset ngram)) : bool :=
  match spec_jaccard a b with
  | Some q => negb (Qeq_bool q 0) && Qle_bool threshold q
  | None => false
  end.

Definition later (i : nat) (jb : nat * option (gset ngram)) : Prop :=
  (i < jb.1)%nat.

#[local] Instance later_dec i jb : Decision (later i jb).
Proof. unfold later. apply _. Defined.

(** The pairs scored and the edges added while the outer loop is at
    row [i]. *)
Definition row_scored (i : nat) (js : list (nat * option (gset ngram)))
  : list (nat * nat) :=
  (fun jb => (i, jb.1)) <$> filter (later i) js.

Definition row_edges threshold (i : nat) (a : option (gset ngram))
    (js : list (nat * option (gset ngram))) : list (nat * nat) :=
  (fun jb => (i, jb.1))
    <$> filter (fun jb => later i jb /\ passes threshold a jb.2 = true) js.

Definition all_scored n_grams : list (nat * nat) :=
  ia ← enumerate n_grams; row_scored ia.1 (enumerate n_grams).

Definition all_edges n_grams threshold : list (nat * nat) :=
  ia ← enumerate n_grams; row_edges threshold ia.1 ia.2 (enumerate n_grams).

Lemma edges_inner_step threshold i a E S j b :
  edges_inner threshold i a (E, S) (j, b)
  = Ok (E ++ row_edges threshold i a [(j, b)], S ++ row_scored i [(j, b)]).
Proof.
  unfold edges_inner, row_edges, row_scored.
  rewrite !filter_cons, !filter_nil. unfold later at 1 3. simpl.
  destruct (Nat.ltb_spec i j) as [Hlt|Hge]; simpl.
  - rewrite jaccard_similarity_spec. simpl.
    rewrite (decide_True (P:=(i < j)%nat)) by done.
    unfold passes, falsy_similarity.
    destruct (spec_jaccard a b) as [q|]; simpl.
    + destruct (Qeq_bool q 0); simpl.
      * rewrite decide_False by (intros [_ ?]; done). by rewrite app_nil_r.
      * destruct (Qle_bool threshold q).
        -- rewrite decide_True by done. done.
        -- rewrite decide_False by (intros [_ ?]; done). by rewrite app_nil_r.
    + rewrite decide_False by (intros [_ ?]; done). by rewrite app_nil_r.
  - rewrite (decide_False (P:=(i < j)%nat)) by lia.
    rewrite decide_False by (intros [? _]; unfold later in *; simpl in *; lia).
    by rewrite !app_nil_r.
Qed.

Lemma row_edges_cons threshold i a jb js :
  row_edges threshold i a (jb :: js)
  = row_edges threshold i a [jb] ++ row_edges threshold i a js.
Proof.
  unfold row_edges. rewrite <- fmap_app. f_equal.
  change (jb :: js) with ([jb] ++ js). by rewrite filter_app.
Qed.

Lemma row_scored_cons i jb js :
  row_scored i (jb :: js) = row_scored i [jb] ++ row_scored i js.
Proof.
  unfold row_scored. rewrite <- fmap_app. f_equal.
  change (jb :: js) with ([jb] ++ js). by rewrite filter_app.
Qed.

Lemma edges_inner_loop threshold i a js E S :
  ofold (edges_inner threshold i a) js (E, S)
  = Ok (E ++ row_edges threshold i a js, S ++ row_scored i js).
Proof.
  revert E S. induction js as [|[j b] js IH]; intros E S.
  - simpl. by rewrite !app_nil_r.
  - cbn [ofold]. rewrite edges_inner_step. cbn [mbind outcome_bind].
    rewrite IH, (row_edges_cons _ _ _ (j, b) js), (row_scored_cons _ (j, b) js).
    by rewrite !app_assoc.
Qed.

Lemma edges_outer_loop threshold (all rows : list (nat * option (gset ngram))) E S :
  ofold (fun st '(i, n_gram1) => ofold (edges_inner threshold i n_gram1) all st)
        rows (E, S)
  = Ok (E ++ (ia ← rows; row_edges threshold ia.1 ia.2 all),
        S ++ (ia ← rows; row_scored ia.1 all)).
Proof.
  revert E S. induction rows as [|[i a] rows IH]; intros E S.
  - simpl. by rewrite !app_nil_r.
  - cbn [ofold]. rewrite edges_inner_loop. cbn [mbind outcome_bind].
    rewrite IH. rewrite !bind_cons. by rewrite !app_assoc.
Qed.

Lemma edges_scored_eq n_grams threshold :
  edges_scored n_grams threshold
  = Ok (all_edges n_grams threshold, all_scored n_grams).
Proof. unfold edges_scored. by rewrite edges_outer_loop. Qed.

Lemma edges_eq n_grams threshold :
  edges n_grams threshold = Ok (all_edges n_grams threshold).
Proof. unfold edges. by rewrite edges_scored_eq. Qed.

Lemma elem_of_enumerate {A} (l : list A) (i : nat) (x : A) :
  (i, x) ∈ enumerate l <-> l !! i = Some x.
Proof.
  unfold enumerate. split.
  - intros (k & i' & x' & [= -> ->] & Hi & Hx)%elem_of_lookup_zip_with.
    apply lookup_seq in Hi as [-> _]. done.
  - intros Hx. apply (elem_of_lookup_zip_with_2 _ _ _ i x (i, x) i); [|done].
    apply lookup_seq. split; [done|]. by eapply lookup_lt_Some.
Qed.

Lemma NoDup_enumerate {A} (l : list A) : NoDup (enumerate l).
Proof.
  apply (NoDup_fmap_1 fst). unfold enumerate.
  rewrite fst_zip by (rewrite length_seq; lia). apply NoDup_seq.
Qed.

Lemma elem_of_all_edges n_grams threshold (i j : nat) :
  (i, j) ∈ all_edges n_grams threshold <->
  (i < j)%nat /\
  exists a b, n_grams !! i = Some a /\ n_grams !! j = Some b
              /\ passes threshold a b = true.
Proof.
  unfold all_edges, row_edges. rewrite list_elem_of_bind. split.
  - intros ([i' a] & Hij & Hia). apply list_elem_of_fmap in Hij.
    destruct Hij as ([j' b] & [= <- <-] & Hjb).
    apply list_elem_of_filter in Hjb as [[Hlt Hp] Hjb].
    apply elem_of_enumerate in Hia, Hjb. simpl in *.
    split; [done|]. by exists a, b.
  - intros (Hlt & a & b & Ha & Hb & Hp). exists (i, a). split.
    + apply list_elem_of_fmap. exists (j, b). split; [done|].
      apply list_elem_of_filter. split; [done|]. by apply elem_of_enumerate.
    + by apply elem_of_enumerate.
Qed.

Lemma elem_of_all_scored n_grams (i j : nat) :
  (i, j) ∈ all_scored n_grams <-> (i < j < length n_grams)%nat.
Proof.
  unfold all_scored, row_scored. rewrite list_elem_of_bind. split.
  - intros ([i' a] & Hij & Hia). apply list_elem_of_fmap in Hij.
    destruct Hij as ([j' b] & [= <- <-] & Hjb).
    apply list_elem_of_filter in Hjb as [Hlt Hjb].
    apply elem_of_enumerate, lookup_lt_Some in Hjb. unfold later in Hlt.
    simpl in *. lia.
  - intros [Hlt Hj].
    destruct (lookup_lt_is_Some_2 n_grams j Hj) as [b Hb].
    destruct (lookup_lt_is_Some_2 n_grams i ltac:(lia)) as [a Ha].
    exists (i, a). split; [|by apply elem_of_enumerate].
    apply list_elem_of_fmap. exists (j, b). split; [done|].
    apply list_elem_of_filter. split; [done|]. by apply elem_of_enumerate.
Qed.

Lemma NoDup_rows n_grams
    (g : nat * option (gset ngram) -> list (nat * option (gset ngram))) :
  (forall ia, NoDup (g ia) /\ g ia ⊆ enumerate n_grams) ->
  NoDup (ia ← enumerate n_grams; (fun jb => (ia.1, jb.1)) <$> g ia).
Proof.
  intros Hg. apply NoDup_bind.
  - intros [i1 a1] [i2 a2] [i j] H1 H2 Hin1 Hin2.
    apply list_elem_of_fmap in Hin1 as (jb1 & [= -> ->] & _).
    apply list_elem_of_fmap in Hin2 as (jb2 & [= -> _] & _).
    apply elem_of_enumerate in H1, H2. simpl in *. congruence.
  - intros ia _. destruct (Hg ia) as [Hnd Hsub].
    apply NoDup_fmap_2_strong; [|done].
    intros [j1 b1] [j2 b2] H1%Hsub H2%Hsub [= ->].
    apply elem_of_enumerate in H1, H2. congruence.
  - apply NoDup_enumerate.
Qed.

Lemma NoDup_all_edges n_grams threshold : NoDup (all_edges n_grams threshold).
Proof.
  apply (NoDup_rows n_grams
           (fun ia => filter (fun jb => later ia.1 jb
                                        /\ passes threshold ia.2 jb.2 = true)
                             (enumerate n_grams))).
  intros ia. split; [apply NoDup_filter, NoDup_enumerate|].
  intros x [_ Hx]%list_elem_of_filter. done.
Qed.

Lemma NoDup_all_scored n_grams : NoDup (all_scored n_grams).
Proof.
  apply (NoDup_rows n_grams
           (fun ia => filter (later ia.1) (enumerate n_grams))).
  intros ia. split; [apply NoDup_filter, NoDup_enumerate|].
  intros x [_ Hx]%list_elem_of_filter. done.
Qed.

Lemma passes_spec threshold a b :
  passes threshold a b = true <->
  exists q, jaccard_similarity a b = Ok (Some q)
            /\ ~ (q == 0)%Q /\ (threshold <= q)%Q.
Proof.
  unfold passes. rewrite jaccard_similarity_spec.
  destruct (spec_jaccard a b) as [q|]; split.
  - intros [Hz Hle]%andb_true_iff. exists q. split; [done|].
    split; [|by apply Qle_bool_iff].
    intros Heq%Qeq_bool_iff. by rewrite Heq in Hz.
  - intros (q' & [= <-] & Hz & Hle). apply andb_true_iff. split.
    + apply negb_true_iff. apply not_true_iff_false.
      by rewrite Qeq_bool_iff.
    + by apply Qle_bool_iff.
  - done.
  - by intros (q & [=] & _).
Qed.

Lemma passes_mono t1 t2 a b :
  (t1 <= t2)%Q -> passes t2 a b = true -> passes t1 a b = true.
Proof.
  intros Ht. rewrite !passes_spec. intros (q & Hq & Hz & Hle).
  exists q. split; [done|]. split; [done|]. by eapply Qle_trans.
Qed.

(** C4 (as stated) fails: two records without a common n-gram have
    similarity 0, which is not [None] and is at least the threshold 0,
    yet the loop adds no edge for them: the guard [if not similarity]
    skips the value 0 along with [None]. *)
Lemma edges_zero_similarity_no_edge :
  jaccard_similarity (Some {[ ["a"] ]}) (Some {[ ["b"] ]}) = Ok (Some (0 # 2))
  /\ (0 <= 0 # 2)%Q
  /\ edges [Some {[ ["a"] ]}; Some {[ ["b"] ]}] 0 = Ok [].
Proof. repeat split; vm_compute; (reflexivity || discriminate). Qed.

(** C4 (amended): for every list of shingle sets and every threshold,
    the loop produces exactly the pairs [(i, j)] with [i < j] whose
    similarity is not [None], is not zero, and is at least the threshold
    (the comparison is inclusive); each pair occurs once.  For a
    positive threshold the guard on zero is vacuous and this is the set
    of pairs whose similarity is not [None] and is at least the
    threshold.  Every pair [i < j] is scored exactly once. *)
Theorem edges_characterised n_grams threshold :
  exists E scored : list (nat * nat),
    edges_scored n_grams threshold = Ok (E, scored)
    /\ edges n_grams threshold = Ok E
    /\ (forall i j : nat,
          (i, j) ∈ E <->
          (i < j)%nat /\
          exists a b q,
            n_grams !! i = Some a /\ n_grams !! j = Some b
            /\ jaccard_similarity a b = Ok (Some q)
            /\ ~ (q == 0)%Q /\ (threshold <= q)%Q)
    /\ ((0 < threshold)%Q ->
        forall i j : nat,
          (i, j) ∈ E <->
          (i < j)%nat /\
          exists a b q,
            n_grams !! i = Some a /\ n_grams !! j = Some b
            /\ jaccard_similarity a b = Ok (Some q)
            /\ (threshold <= q)%Q)
    /\ NoDup E
    /\ (forall i j : nat, (i, j) ∈ scored <-> (i < j < length n_grams)%nat)
    /\ NoDup scored.
Proof.
  exists (all_edges n_grams threshold), (all_scored n_grams).
  split; [apply edges_scored_eq|]. split; [apply edges_eq|].
  assert (forall i j : nat,
            (i, j) ∈ all_edges n_grams threshold <->
            (i < j)%nat /\
            exists a b q,
              n_grams !! i = Some a /\ n_grams !! j = Some b
              /\ jaccard_similarity a b = Ok (Some q)
              /\ ~ (q == 0)%Q /\ (threshold <= q)%Q) as Hchar.
  { intros i j. rewrite elem_of_all_edges. split.
    - intros (Hlt & a & b & Ha & Hb & (q & Hq)%passes_spec).
      split; [done|]. by exists a, b, q.
    - intros (Hlt & a & b & q & Ha & Hb & Hq). split; [done|].
      exists a, b. split; [done|]. split; [done|].
      apply passes_spec. by exists q. }
  split; [exact Hchar|]. split.
  - intros Hpos i j. rewrite Hchar. split.
    + intros (Hlt & a & b & q & Ha & Hb & Hq & _ & Hle).
      split; [done|]. by exists a, b, q.
    + intros (Hlt & a & b & q & Ha & Hb & Hq & Hle).
      split; [done|]. exists a, b, q. repeat (split; [done|]).
      split; [|done]. intros Hz. rewrite Hz in Hle.
      by apply Qle_not_lt in Hle.
  - split; [apply NoDup_all_edges|].
    split; [apply elem_of_all_scored | apply NoDup_all_scored].
Qed.

(** C9: for a fixed list of shingle sets, lowering the threshold only
    adds edges: if [threshold1 <= threshold2], every edge produced at
    [threshold2] is produced at [threshold1]. *)
Theorem edges_threshold_monotone n_grams (threshold1 threshold2 : Q) :
  (threshold1 <= threshold2)%Q ->
  exists E1 E2 : list (nat * nat),
    edges n_grams threshold1 = Ok E1
    /\ edges n_grams threshold2 = Ok E2
    /\ E2 ⊆ E1.
Proof.
  intros Hle.
  exists (all_edges n_grams threshold1), (all_edges n_grams threshold2).
  split; [apply edges_eq|]. split; [apply edges_eq|].
  intros [i j]. rewrite !elem_of_all_edges.
  intros (Hlt & a & b & Ha & Hb & Hp). split; [done|].
  exists a, b. split; [done|]. split; [done|]. by eapply passes_mono.
Qed.

(** [edges_threshold_monotone] on three records, for the thresholds 0.3
    and 0.7. *)
Lemma edges_threshold_monotone_witness :
  exists E1 E2 : list (nat * nat),
    edges [Some {[ ["a"]; ["b"] ]}; Some {[ ["a"]; ["c"] ]}; None] (3 # 10)
    = Ok E1
    /\ edges [Some {[ ["a"]; ["b"] ]}; Some {[ ["a"]; ["c"] ]}; None] (7 # 10)
       = Ok E2
    /\ E2 ⊆ E1.
Proof.
  apply (edges_threshold_monotone _ (3 # 10) (7 # 10)).
  unfold Qle. simpl. lia.
Defined.

(** Similarity 1/3: an edge at threshold 0.3, none at 0.7; the record
    without shingles is in no edge. *)
Example edges_scenario :
  edges [Some {[ ["a"]; ["b"] ]}; Some {[ ["a"]; ["c"] ]}; None] (3 # 10)
  = Ok [(0, 1)%nat]
  /\ edges [Some {[ ["a"]; ["b"] ]}; Some {[ ["a"]; ["c"] ]}; None] (7 # 10)
     = Ok [].
Proof. split; vm_compute; reflexivity. Qed.

End EdgeFacts.

(** ** Frames: what a write changes *)

Section FrameFacts.
Import Frame.

Implicit Types (df : DataFrame) (c : string) (v : Cell).

Lemma assoc_None {V} c (l : list (string * V)) :
  assoc c l = None <-> c ∉ l.*1.
Proof.
  induction l as [|[k x] l IH]; simpl.
  - split; [intros _ ?%elem_of_nil | ]; done.
  - rewrite not_elem_of_cons. destruct (decide (k = c)) as [->|Hne].
    + split; [done | by intros [? _]].
    + rewrite IH. split; [by intros ?; split | by intros [_ ?]].
Qed.

Lemma assoc_is_Some {V} c (l : list (string * V)) :
  is_Some (assoc c l) <-> c ∈ l.*1.
Proof.
  rewrite <- not_eq_None_Some, assoc_None.
  split; [apply dec_stable | by intros ? ?].
Qed.

Lemma assoc_app {V} c (l1 l2 : list (string * V)) :
  assoc c (l1 ++ l2)
  = match assoc c l1 with
    | Some x => Some x
    | None => assoc c l2
    end.
Proof.
  induction l1 as [|[k x] l1 IH]; simpl; [done|].
  by destruct (decide (k = c)).
Qed.

Lemma update_column_names c f (cols : list (string * list Cell)) :
  (update_column c f cols).*1 = cols.*1.
Proof.
  unfold update_column. rewrite <- list_fmap_compose.
  apply list_fmap_ext. intros _ [k x] _. simpl. by destruct (decide (k = c)).
Qed.

Lemma assoc_update_column c c' f (cols : list (string * list Cell)) :
  assoc c' (update_column c f cols)
  = if decide (c' = c) then f <$> assoc c cols else assoc c' cols.
Proof.
  induction cols as [|[k x] cols IH]; simpl.
  - by destruct (decide (c' = c)).
  - destruct (decide (k = c)) as [->|Hk]; simpl; rewrite IH;
      repeat case_decide; simplify_eq; done.
Qed.

(** [df[c] = v] *)
Lemma set_column_index df c v : index (set_column df c v) = index df.
Proof. unfold set_column. by destruct (decide _). Qed.

Lemma set_column_names df c v :
  column_names (set_column df c v)
  = column_names df ++ (if decide (c ∈ column_names df) then [] else [c]).
Proof.
  unfold set_column, column_names.
  destruct (decide _); simpl.
  - by rewrite update_column_names, app_nil_r.
  - by rewrite fmap_app.
Qed.

Lemma get_set_column df c c' v :
  get_column (set_column df c v) c'
  = if decide (c' = c) then Some (replicate (nrows df) v)
    else get_column df c'.
Proof.
  unfold set_column, get_column.
  destruct (decide (c ∈ column_names df)) as [Hin|Hnin]; simpl.
  - rewrite assoc_update_column. destruct (decide (c' = c)); [|done].
    apply assoc_is_Some in Hin as [x ->]. done.
  - rewrite assoc_app. simpl. destruct (decide (c' = c)) as [->|Hne].
    + apply assoc_None in Hnin. rewrite Hnin. by rewrite decide_True.
    + rewrite (decide_False (P:=c = c')) by done. by destruct (assoc c' _).
Qed.

(** A write through [loc] to a row and a column that exist. *)
Lemma loc_set_present df label c v :
  label ∈ index df -> c ∈ column_names df ->
  loc_set df label c v
  = {| index := index df;
       columns := update_column c (write_rows (index df) label v)
                                (columns df) |}.
Proof.
  intros Hl Hc. unfold loc_set.
  rewrite (decide_True (P:=label ∈ index df)) by done.
  by rewrite (decide_True (P:=c ∈ column_names df)) by done.
Qed.

(** On the labels 0, 1, ... a write to the label [j] is a write to the
    position [j]. *)
Lemma write_rows_range (j : nat) v (col : list Cell) :
  write_rows (Z.of_nat <$> seq 0 (length col)) (Z.of_nat j) v col
  = <[j := v]> col.
Proof.
  unfold write_rows. apply list_eq. intros p.
  rewrite lookup_zip_with, list_lookup_fmap.
  destruct (col !! p) as [x|] eqn:Hp.
  - pose proof (lookup_lt_Some _ _ _ Hp) as Hlt.
    rewrite (lookup_seq_lt 0 (length col) p Hlt). simpl.
    destruct (decide (p = j)) as [->|Hne].
    + rewrite decide_True by done. by rewrite list_lookup_insert_eq.
    + rewrite decide_False by lia. by rewrite list_lookup_insert_ne.
  - pose proof Hp as Hge%lookup_ge_None.
    rewrite (lookup_seq_ge 0 (length col) p Hge). simpl.
    symmetry. apply lookup_ge_None. by rewrite length_insert.
Qed.

Lemma elem_of_range (N j : nat) :
  Z.of_nat j ∈ Z.of_nat <$> seq 0 N <-> (j < N)%nat.
Proof.
  rewrite list_elem_of_fmap. split.
  - intros (k & Hk%Nat2Z.inj & Hin). subst k.
    apply elem_of_seq in Hin. lia.
  - intros Hlt. exists j. split; [done|]. apply elem_of_seq. lia.
Qed.

(** The state of a frame whose rows are labelled 0, 1, ... while the
    cells of one column [c] of full length are being written. *)
Definition ranged df c : Prop :=
  index df = Z.of_nat <$> seq 0 (nrows df)
  /\ exists col, get_column df c = Some col /\ length col = nrows df.

Lemma loc_set_ranged df (j : nat) c v :
  ranged df c -> (j < nrows df)%nat ->
  exists df',
    loc_set df (Z.of_nat j) c v = df'
    /\ ranged df' c
    /\ index df' = index df
    /\ column_names df' = column_names df
    /\ (forall c', c' ≠ c -> get_column df' c' = get_column df c')
    /\ get_column df' c = (fun col => <[j := v]> col) <$> get_column df c.
Proof.
  intros (Hidx & col & Hcol & Hlen) Hj.
  assert (c ∈ column_names df) as Hc.
  { apply assoc_is_Some. unfold get_column in Hcol. by rewrite Hcol. }
  eexists. split.
  { apply loc_set_present; [|done]. rewrite Hidx. by apply elem_of_range. }
  unfold ranged, get_column, column_names, nrows in *. cbn [index columns].
  rewrite update_column_names.
  assert (assoc c (update_column c (write_rows (index df) (Z.of_nat j) v)
                                 (columns df))
          = Some (<[j := v]> col)) as Hnew.
  { rewrite assoc_update_column, decide_True by done. rewrite Hcol. simpl.
    f_equal. rewrite Hidx, <- Hlen. apply write_rows_range. }
  split; [split; [done|]|].
  { exists (<[j := v]> col). split; [done|]. by rewrite length_insert. }
  split; [done|]. split; [done|]. split.
  - intros c' Hne. by rewrite assoc_update_column, decide_False.
  - by rewrite Hnew, Hcol.
Qed.

End FrameFacts.

(** ** The graph built from the edges *)

Section GraphFacts.
Import nx.

Implicit Types (G : Graph) (es : list (nat * nat)) (u v w x : nat).

(** The rows that occur in an edge, and the rows joined by an edge in
    either direction. *)
Definition endpoint es v : Prop :=
  exists e, e ∈ es /\ (v = e.1 \/ v = e.2).

Definition edge_of es : relation nat := fun u v => (u, v) ∈ es.

(** Connected by a path of edges. *)
Definition connected es : relation nat := rtsc (edge_of es).

(** [G] is the graph of the edges [es]. *)
Record graph_of G es : Prop := {
  graph_nodup : NoDup (nodes G);
  graph_nodes : forall v, v ∈ nodes G <-> endpoint es v;
  graph_adj : forall u v, v ∈ adj G !!! u <-> sc (edge_of es) u v
}.

Lemma endpoint_app es e v :
  endpoint (es ++ [e]) v <-> endpoint es v \/ v = e.1 \/ v = e.2.
Proof.
  unfold endpoint. split.
  - intros (e' & [Hin| ->%list_elem_of_singleton]%elem_of_app & Hv).
    + left. by exists e'.
    + by right.
  - intros [(e' & Hin & Hv)|Hv].
    + exists e'. split; [|done]. apply elem_of_app. by left.
    + exists e. split; [|done]. apply elem_of_app. right.
      by apply list_elem_of_singleton.
Qed.

Lemma sc_edge_app es e u v :
  sc (edge_of (es ++ [e])) u v <->
  sc (edge_of es) u v \/ (u, v) = e \/ (v, u) = e.
Proof.
  unfold sc, edge_of. rewrite !elem_of_app, !list_elem_of_singleton. tauto.
Qed.

Lemma nodes_add_node G u v :
  v ∈ nodes (add_node G u) <-> v ∈ nodes G \/ v = u.
Proof.
  unfold add_node. destruct (decide (u ∈ nodes G)) as [Hin|Hnin]; simpl.
  - split; [by left | by intros [?| ->]].
  - by rewrite elem_of_app, list_elem_of_singleton.
Qed.

Lemma NoDup_add_node G u : NoDup (nodes G) -> NoDup (nodes (add_node G u)).
Proof.
  intros Hnd. unfold add_node.
  destruct (decide (u ∈ nodes G)) as [Hin|Hnin]; simpl; [done|].
  apply NoDup_app. split; [done|]. split; [|apply NoDup_singleton].
  intros x Hx ->%list_elem_of_singleton. done.
Qed.

Lemma adj_add_node G u x w :
  (u ∉ nodes G -> forall v, v ∉ adj G !!! u) ->
  w ∈ adj (add_node G u) !!! x <-> w ∈ adj G !!! x.
Proof.
  intros Hfresh. unfold add_node.
  destruct (decide (u ∈ nodes G)) as [Hin|Hnin]; simpl; [done|].
  destruct (decide (x = u)) as [->|Hne].
  - rewrite lookup_total_insert_eq. split; [by intros ?%elem_of_nil|].
    intros Hw. by apply Hfresh in Hw.
  - by rewrite lookup_total_insert_ne.
Qed.

Lemma adj_add_neighbour G u v x w :
  w ∈ adj (add_neighbour G u v) !!! x <->
  w ∈ adj G !!! x \/ (x = u /\ w = v).
Proof.
  unfold add_neighbour.
  destruct (decide (v ∈ adj G !!! u)) as [Hin|Hnin]; simpl.
  - split; [by left | by intros [?|[-> ->]]].
  - destruct (decide (x = u)) as [->|Hne].
    + rewrite lookup_total_insert_eq, elem_of_app, list_elem_of_singleton.
      split; intros [?|?]; [by left | by right | by left | right; tauto].
    + rewrite lookup_total_insert_ne by done.
      split; [by left | by intros [?|[-> _]]].
Qed.

Lemma nodes_add_neighbour G u v : nodes (add_neighbour G u v) = nodes G.
Proof. unfold add_neighbour. by destruct (decide _). Qed.

Lemma graph_of_empty : graph_of empty [].
Proof.
  split; simpl.
  - apply NoDup_nil_2.
  - intros v. split; [by intros ?%elem_of_nil|].
    by intros (e & ?%elem_of_nil & _).
  - intros u v. rewrite lookup_total_empty. unfold sc, edge_of.
    split; [by intros ?%elem_of_nil | by intros [?%elem_of_nil|?%elem_of_nil]].
Qed.

Lemma graph_of_add_edge G es e :
  graph_of G es -> graph_of (add_edge G e) (es ++ [e]).
Proof.
  intros [Hnd Hnodes Hadj]. destruct e as [a b]. unfold add_edge. simpl.
  assert (forall x, x ∉ nodes G -> forall v, v ∉ adj G !!! x) as Hfresh.
  { intros x Hx v Hv. apply Hx, Hnodes. apply Hadj in Hv as [Hv|Hv].
    - exists (x, v). split; [done | by left].
    - exists (v, x). split; [done | by right]. }
  assert (forall x, x ∉ nodes (add_node G a) ->
                    forall v, v ∉ adj (add_node G a) !!! x) as Hfresh'.
  { intros x Hx v. rewrite adj_add_node by auto.
    apply Hfresh. intros Hin. apply Hx, nodes_add_node. by left. }
  split.
  - rewrite !nodes_add_neighbour. by do 2 apply NoDup_add_node.
  - intros v. rewrite !nodes_add_neighbour, !nodes_add_node, endpoint_app.
    rewrite Hnodes. simpl. tauto.
  - intros u v. rewrite !adj_add_neighbour, sc_edge_app.
    rewrite adj_add_node by auto. rewrite adj_add_node by auto.
    rewrite Hadj. split.
    + intros [[?|[-> ->]]|[-> ->]]; auto.
    + intros [?|[[= -> ->]|[= -> ->]]]; auto.
Qed.

Lemma graph_of_fold G es0 es :
  graph_of G es0 -> graph_of (fold_left add_edge es G) (es0 ++ es).
Proof.
  revert G es0. induction es as [|e es IH]; intros G es0 HG; simpl.
  - by rewrite app_nil_r.
  - replace (es0 ++ e :: es) with ((es0 ++ [e]) ++ es)
      by (by rewrite <- app_assoc).
    by apply IH, graph_of_add_edge.
Qed.

Lemma graph_of_add_edges_from es :
  graph_of (add_edges_from empty es) es.
Proof. apply (graph_of_fold empty [] es), graph_of_empty. Qed.

End GraphFacts.

(** ** Breadth-first search and the connected components *)

Section TraversalFacts.
Import nx.

Variable G : Graph.
Variable es : list (nat * nat).
Hypothesis HG : graph_of G es.

Implicit Types (seen : gset nat) (level next : list nat) (u v w x : nat).

(** While one level is visited: [seen] grows from [seen0] by exactly
    the nodes put on the next level, each of them once. *)
Definition level_inv (seen0 : gset nat) (st : gset nat * list nat) : Prop :=
  st.1 = seen0 ∪ list_to_set st.2
  /\ NoDup st.2
  /\ forall w, w ∈ st.2 -> w ∉ seen0.

Lemma level_inv_start seen0 : level_inv seen0 (seen0, []).
Proof.
  split; [|split]; simpl.
  - set_solver.
  - apply NoDup_nil_2.
  - by intros w ?%elem_of_nil.
Qed.

Lemma level_inv_size seen0 st :
  level_inv seen0 st -> size st.1 = (size seen0 + length st.2)%nat.
Proof.
  intros (-> & Hnd & Hnew). rewrite size_union.
  - by rewrite size_list_to_set.
  - intros w Hw Hw'. apply elem_of_list_to_set in Hw'. by apply (Hnew w).
Qed.

Lemma visit_neighbours_spec seen0 nbrs st :
  level_inv seen0 st ->
  level_inv seen0 (visit_neighbours nbrs st)
  /\ st.1 ⊆ (visit_neighbours nbrs st).1
  /\ (forall w, w ∈ nbrs -> w ∈ (visit_neighbours nbrs st).1)
  /\ (forall w, w ∈ (visit_neighbours nbrs st).2 -> w ∈ st.2 \/ w ∈ nbrs).
Proof.
  unfold visit_neighbours. revert st.
  induction nbrs as [|n nbrs IH]; intros st Hinv; simpl.
  - split; [done|]. split; [done|]. split; [by intros w ?%elem_of_nil|].
    by left.
  - set (st1 := if decide (n ∈ st.1) then st
                else ({[n]} ∪ st.1, st.2 ++ [n])).
    assert (level_inv seen0 st1 /\ st.1 ⊆ st1.1 /\ n ∈ st1.1
            /\ forall w, w ∈ st1.2 -> w ∈ st.2 \/ w = n) as (H1 & H2 & H3 & H4).
    { subst st1. destruct (decide (n ∈ st.1)) as [Hin|Hnin].
      - split; [done|]. split; [done|]. split; [done|]. by left.
      - destruct Hinv as (Heq & Hnd & Hnew). simpl.
        split; [|split; [set_solver|split; [set_solver|]]].
        + split; [|split]; simpl.
          * rewrite Heq, list_to_set_app_L. set_solver.
          * apply NoDup_app. split; [done|].
            split; [|apply NoDup_singleton].
            intros w Hw ->%list_elem_of_singleton. apply Hnin.
            rewrite Heq. set_solver.
          * intros w [Hw| ->%list_elem_of_singleton]%elem_of_app; [by auto|].
            intros Hw. apply Hnin. rewrite Heq. set_solver.
        + intros w [Hw| ->%list_elem_of_singleton]%elem_of_app; by auto. }
    destruct (IH st1 H1) as (I1 & I2 & I3 & I4).
    split; [done|]. split; [set_solver|]. split.
    + intros w [->|Hw]%elem_of_cons; [by apply I2 | by apply I3].
    + intros w Hw. destruct (I4 w Hw) as [Hw'|Hw'].
      * destruct (H4 w Hw') as [?| ->]; [by left | right; left].
      * right. by right.
Qed.

Lemma visit_level_fold seen0 level st :
  level_inv seen0 st ->
  let st' := fold_left (fun st v => visit_neighbours (adj G !!! v) st) level st in
  level_inv seen0 st'
  /\ st.1 ⊆ st'.1
  /\ (forall v w, v ∈ level -> w ∈ adj G !!! v -> w ∈ st'.1)
  /\ (forall w, w ∈ st'.2 ->
                w ∈ st.2 \/ exists v, v ∈ level /\ w ∈ adj G !!! v).
Proof.
  revert st. induction level as [|v level IH]; intros st Hinv; simpl.
  - split; [done|]. split; [done|]. split; [by intros ? ? ?%elem_of_nil|].
    by left.
  - destruct (visit_neighbours_spec seen0 (adj G !!! v) st Hinv)
      as (H1 & H2 & H3 & H4).
    destruct (IH _ H1) as (I1 & I2 & I3 & I4).
    split; [done|]. split; [set_solver|]. split.
    + intros v' w [->|Hv]%elem_of_cons Hw; [|by eapply I3].
      apply I2. by apply H3.
    + intros w Hw. destruct (I4 w Hw) as [Hw'|(v' & Hv' & Hw')].
      * destruct (H4 w Hw') as [?|?]; [by left|].
        right. exists v. split; [by left | done].
      * right. exists v'. split; [by right | done].
Qed.

Lemma visit_level_spec level seen :
  let st := visit_level G level seen in
  level_inv seen st
  /\ (forall v w, v ∈ level -> w ∈ adj G !!! v -> w ∈ st.1)
  /\ (forall w, w ∈ st.2 -> exists v, v ∈ level /\ w ∈ adj G !!! v).
Proof.
  destruct (visit_level_fold seen level (seen, []) (level_inv_start seen))
    as (H1 & _ & H3 & H4).
  split; [done|]. split; [done|].
  intros w Hw. destruct (H4 w Hw) as [?%elem_of_nil|?]; done.
Qed.

(** The invariant of the search from [s]: what has been seen is
    reachable from [s], lies in the graph, and is closed under
    neighbours except for the nodes of the level still to be visited. *)
Definition search_inv (s : nat) seen level : Prop :=
  s ∈ seen
  /\ (forall x, x ∈ seen -> connected es s x)
  /\ (forall x, x ∈ seen -> x ∈ nodes G)
  /\ (forall x, x ∈ level -> x ∈ seen)
  /\ (forall x w, x ∈ seen -> x ∉ level -> w ∈ adj G !!! x -> w ∈ seen).

Lemma neighbour_is_node x w : w ∈ adj G !!! x -> w ∈ nodes G.
Proof.
  intros [Hw|Hw]%(graph_adj _ _ HG); apply (graph_nodes _ _ HG).
  - exists (x, w). split; [done | by right].
  - exists (w, x). split; [done | by left].
Qed.

Lemma search_inv_step s seen level :
  search_inv s seen level ->
  search_inv s (visit_level G level seen).1 (visit_level G level seen).2.
Proof.
  intros (Hs & Hreach & Hnodes & Hlevel & Hclosed).
  destruct (visit_level_spec level seen) as ((Heq & Hnd & Hnew) & Hcov & Hfrom).
  set (st := visit_level G level seen) in *.
  assert (forall x, x ∈ st.1 <-> x ∈ seen \/ x ∈ st.2) as Hst.
  { intros x. rewrite Heq. set_solver. }
  split; [apply Hst; by left|]. split; [|split; [|split]].
  - intros x [Hx|Hx]%Hst; [by auto|].
    destruct (Hfrom x Hx) as (v & Hv & Hw).
    eapply rtc_r; [apply Hreach, Hlevel, Hv|].
    by apply (graph_adj _ _ HG).
  - intros x [Hx|Hx]%Hst; [by auto|].
    destruct (Hfrom x Hx) as (v & Hv & Hw). by eapply neighbour_is_node.
  - intros x Hx. apply Hst. by right.
  - intros x w [Hx|Hx]%Hst Hnot Hw; [|done].
    destruct (decide (x ∈ level)) as [Hin|Hnin].
    + by eapply Hcov.
    + apply Hst. left. by eapply Hclosed.
Qed.

Lemma search_inv_done s seen x :
  search_inv s seen [] -> x ∈ seen <-> connected es s x.
Proof.
  intros (Hs & Hreach & _ & _ & Hclosed). split; [by auto|].
  revert x. apply (rtc_ind_r (fun x => x ∈ seen) s); [done|].
  intros b c Hsb Hbc IH.
  eapply (Hclosed b c IH); [by intros ?%elem_of_nil|].
  by apply (graph_adj _ _ HG).
Qed.

Lemma size_seen_le seen :
  (forall x, x ∈ seen -> x ∈ nodes G) -> (size seen <= length (nodes G))%nat.
Proof.
  intros Hsub.
  rewrite <- (size_list_to_set (C:=gset nat) (nodes G))
    by apply (graph_nodup _ _ HG).
  apply subseteq_size. intros x Hx. apply elem_of_list_to_set. by apply Hsub.
Qed.

(** The search returns, within the fuel it is given, the nodes
    connected to its source. *)
Lemma plain_bfs_loop_spec s fuel seen level :
  search_inv s seen level ->
  level = [] \/ (length (nodes G) - size seen < fuel)%nat ->
  exists C, plain_bfs_loop fuel G seen level = Ok C
            /\ forall x, x ∈ C <-> connected es s x.
Proof.
  revert seen level. induction fuel as [|fuel IH]; intros seen level Hinv Hfuel.
  - destruct Hfuel as [->|?]; [|lia]. exists seen. split; [done|].
    intros x. by apply search_inv_done.
  - destruct level as [|v level].
    { exists seen. split; [done|]. intros x. by apply search_inv_done. }
    cbn [plain_bfs_loop]. apply IH; [by apply search_inv_step|].
    destruct (visit_level_spec (v :: level) seen) as (Hlev & _ & _).
    pose proof (level_inv_size _ _ Hlev) as Hsize.
    pose proof (search_inv_step _ _ _ Hinv) as (_ & _ & Hnodes & _).
    apply size_seen_le in Hnodes.
    destruct ((visit_level G (v :: level) seen).2) as [|n next] eqn:Hnext;
      [by left|right].
    destruct Hfuel as [?|Hfuel]; [done|]. simpl in Hsize. lia.
Qed.

Lemma plain_bfs_spec s :
  s ∈ nodes G ->
  exists C, plain_bfs G s = Ok C /\ forall x, x ∈ C <-> connected es s x.
Proof.
  intros Hs. unfold plain_bfs. apply plain_bfs_loop_spec.
  - split; [set_solver|]. split; [|split; [|split]].
    + intros x ->%elem_of_singleton. done.
    + intros x ->%elem_of_singleton. done.
    + intros x ->%list_elem_of_singleton. set_solver.
    + intros x w ->%elem_of_singleton Hx. exfalso. apply Hx. by left.
  - right. rewrite size_singleton.
    assert (length (nodes G) ≠ 0%nat); [|lia].
    intros Hz%length_zero_iff_nil. rewrite Hz in Hs. by apply elem_of_nil in Hs.
Qed.

Lemma connected_node s x : connected es s x -> s ∈ nodes G -> x ∈ nodes G.
Proof.
  intros Hx Hs. revert x Hx. apply (rtc_ind_r (fun x => x ∈ nodes G) s); [done|].
  intros b c _ Hbc _. apply (graph_nodes _ _ HG).
  destruct Hbc as [Hbc|Hbc].
  - exists (b, c). split; [done | by right].
  - exists (c, b). split; [done | by left].
Qed.

(** The state of [connected_components] after the nodes [pre]. *)
Record components_inv (pre : list nat) (seen : gset nat)
    (comps : list (gset nat)) : Prop := {
  comps_seen : forall x, x ∈ seen <-> exists c, c ∈ comps /\ x ∈ c;
  comps_class : forall c, c ∈ comps ->
      exists v, v ∈ nodes G /\ forall x, x ∈ c <-> connected es v x;
  comps_cover : forall v, v ∈ pre -> v ∈ seen;
  comps_disjoint : forall i j c1 c2,
      comps !! i = Some c1 -> comps !! j = Some c2 -> i ≠ j -> c1 ## c2
}.

Lemma lookup_nil_Some {A} (i : nat) (x : A) : ([] : list A) !! i = Some x -> False.
Proof. by rewrite lookup_nil. Qed.

Lemma components_inv_start : components_inv [] ∅ [].
Proof.
  split.
  - intros x. split; [by intros ?%elem_of_empty|].
    by intros (c & ?%elem_of_nil & _).
  - by intros c ?%elem_of_nil.
  - by intros v ?%elem_of_nil.
  - by intros i j c1 c2 ?%lookup_nil_Some.
Qed.

Lemma components_inv_skip pre seen comps v :
  components_inv pre seen comps -> v ∈ seen ->
  components_inv (pre ++ [v]) seen comps.
Proof.
  intros [H1 H2 H3 H4] Hv. split; try done.
  intros x [?| ->%list_elem_of_singleton]%elem_of_app; auto.
Qed.

Lemma components_inv_new pre seen comps v C :
  components_inv pre seen comps -> v ∈ nodes G -> v ∉ seen ->
  (forall x, x ∈ C <-> connected es v x) ->
  components_inv (pre ++ [v]) (seen ∪ C) (comps ++ [C]).
Proof.
  intros [H1 H2 H3 H4] Hnode Hv HC. split.
  - intros x. rewrite elem_of_union, H1. split.
    + intros [(c & Hc & Hx)|Hx].
      * exists c. split; [|done]. apply elem_of_app. by left.
      * exists C. split; [|done]. apply elem_of_app. right.
        by apply list_elem_of_singleton.
    + intros (c & [Hc| ->%list_elem_of_singleton]%elem_of_app & Hx).
      * left. by exists c.
      * by right.
  - intros c [Hc| ->%list_elem_of_singleton]%elem_of_app; [by auto|].
    by exists v.
  - intros x [Hx| ->%list_elem_of_singleton]%elem_of_app.
    + apply elem_of_union. left. by auto.
    + apply elem_of_union. right. by apply HC.
  - assert (forall c, c ∈ comps -> c ## C) as Hfresh.
    { intros c Hc x Hxc HxC. apply Hv, H1.
      destruct (H2 c Hc) as (v' & _ & Hc').
      exists c. split; [done|]. apply Hc'.
      apply HC in HxC. apply Hc' in Hxc.
      etrans; [exact Hxc|]. by symmetry. }
    intros i j c1 c2 Hi Hj Hne.
    apply lookup_app_Some in Hi as [Hi|[Hi Hi']];
      apply lookup_app_Some in Hj as [Hj|[Hj Hj']].
    + by eapply H4.
    + apply list_lookup_singleton_Some in Hj' as [_ <-].
      apply Hfresh. by eapply list_elem_of_lookup_2.
    + apply list_lookup_singleton_Some in Hi' as [_ <-].
      symmetry. apply Hfresh. by eapply list_elem_of_lookup_2.
    + apply list_lookup_singleton_Some in Hi' as [Hi' _].
      apply list_lookup_singleton_Some in Hj' as [Hj' _]. lia.
Qed.

Lemma connected_components_fold rest pre seen comps :
  (forall v, v ∈ rest -> v ∈ nodes G) ->
  components_inv pre seen comps ->
  exists seen' comps',
    Similarity.ofold
      (fun (st : gset nat * list (gset nat)) v =>
         if decide (v ∈ st.1) then Ok st
         else c ← plain_bfs G v; Ok (st.1 ∪ c, st.2 ++ [c]))
      rest (seen, comps) = Ok (seen', comps')
    /\ components_inv (pre ++ rest) seen' comps'.
Proof.
  revert pre seen comps.
  induction rest as [|v rest IH]; intros pre seen comps Hrest Hinv.
  - exists seen, comps. rewrite app_nil_r. done.
  - cbn [Similarity.ofold]. simpl.
    assert (v ∈ nodes G) as Hv by (apply Hrest; by left).
    assert (forall v', v' ∈ rest -> v' ∈ nodes G) as Hrest'
      by (intros v' ?; apply Hrest; by right).
    replace (pre ++ v :: rest) with ((pre ++ [v]) ++ rest)
      by (by rewrite <- app_assoc).
    destruct (decide (v ∈ seen)) as [Hin|Hnin]; simpl.
    + apply IH; [done|]. by apply components_inv_skip.
    + destruct (plain_bfs_spec v Hv) as (C & -> & HC). simpl.
      apply IH; [done|]. by apply components_inv_new.
Qed.

(** [connected_components] returns: every node lies in a component,
    the components are pairwise disjoint, and each is the set of nodes
    connected to any one of its members. *)
Lemma connected_components_spec :
  exists comps,
    connected_components G = Ok comps
    /\ (forall v, endpoint es v <-> exists c, c ∈ comps /\ v ∈ c)
    /\ (forall c a b, c ∈ comps -> a ∈ c -> b ∈ c <-> connected es a b)
    /\ (forall i j c1 c2,
          comps !! i = Some c1 -> comps !! j = Some c2 -> i ≠ j -> c1 ## c2).
Proof.
  destruct (connected_components_fold (nodes G) [] ∅ []
              ltac:(done) components_inv_start)
    as (seen & comps & Hfold & [H1 H2 H3 H4]).
  exists comps. unfold connected_components. rewrite Hfold. simpl.
  split; [done|]. split; [|split; [|done]].
  - intros v. rewrite <- (graph_nodes _ _ HG). split.
    + intros Hv. apply H1, H3. done.
    + intros (c & Hc & Hvc). destruct (H2 c Hc) as (s & Hs & Hclass).
      eapply connected_node; [|done]. by apply Hclass.
  - intros c a b Hc Ha. destruct (H2 c Hc) as (s & Hs & Hclass).
    rewrite Hclass. apply Hclass in Ha. split.
    + intros Hb. etrans; [|exact Hb]. by symmetry.
    + intros Hab. by etrans.
Qed.

End TraversalFacts.


(** ** Text extraction and the assignment of component numbers *)

Section ClusterFacts.
Import Text Similarity Frame Cluster.

Variable py_int : string -> option Z.
Variable textract_process : Z -> outcome string.

Implicit Types (df : DataFrame) (c : string).

(** A property that every iteration of a loop keeps holds when the loop
    ends normally. *)
Lemma ofold_inv {A S} (P : S -> Prop) (body : S -> A -> outcome S) l s s' :
  P s ->
  (forall s x s', x ∈ l -> P s -> body s x = Ok s' -> P s') ->
  ofold body l s = Ok s' -> P s'.
Proof.
  revert s. induction l as [|x l IH]; intros s Hs Hbody; simpl.
  - by intros [= <-].
  - destruct (body s x) as [s1| |] eqn:Hx; simpl; try done.
    apply IH.
    + eapply Hbody; [by left|done..].
    + intros s2 y s3 Hy. apply Hbody. by right.
Qed.

Lemma map_outcome_length {A B} (f : A -> outcome B) l l' :
  map_outcome f l = Ok l' -> length l' = length l.
Proof.
  revert l'. induction l as [|x l IH]; intros l'; simpl.
  - by intros [= <-].
  - destruct (f x) as [y| |]; simpl; try done.
    destruct (map_outcome f l) as [ys| |]; simpl; try done.
    intros [= <-]. simpl. by rewrite (IH ys).
Qed.

Lemma well_formed_column df c col :
  well_formed df -> get_column df c = Some col -> length col = nrows df.
Proof.
  unfold well_formed, get_column. intros Hwf.
  induction Hwf as [|[k x] cols Hx Hwf IH]; simpl; [done|].
  destruct (decide (k = c)); [by intros [= <-] | done].
Qed.

(** [df'] is [df] up to the cells of the column [c]. *)
Definition same_but c df df' : Prop :=
  index df' = index df
  /\ column_names df' = column_names df
  /\ forall c', c' ≠ c -> get_column df' c' = get_column df c'.

Lemma same_but_refl c df : same_but c df df.
Proof. done. Qed.

Lemma same_but_trans c df1 df2 df3 :
  same_but c df1 df2 -> same_but c df2 df3 -> same_but c df1 df3.
Proof.
  intros (H1 & H2 & H3) (I1 & I2 & I3). split; [congruence|].
  split; [congruence|]. intros c' Hc. by rewrite I3, H3.
Qed.

Lemma same_but_nrows c df df' : same_but c df df' -> nrows df' = nrows df.
Proof. intros (H & _). unfold nrows. by rewrite H. Qed.

Lemma loc_set_same_but df (j : nat) c v :
  ranged df c -> (j < nrows df)%nat ->
  ranged (loc_set df (Z.of_nat j) c v) c
  /\ same_but c df (loc_set df (Z.of_nat j) c v).
Proof.
  intros Hr Hj.
  destruct (loc_set_ranged df j c v Hr Hj) as (df' & -> & H1 & H2 & H3 & H4 & _).
  done.
Qed.

Lemma loc_set_well_formed df (j : nat) c v :
  ranged df c -> (j < nrows df)%nat -> well_formed df ->
  well_formed (loc_set df (Z.of_nat j) c v).
Proof.
  intros Hr Hj Hwf.
  destruct Hr as (Hidx & col & Hcol & Hlen).
  assert (c ∈ column_names df) as Hc.
  { apply assoc_is_Some. unfold get_column in Hcol. by rewrite Hcol. }
  rewrite loc_set_present; [|rewrite Hidx; by apply elem_of_range|done].
  unfold well_formed, nrows in *. simpl. unfold update_column.
  apply Forall_fmap. eapply Forall_impl; [exact Hwf|].
  intros [k0 x] Hx. simpl in *. destruct (decide (k0 = c)); simpl; [|done].
  unfold write_rows. rewrite length_zip_with. lia.
Qed.

Lemma reset_index_nrows df : nrows (reset_index df) = nrows df.
Proof. unfold reset_index, nrows. simpl. by rewrite length_fmap, length_seq. Qed.

Lemma set_column_nrows df c v : nrows (set_column df c v) = nrows df.
Proof. unfold nrows. by rewrite set_column_index. Qed.

Lemma set_column_ranged df c v :
  index df = Z.of_nat <$> seq 0 (nrows df) -> ranged (set_column df c v) c.
Proof.
  intros Hidx. split.
  - by rewrite set_column_nrows, set_column_index.
  - exists (replicate (nrows df) v). rewrite get_set_column, decide_True by done.
    split; [done|]. by rewrite length_replicate, set_column_nrows.
Qed.

Lemma well_formed_set_column df c v :
  well_formed df -> well_formed (set_column df c v).
Proof.
  unfold well_formed, set_column. intros Hwf.
  destruct (decide _); simpl; unfold nrows; simpl.
  - unfold update_column. apply Forall_fmap. eapply Forall_impl; [exact Hwf|].
    intros [k x] Hx. simpl in *. destruct (decide (k = c)); simpl; [|done].
    by rewrite length_replicate.
  - apply Forall_app. split; [done|]. apply Forall_singleton. simpl.
    by rewrite length_replicate.
Qed.

Lemma well_formed_reset_index df : well_formed df -> well_formed (reset_index df).
Proof.
  unfold well_formed. intros Hwf. rewrite reset_index_nrows. done.
Qed.

(** What [extract_text] does to a frame: the rows are relabelled, the
    column [text_attachment] is (re)written, nothing else changes. *)
Lemma extract_text_spec df df' :
  well_formed df ->
  extract_text py_int textract_process df = Ok df' ->
  ranged df' "text_attachment"
  /\ well_formed df'
  /\ index df' = Z.of_nat <$> seq 0 (nrows df)
  /\ column_names df'
     = column_names df
       ++ (if decide ("text_attachment" ∈ column_names df) then []
           else ["text_attachment"])
  /\ forall c, c ≠ "text_attachment" -> get_column df' c = get_column df c.
Proof.
  intros Hwf. unfold extract_text.
  set (df1 := set_column (reset_index df) "text_attachment" CNone).
  assert (ranged df1 "text_attachment") as Hr1.
  { apply set_column_ranged. simpl. by rewrite reset_index_nrows. }
  assert (nrows df1 = nrows df) as Hn1.
  { unfold df1. by rewrite set_column_nrows, reset_index_nrows. }
  unfold attr. destruct (get_column df1 "attachment") as [att|] eqn:Hatt;
    [|done]. simpl.
  assert (length att = nrows df) as Hlen.
  { unfold df1 in Hatt. rewrite get_set_column, decide_False in Hatt by done.
    by apply (well_formed_column df "attachment"). }
  intros Hloop.
  assert (well_formed df1) as Hwf1
    by (by apply well_formed_set_column, well_formed_reset_index).
  assert (ranged df' "text_attachment" /\ same_but "text_attachment" df1 df'
          /\ well_formed df')
    as (Hr & (Hidx & Hnames & Hcols) & Hwf').
  { revert Hloop.
    apply (ofold_inv (fun s => ranged s "text_attachment"
                               /\ same_but "text_attachment" df1 s
                               /\ well_formed s));
      [by split|].
    intros s [i a] s' Hia (Hrs & Hsame & Hwfs) Hbody.
    apply elem_of_enumerate, lookup_lt_Some in Hia.
    assert (i < nrows s)%nat as Hi.
    { rewrite (same_but_nrows _ _ _ Hsame). lia. }
    unfold extract_text_body in Hbody.
    destruct (notna a && negb (is_empty_str a)); [|by injection Hbody as <-].
    destruct (int_of_cell py_int a) as [k| |]; simpl in Hbody; try done.
    assert (forall v, ranged (loc_set s (Z.of_nat i) "text_attachment" v)
                             "text_attachment"
                      /\ same_but "text_attachment" df1
                           (loc_set s (Z.of_nat i) "text_attachment" v)
                      /\ well_formed
                           (loc_set s (Z.of_nat i) "text_attachment" v)) as Hw.
    { intros v. destruct (loc_set_same_but s i "text_attachment" v Hrs Hi).
      split; [done|]. split; [by eapply same_but_trans|].
      by apply loc_set_well_formed. }
    destruct (textract_process k) as [t|[]|]; try done;
      injection Hbody as <-; apply Hw. }
  split; [done|]. split; [done|]. split; [|split].
  - rewrite Hidx. unfold df1. by rewrite set_column_index.
  - rewrite Hnames. unfold df1. by rewrite set_column_names.
  - intros c Hc. rewrite Hcols by done. unfold df1.
    by rewrite get_set_column, decide_False.
Qed.

Lemma enumerate_snoc {A} (l : list A) (x : A) :
  enumerate (l ++ [x]) = enumerate l ++ [(length l, x)].
Proof.
  unfold enumerate. rewrite length_app. simpl. rewrite seq_app. simpl.
  rewrite zip_with_app by apply length_seq. done.
Qed.

(** The inner loop of lines 164-166 writes the number [k] to the rows
    [js] of the column [component]. *)
Lemma assign_rows_spec (k : nat) (js : list nat) df :
  ranged df "component" ->
  (forall j, j ∈ js -> (j < nrows df)%nat) ->
  exists df',
    fold_left (fun df j =>
                 loc_set df (Z.of_nat j) "component" (CInt (Z.of_nat k)))
              js df = df'
    /\ ranged df' "component"
    /\ same_but "component" df df'
    /\ forall col col' j cell,
         get_column df "component" = Some col ->
         get_column df' "component" = Some col' ->
         col' !! j = Some cell ->
         (j ∈ js /\ cell = CInt (Z.of_nat k))
         \/ ((j ∉ js) /\ col !! j = Some cell).
Proof.
  revert df. induction js as [|j0 js IH]; intros df Hr Hjs; simpl.
  - exists df. split; [done|]. split; [done|]. split; [done|].
    intros col col' j cell Hc Hc' Hj. right.
    split; [by intros ?%elem_of_nil | congruence].
  - destruct (loc_set_ranged df j0 "component" (CInt (Z.of_nat k)) Hr)
      as (df1 & -> & Hr1 & Hi1 & Hn1 & Ho1 & Hc1); [apply Hjs; by left|].
    assert (same_but "component" df df1) as Hs1 by done.
    destruct (IH df1 Hr1) as (df' & Hfold & Hr' & Hs' & Hcells).
    { intros j Hj. rewrite (same_but_nrows _ _ _ Hs1). apply Hjs. by right. }
    exists df'. split; [done|]. split; [done|].
    split; [by eapply same_but_trans|].
    intros col col' j cell Hcol Hcol' Hcell.
    rewrite Hcol in Hc1. simpl in Hc1.
    destruct (Hcells _ _ j cell Hc1 Hcol' Hcell) as [[Hin ->]|[Hnin Hold]].
    + left. split; [by right | done].
    + rewrite list_lookup_insert in Hold.
      destruct (decide (j0 = j /\ (j0 < length col)%nat)) as [[-> _]|Hno].
      * left. split; [by left | congruence].
      * right. split; [|done]. apply not_elem_of_cons. split; [|done].
        intros ->. apply Hno. split; [done|]. by eapply lookup_lt_Some.
Qed.

(** A cell of the column [component] once the components [comps] are
    assigned: [None] for a row in no component, else the position of a
    component that holds the row. *)
Definition cell_ok (comps : list (gset nat)) (j : nat) (cell : Cell) : Prop :=
  (cell = CNone /\ forall g, g ∈ comps -> j ∉ g)
  \/ (exists (k : nat) (g : gset nat),
        cell = CInt (Z.of_nat k) /\ comps !! k = Some g /\ j ∈ g).

Lemma assign_components_spec df comps :
  ranged df "component" ->
  get_column df "component" = Some (replicate (nrows df) CNone) ->
  (forall (g : gset nat) j, g ∈ comps -> j ∈ g -> (j < nrows df)%nat) ->
  ranged (assign_components df comps) "component"
  /\ same_but "component" df (assign_components df comps)
  /\ forall col' j cell,
       get_column (assign_components df comps) "component" = Some col' ->
       col' !! j = Some cell -> cell_ok comps j cell.
Proof.
  intros Hr Hcol. induction comps as [|g comps IH] using rev_ind; intros Hlt.
  - unfold assign_components. simpl. split; [done|]. split; [done|].
    intros col' j cell Hcol' Hcell. left.
    rewrite Hcol in Hcol'. injection Hcol' as <-.
    apply lookup_replicate in Hcell as [-> _].
    split; [done | by intros g ?%elem_of_nil].
  - destruct IH as (Hr' & Hs' & Hcells).
    { intros g' j Hg'. apply Hlt, elem_of_app. by left. }
    unfold assign_components in *.
    rewrite enumerate_snoc, fold_left_app. simpl.
    set (df1 := fold_left _ (enumerate comps) df) in *.
    destruct (assign_rows_spec (length comps) (elements g) df1 Hr')
      as (df' & -> & Hr2 & Hs2 & Hcells2).
    { intros j Hj%elem_of_elements.
      rewrite (same_but_nrows _ _ _ Hs'). apply (Hlt g); [|done].
      apply elem_of_app. right. by apply list_elem_of_singleton. }
    split; [done|]. split; [by eapply same_but_trans|].
    intros col' j cell Hcol' Hcell.
    destruct Hr' as (_ & col1 & Hcol1 & _).
    destruct (Hcells2 _ _ j cell Hcol1 Hcol' Hcell) as [[Hin ->]|[Hnin Hold]].
    + right. exists (length comps), g. split; [done|].
      split; [|by apply elem_of_elements].
      rewrite lookup_app_r by done. by rewrite Nat.sub_diag.
    + destruct (Hcells _ j cell Hcol1 Hold) as [[-> Hno]|(k & g' & -> & Hk & Hj)].
      * left. split; [done|].
        intros g' [Hg'| ->%list_elem_of_singleton]%elem_of_app; [by auto|].
        by rewrite <- elem_of_elements.
      * right. exists k, g'. split; [done|]. split; [|done].
        by apply lookup_app_l_Some.
Qed.

(** The stages of [add_components] when it returns. *)
Lemma add_components_stages df (n : Z) (threshold : Q) df' :
  well_formed df ->
  add_components py_int textract_process df n threshold = Ok df' ->
  exists df2 n_grams E comps,
    index df2 = Z.of_nat <$> seq 0 (nrows df)
    /\ column_names df2
       = (column_names df
          ++ (if decide ("component" ∈ column_names df) then []
              else ["component"]))
         ++ (if decide ("text_attachment" ∈ column_names df) then []
             else ["text_attachment"])
    /\ (forall c, c ≠ "component" ->
                  c ≠ "text_attachment" \/ "text_attachment" ∈ column_names df ->
                  get_column df2 c = get_column df c)
    /\ get_column df2 "component" = Some (replicate (nrows df) CNone)
    /\ n_grams_of df2 n = Ok n_grams
    /\ (length n_grams <= nrows df)%nat
    /\ edges n_grams threshold = Ok E
    /\ nx.connected_components (nx.add_edges_from nx.empty E) = Ok comps
    /\ df' = assign_components df2 comps.
Proof.
  intros Hwf. unfold add_components.
  set (df1 := set_column (reset_index df) "component" CNone).
  assert (well_formed df1) as Hwf1
    by (by apply well_formed_set_column, well_formed_reset_index).
  assert (nrows df1 = nrows df) as Hn1
    by (unfold df1; by rewrite set_column_nrows, reset_index_nrows).
  assert (index df1 = Z.of_nat <$> seq 0 (nrows df)) as Hi1.
  { unfold df1. rewrite set_column_index. simpl. done. }
  assert (column_names df1
          = column_names df ++ (if decide ("component" ∈ column_names df)
                                then [] else ["component"])) as Hnames1.
  { unfold df1. by rewrite set_column_names. }
  assert (forall c, get_column df1 c
                    = if decide (c = "component")
                      then Some (replicate (nrows df) CNone)
                      else get_column df c) as Hget1.
  { intros c. unfold df1. by rewrite get_set_column, reset_index_nrows. }
  assert ("text_attachment" ∈ column_names df1
          <-> "text_attachment" ∈ column_names df) as Hta.
  { rewrite Hnames1, elem_of_app. destruct (decide _); simpl.
    - split; [by intros [?|?%elem_of_nil] | by left].
    - rewrite list_elem_of_singleton. split; [by intros [?|?] | by left]. }
  set (stage := if decide ("text_attachment" ∈ column_names df1) then Ok df1
                else extract_text py_int textract_process df1).
  destruct stage as [df2| |] eqn:Hstage; simpl; try done.
  assert (index df2 = Z.of_nat <$> seq 0 (nrows df)
          /\ column_names df2
             = column_names df1
               ++ (if decide ("text_attachment" ∈ column_names df) then []
                   else ["text_attachment"])
          /\ forall c, c ≠ "text_attachment" \/ "text_attachment" ∈ column_names df ->
                       get_column df2 c = get_column df1 c)
    as (Hi2 & Hnames2 & Hget2).
  { subst stage. destruct (decide ("text_attachment" ∈ column_names df1))
      as [Hin|Hnin].
    - injection Hstage as <-. split; [done|].
      rewrite decide_True by (by apply Hta). by rewrite app_nil_r.
    - apply extract_text_spec in Hstage as (_ & _ & H1 & H2 & H3); [|done].
      rewrite Hn1 in H1. split; [done|]. split.
      + rewrite H2, decide_False by done.
        rewrite decide_False by (by rewrite <- Hta). done.
      + intros c [Hc|Hc]; [by apply H3|]. by apply Hta in Hc. }
  destruct (n_grams_of df2 n) as [n_grams| |] eqn:Hng; simpl; try done.
  destruct (edges n_grams threshold) as [E| |] eqn:HE; simpl; try done.
  destruct (nx.connected_components _) as [comps| |] eqn:Hcc; simpl; try done.
  intros [= <-]. exists df2, n_grams, E, comps.
  split; [done|]. split; [by rewrite Hnames2, Hnames1|]. split.
  { intros c Hc Hc'. rewrite Hget2, Hget1 by done. by rewrite decide_False. }
  split.
  { rewrite Hget2, Hget1 by (by left). by rewrite decide_True. }
  split; [done|]. split; [|done].
  unfold n_grams_of, attr in Hng.
  destruct (get_column df2 "text") as [text|] eqn:Htext; [|done].
  destruct (get_column df2 "text_attachment") as [ta|]; [|done].
  simpl in Hng. apply map_outcome_length in Hng. rewrite Hng, length_zip.
  rewrite Hget2, Hget1, decide_False in Htext by (done || by left).
  rewrite (well_formed_column _ _ _ Hwf Htext). lia.
Qed.

Lemma endpoint_bound n_grams (threshold : Q) E (j : nat) :
  edges n_grams threshold = Ok E -> endpoint E j -> (j < length n_grams)%nat.
Proof.
  rewrite edges_eq. intros [= <-] ([a b] & Hin & Hj).
  apply elem_of_all_edges in Hin as (Hlt & x & y & Hx & Hy & _).
  apply lookup_lt_Some in Hx, Hy. simpl in Hj. destruct Hj; lia.
Qed.

Lemma n_grams_of_same df df' (n : Z) :
  same_but "component" df df' -> n_grams_of df' n = n_grams_of df n.
Proof.
  intros (_ & _ & Hget). unfold n_grams_of, attr. by rewrite !Hget.
Qed.

(** The frame that [add_components] returns, seen from its stages. *)
Lemma add_components_result df (n : Z) (threshold : Q) df' :
  well_formed df ->
  add_components py_int textract_process df n threshold = Ok df' ->
  exists df2 n_grams E comps,
    (index df2 = Z.of_nat <$> seq 0 (nrows df)
     /\ column_names df2
        = (column_names df
           ++ (if decide ("component" ∈ column_names df) then []
               else ["component"]))
          ++ (if decide ("text_attachment" ∈ column_names df) then []
              else ["text_attachment"])
     /\ (forall c, c ≠ "component" ->
                   c ≠ "text_attachment" \/ "text_attachment" ∈ column_names df ->
                   get_column df2 c = get_column df c))
    /\ (n_grams_of df2 n = Ok n_grams
        /\ (length n_grams <= nrows df)%nat
        /\ edges n_grams threshold = Ok E
        /\ nx.connected_components (nx.add_edges_from nx.empty E) = Ok comps)
    /\ ranged df' "component"
    /\ same_but "component" df2 df'
    /\ forall col' j cell,
         get_column df' "component" = Some col' ->
         col' !! j = Some cell -> cell_ok comps j cell.
Proof.
  intros Hwf Hrun.
  destruct (add_components_stages df n threshold df' Hwf Hrun)
    as (df2 & n_grams & E & comps & Hi2 & Hnames2 & Hget2 & Hcomp2 & Hng
        & Hlen & HE & Hcc & ->).
  assert (nrows df2 = nrows df) as Hn2.
  { unfold nrows at 1. by rewrite Hi2, length_fmap, length_seq. }
  exists df2, n_grams, E, comps. split; [done|]. split; [done|].
  apply assign_components_spec.
  - split; [by rewrite Hn2|]. exists (replicate (nrows df) CNone).
    split; [done|]. by rewrite length_replicate.
  - by rewrite Hn2.
  - intros g j Hg Hj. rewrite Hn2.
    destruct (connected_components_spec _ E (graph_of_add_edges_from E))
      as (comps' & Hcc' & Hnodes & _).
    rewrite Hcc in Hcc'. injection Hcc' as <-.
    assert (endpoint E j) as Hend by (apply Hnodes; by exists g).
    pose proof (endpoint_bound _ _ _ _ HE Hend). lia.
Qed.

(** C1 (amended): after [add_components] every row that is an endpoint
    of at least one threshold-passing edge has exactly one component
    number, and two such rows have the same number if and only if they
    are connected by a path of threshold-passing edges.  A row that is
    in no edge (in particular a row without shingles) is not put in a
    singleton cluster: its [component] stays [None]. *)
Theorem add_components_clusters df (n : Z) (threshold : Q) df' :
  well_formed df ->
  add_components py_int textract_process df n threshold = Ok df' ->
  exists n_grams E col,
    n_grams_of df' n = Ok n_grams
    /\ edges n_grams threshold = Ok E
    /\ get_column df' "component" = Some col
    /\ length col = nrows df
    /\ (forall j : nat,
          (j < nrows df)%nat -> col !! j = Some CNone <-> ~ endpoint E j)
    /\ (forall j : nat,
          endpoint E j -> exists k : nat, col !! j = Some (CInt (Z.of_nat k)))
    /\ (forall (i j : nat) (ci cj : Z),
          col !! i = Some (CInt ci) -> col !! j = Some (CInt cj) ->
          ci = cj <-> connected E i j).
Proof.
  intros Hwf Hrun.
  destruct (add_components_result df n threshold df' Hwf Hrun)
    as (df2 & n_grams & E & comps & (Hi2 & _) & (Hng & Hle & HE & Hcc)
        & Hr & Hsame & Hcells).
  destruct (connected_components_spec _ E (graph_of_add_edges_from E))
    as (comps' & Hcc' & Hnodes & Hclass & Hdisj).
  rewrite Hcc in Hcc'. injection Hcc' as <-.
  destruct Hr as (Hidx & col & Hcol & Hlen).
  assert (nrows df' = nrows df) as Hn.
  { rewrite (same_but_nrows _ _ _ Hsame). unfold nrows at 1.
    by rewrite Hi2, length_fmap, length_seq. }
  exists n_grams, E, col.
  split; [by rewrite (n_grams_of_same df2 df')|]. split; [done|].
  split; [done|]. split; [congruence|].
  assert (forall j cell, col !! j = Some cell -> cell_ok comps j cell) as Hok
    by (intros j cell; by apply Hcells).
  assert (forall j, (j < nrows df)%nat -> is_Some (col !! j)) as Hsome
    by (intros j Hj; apply lookup_lt_is_Some_2; lia).
  split; [|split].
  - intros j Hj. rewrite Hnodes. split.
    + intros [[_ Hno]|(k & g & [=] & _)]%Hok (g' & Hg & Hjg). by eapply Hno.
    + intros Hno. destruct (Hsome j Hj) as [cell Hcell].
      destruct (Hok j cell Hcell) as [[-> _]|(k & g & _ & Hk & Hjg)]; [done|].
      exfalso. apply Hno. exists g. split; [|done].
      by eapply list_elem_of_lookup_2.
  - intros j Hend.
    pose proof (endpoint_bound _ _ _ _ HE Hend) as Hj.
    destruct (Hsome j ltac:(lia)) as [cell Hcell].
    destruct (Hok j cell Hcell) as [[_ Hno]|(k & g & -> & _)]; [|by exists k].
    apply Hnodes in Hend as (g & Hg & Hjg). by apply Hno in Hjg.
  - intros i j ci cj Hi Hj.
    destruct (Hok i _ Hi) as [[[=] _]|(k1 & g1 & [= ->] & Hk1 & Hig)].
    destruct (Hok j _ Hj) as [[[=] _]|(k2 & g2 & [= ->] & Hk2 & Hjg)].
    assert (g1 ∈ comps) as Hg1 by (by eapply list_elem_of_lookup_2).
    split.
    + intros Heq%Nat2Z.inj. subst k2.
      assert (g2 = g1) as -> by congruence.
      by apply (Hclass g1 i j).
    + intros Hconn. f_equal.
      destruct (decide (k1 = k2)) as [|Hne]; [done|exfalso].
      apply (Hdisj k1 k2 g1 g2 Hk1 Hk2 Hne j); [|done].
      by apply (Hclass g1 i j).
Qed.

(** C10: [add_components] keeps the number of rows and, row by row and
    in the same order, the cells of every column of its input other
    than [component]; it writes the column [component], and it adds
    the column [text_attachment] only when the input lacks it. *)
Theorem add_components_frame df (n : Z) (threshold : Q) df' :
  well_formed df ->
  add_components py_int textract_process df n threshold = Ok df' ->
  nrows df' = nrows df
  /\ index df' = Z.of_nat <$> seq 0 (nrows df)
  /\ column_names df'
     = (column_names df
        ++ (if decide ("component" ∈ column_names df) then []
            else ["component"]))
       ++ (if decide ("text_attachment" ∈ column_names df) then []
           else ["text_attachment"])
  /\ (forall c, c ∈ column_names df -> c ≠ "component" ->
                get_column df' c = get_column df c)
  /\ exists col, get_column df' "component" = Some col
                 /\ length col = nrows df.
Proof.
  intros Hwf Hrun.
  destruct (add_components_result df n threshold df' Hwf Hrun)
    as (df2 & n_grams & E & comps & (Hi2 & Hnames2 & Hget2) & _
        & Hr & (Hidx & Hnames & Hget) & _).
  assert (nrows df' = nrows df) as Hn.
  { unfold nrows at 1. by rewrite Hidx, Hi2, length_fmap, length_seq. }
  split; [done|]. split; [congruence|]. split; [congruence|]. split.
  - intros c Hin Hc. rewrite Hget by done. apply Hget2; [done|].
    destruct (decide (c = "text_attachment")) as [->|]; [by right | by left].
  - destruct Hr as (_ & col & Hcol & Hlen). exists col. split; [done|].
    congruence.
Qed.

(** Neither [extract_text] nor [add_components] touches a column other
    than the two they write. *)
Lemma add_components_other_columns df (n : Z) (threshold : Q) df' c :
  well_formed df ->
  add_components py_int textract_process df n threshold = Ok df' ->
  c ≠ "component" -> c ≠ "text_attachment" ->
  get_column df' c = get_column df c.
Proof.
  intros Hwf Hrun Hc Hc'.
  destruct (add_components_result df n threshold df' Hwf Hrun)
    as (df2 & n_grams & E & comps & (_ & _ & Hget2) & _ & _
        & (_ & _ & Hget) & _).
  rewrite Hget by done. apply Hget2; [done | by left].
Qed.

(** [add_components] returns (it neither raises nor runs out of fuel in
    the search) on a frame that has the two text columns, with strings
    or missing values in them, for every [n >= 0]. *)
Definition textual (cell : Cell) : Prop := forall z, cell ≠ CInt z.

Lemma ngrams_of_txt_returns (txt : Cell) (n : Z) :
  0 <= n -> textual txt -> exists g, ngrams_of_txt txt n = Ok g.
Proof.
  intros Hn Htxt. unfold ngrams_of_txt, ngrams.
  destruct txt as [| |s0|z]; simpl; eauto.
  - destruct (decide (s0 = "")); simpl; [by eauto|].
    destruct (Z.ltb_spec n 0); [lia|]. destruct (n =? 0); simpl; eauto.
  - by destruct (Htxt z).
Qed.

Lemma get_ngrams_returns (text text_attachment : Cell) (n : Z) :
  0 <= n -> textual text -> textual text_attachment ->
  exists g, get_ngrams text text_attachment n = Ok g.
Proof.
  intros Hn Ht Ha. unfold get_ngrams, select_txt.
  destruct (notna text_attachment); by apply ngrams_of_txt_returns.
Qed.

Lemma map_outcome_returns {A B} (f : A -> outcome B) (l : list A) :
  (forall x, x ∈ l -> exists y, f x = Ok y) ->
  exists l', map_outcome f l = Ok l'.
Proof.
  induction l as [|x l IH]; intros Hl; simpl; [by eauto|].
  destruct (Hl x) as [y ->]; [by left|]. simpl.
  destruct IH as [l' ->]; [intros x' ?; apply Hl; by right|]. simpl. eauto.
Qed.

(** X26: [add_components] returns a frame (it does not raise, and the
    search for the components does not run out of fuel) on every frame
    that has the columns [text] and [text_attachment] with strings or
    missing values in them, for every [n >= 0] and every threshold. *)
Lemma add_components_returns df (n : Z) (threshold : Q) text text_attachment :
  0 <= n ->
  get_column df "text" = Some text -> Forall textual text ->
  get_column df "text_attachment" = Some text_attachment ->
  Forall textual text_attachment ->
  exists df', add_components py_int textract_process df n threshold = Ok df'.
Proof.
  intros Hn Htext Htextual Hta Htatextual. unfold add_components.
  set (df1 := set_column (reset_index df) "component" CNone).
  assert (forall c, c ≠ "component" -> get_column df1 c = get_column df c)
    as Hget1.
  { intros c Hc. unfold df1. by rewrite get_set_column, decide_False. }
  rewrite decide_True.
  2:{ apply assoc_is_Some. fold (get_column df1 "text_attachment").
      rewrite Hget1 by done. by rewrite Hta. }
  simpl. unfold n_grams_of, attr. rewrite !Hget1, Htext, Hta by done. simpl.
  destruct (map_outcome_returns
              (fun tt : Cell * Cell => get_ngrams tt.1 tt.2 n)
              (zip text text_attachment)) as [n_grams ->].
  { intros [t a] Hin. apply get_ngrams_returns; [done|..]; simpl.
    - apply elem_of_zip_l in Hin. by eapply Forall_forall in Htextual.
    - apply elem_of_zip_r in Hin. by eapply Forall_forall in Htatextual. }
  simpl. rewrite edges_eq. simpl.
  destruct (connected_components_spec _ _
              (graph_of_add_edges_from (all_edges n_grams threshold)))
    as (comps & -> & _).
  simpl. eauto.
Qed.

End ClusterFacts.

(** ** The clustering of the small consultation *)

Section DemoFacts.
Import Text Similarity Frame Cluster Demo.

Lemma demo_frame_well_formed : well_formed demo_frame.
Proof. repeat constructor. Qed.

Lemma demo_frame_clustered :
  add_components demo_int demo_textract demo_frame 2 (3 # 10)
  = Ok demo_clustered.
Proof. vm_compute. reflexivity. Qed.

(** C1 (as stated) fails: at threshold 0.7 the first response (with
    shingles, but similar to no other) and the fourth (without
    shingles) are in no edge, and neither is given a cluster: their
    [component] is [None]. *)
Lemma add_components_isolated_unassigned :
  exists df',
    add_components demo_int demo_textract demo_frame 2 (7 # 10) = Ok df'
    /\ get_column df' "component" = Some [CNone; CInt 0; CInt 0; CNone].
Proof. eexists. split; vm_compute; reflexivity. Qed.

(** [add_components_clusters] on the four responses, bigrams, threshold
    0.3. *)
Lemma add_components_clusters_witness :
  well_formed demo_frame
  /\ add_components demo_int demo_textract demo_frame 2 (3 # 10)
     = Ok demo_clustered
  /\ exists n_grams E col,
      n_grams_of demo_clustered 2 = Ok n_grams
      /\ edges n_grams (3 # 10) = Ok E
      /\ get_column demo_clustered "component" = Some col
      /\ length col = nrows demo_frame
      /\ (forall j : nat,
            (j < nrows demo_frame)%nat ->
            col !! j = Some CNone <-> ~ endpoint E j)
      /\ (forall j : nat,
            endpoint E j ->
            exists k : nat, col !! j = Some (CInt (Z.of_nat k)))
      /\ (forall (i j : nat) (ci cj : Z),
            col !! i = Some (CInt ci) -> col !! j = Some (CInt cj) ->
            ci = cj <-> connected E i j).
Proof.
  assert (well_formed demo_frame) as Hwf by repeat constructor.
  assert (add_components demo_int demo_textract demo_frame 2 (3 # 10)
          = Ok demo_clustered) as Hrun by (vm_compute; reflexivity).
  split; [exact Hwf|]. split; [exact Hrun|].
  exact (add_components_clusters demo_int demo_textract demo_frame 2 (3 # 10)
           demo_clustered Hwf Hrun).
Defined.

(** [add_components_frame] on the four responses: the frame has no
    column [component] and no column [text_attachment], both are
    added. *)
Lemma add_components_frame_witness :
  well_formed demo_frame
  /\ add_components demo_int demo_textract demo_frame 2 (3 # 10)
     = Ok demo_clustered
  /\ nrows demo_clustered = nrows demo_frame
  /\ index demo_clustered = Z.of_nat <$> seq 0 (nrows demo_frame)
  /\ column_names demo_clustered
     = (column_names demo_frame
        ++ (if decide ("component" ∈ column_names demo_frame) then []
            else ["component"]))
       ++ (if decide ("text_attachment" ∈ column_names demo_frame) then []
           else ["text_attachment"])
  /\ (forall c, c ∈ column_names demo_frame -> c ≠ "component" ->
                get_column demo_clustered c = get_column demo_frame c)
  /\ exists col, get_column demo_clustered "component" = Some col
                 /\ length col = nrows demo_frame.
Proof.
  assert (well_formed demo_frame) as Hwf by repeat constructor.
  assert (add_components demo_int demo_textract demo_frame 2 (3 # 10)
          = Ok demo_clustered) as Hrun by (vm_compute; reflexivity).
  split; [exact Hwf|]. split; [exact Hrun|].
  exact (add_components_frame demo_int demo_textract demo_frame 2 (3 # 10)
           demo_clustered Hwf Hrun).
Defined.

End DemoFacts.

(** ** The crawl loop *)

Section CrawlFacts.
Import Text Similarity Frame Cluster Crawl.

Variable listing : Z -> Soup.
Variable response_page : string -> ResponsePage.
Variable read_back : DataFrame -> DataFrame.
Variable py_int : string -> option Z.
Variable textract_process : Z -> outcome string.
Variable cfg : Config.

Implicit Types (w : World) (done : list Cell) (rs : list Response) (p k : Z).

Lemma mbind_ok {A B} (m : M A) (f : A -> M B) w w1 a :
  m w = (w1, Ok a) -> (m ≫= f) w = f a w1.
Proof. intros H. unfold mbind, M_bind, bind. by rewrite H. Qed.

Lemma mbind_inv {A B} (m : M A) (f : A -> M B) w w2 b :
  (m ≫= f) w = (w2, Ok b) ->
  exists w1 a, m w = (w1, Ok a) /\ f a w1 = (w2, Ok b).
Proof.
  unfold mbind, M_bind, bind. destruct (m w) as [w1 [a| |]]; try done.
  intros H. by exists w1, a.
Qed.

(** The pages requested so far, in order. *)
Definition listing_pages (tr : list Event) : list Z :=
  e ← tr;
  match e with
  | GetListing p => [p]
  | _ => []
  end.

Lemma listing_pages_app tr1 tr2 :
  listing_pages (tr1 ++ tr2) = listing_pages tr1 ++ listing_pages tr2.
Proof. unfold listing_pages. by rewrite bind_app. Qed.

(** The pages [k], [k + 1], ... ([d] of them). *)
Fixpoint zrange (k : Z) (d : nat) : list Z :=
  match d with
  | O => []
  | S d' => k :: zrange (k + 1) d'
  end.

(** The url a response is stored under. *)
Definition url_of (r : Response) : Cell := default CNaN (assoc "url" r).

(** What a listing page names, and what of it is new. *)
Definition page_urls p : list string :=
  match get_result_urls (listing p) with
  | Ok urls => urls
  | _ => []
  end.

Definition new_urls done p : list string :=
  filter (fun url => CStr url ∉ done) (page_urls p).

(** A page the crawl gets through: it has a result list, and the page of
    every new response has an overview table. *)
Definition page_ok done p : Prop :=
  is_Some (result_list (listing p))
  /\ forall url, url ∈ new_urls done p -> is_Some (table (response_page url)).

Lemma assoc_dict_set (d : Response) (key key' : string) (v : Cell) :
  assoc key' (dict_set d key v)
  = if decide (key' = key) then Some v else assoc key' d.
Proof.
  induction d as [|[k0 v0] d IH]; simpl.
  - destruct (decide (key = key')), (decide (key' = key)); congruence.
  - destruct (decide (k0 = key)) as [->|Hne]; simpl.
    + destruct (decide (key = key')), (decide (key' = key)); congruence.
    + rewrite IH. destruct (decide (k0 = key')), (decide (key' = key));
        congruence.
Qed.

(** The events of one world extend those of another without a request
    for a listing page, and the file is the same. *)
Definition quiet_step w w' : Prop :=
  file w' = file w
  /\ exists tr, trace w' = trace w ++ tr /\ listing_pages tr = [].

Lemma quiet_step_refl w : quiet_step w w.
Proof. split; [done|]. exists []. by rewrite app_nil_r. Qed.

Lemma quiet_step_trans w1 w2 w3 :
  quiet_step w1 w2 -> quiet_step w2 w3 -> quiet_step w1 w3.
Proof.
  intros (Hf1 & tr1 & Ht1 & Hp1) (Hf2 & tr2 & Ht2 & Hp2).
  split; [congruence|]. exists (tr1 ++ tr2).
  split; [by rewrite Ht2, Ht1, app_assoc|].
  by rewrite listing_pages_app, Hp1, Hp2.
Qed.

Lemma emit_quiet e w :
  listing_pages [e] = [] -> quiet_step w (emit e w).1.
Proof. intros He. split; [done|]. by exists [e]. Qed.

Lemma download_files_ok ids w :
  exists w', download_files ids w = (w', Ok (join "," ids)) /\ quiet_step w w'.
Proof.
  unfold download_files.
  assert (exists w' us,
            mapM (fun id => _ ← emit (GetAttachment id);
                            emit (SaveAttachment id)) ids w
            = (w', Ok us) /\ quiet_step w w') as (w' & us & Hm & Hq).
  { revert w. induction ids as [|id ids IH]; intros w; cbn [mapM].
    - exists w, []. split; [done | apply quiet_step_refl].
    - set (w1 := (emit (GetAttachment id) w).1).
      set (w2 := (emit (SaveAttachment id) w1).1).
      rewrite (mbind_ok _ _ w w2 tt)
        by (by rewrite (mbind_ok _ _ w w1 tt)).
      destruct (IH w2) as (w' & us & Hm & Hq).
      rewrite (mbind_ok _ _ _ _ _ Hm). exists w', (tt :: us).
      split; [done|]. eapply quiet_step_trans; [|exact Hq].
      eapply quiet_step_trans; by apply emit_quiet. }
  rewrite (mbind_ok _ _ _ _ _ Hm). by exists w'.
Qed.

Lemma get_response_ok url w :
  is_Some (table (response_page url)) ->
  exists w' r,
    get_response response_page cfg url w = (w', Ok r)
    /\ url_of r = CStr url
    /\ quiet_step w w'.
Proof.
  intros [rows Hrows]. unfold get_response.
  rewrite (mbind_ok _ _ w (emit (GetResponse url) w).1 tt) by done.
  assert (quiet_step w (emit (GetResponse url) w).1) as Hq0
    by (by apply emit_quiet).
  set (w0 := (emit (GetResponse url) w).1) in *.
  rewrite Hrows. cbn [parse_table].
  match goal with
  | |- context [lift (Ok ?d)] =>
      rewrite (mbind_ok (lift (Ok d)) _ w0 w0 d) by done; set (response := d)
  end.
  cbv zeta.
  destruct (download_attachments cfg).
  - destruct (download_files_ok (downloads (response_page url)) w0)
      as (w' & Hd & Hq).
    rewrite (mbind_ok _ _ _ _ _ Hd). eexists w', _. split; [done|].
    split; [|by eapply quiet_step_trans].
    unfold url_of. by rewrite !assoc_dict_set.
  - eexists w0, _. split; [done|]. split; [|done].
    unfold url_of. by rewrite !assoc_dict_set.
Qed.

Lemma mapM_get_response_ok urls w :
  (forall url, url ∈ urls -> is_Some (table (response_page url))) ->
  exists w' new,
    mapM (get_response response_page cfg) urls w = (w', Ok new)
    /\ url_of <$> new = CStr <$> urls
    /\ quiet_step w w'.
Proof.
  revert w. induction urls as [|url urls IH]; intros w Hok; simpl.
  - exists w, []. split; [done|]. split; [done | apply quiet_step_refl].
  - destruct (get_response_ok url w) as (w1 & r & Hr & Hu & Hq1);
      [apply Hok; by left|].
    rewrite (mbind_ok _ _ _ _ _ Hr).
    destruct (IH w1) as (w' & new & Hm & Hus & Hq);
      [intros u ?; apply Hok; by right|].
    rewrite (mbind_ok _ _ _ _ _ Hm). exists w', (r :: new).
    split; [done|]. split; [|by eapply quiet_step_trans].
    rewrite !fmap_cons. by rewrite Hu, Hus.
Qed.

Lemma quiet_step_pages w w' :
  quiet_step w w' -> listing_pages (trace w') = listing_pages (trace w).
Proof.
  intros (_ & tr & -> & Hp). by rewrite listing_pages_app, Hp, app_nil_r.
Qed.

Lemma page_ok_urls done p :
  page_ok done p -> get_result_urls (listing p) = Ok (page_urls p).
Proof.
  intros [[results Hres] _]. unfold page_urls, get_result_urls.
  by rewrite Hres.
Qed.

(** The state after the iteration for the page [page st], when the
    bound in force is [M']. *)
Definition after_page (st : LoopState) (M' : Z) (new : list Response)
  : LoopState + list Response :=
  if M' <? page st + 1 then inr (responses st ++ new)
  else inl {| page := page st + 1; max_page := Some M';
              responses := responses st ++ new |}.

(** One iteration on a page the crawl gets through. *)
Lemma crawl_body_ok done (st : LoopState) w (M' : Z) :
  page_ok done (page st) ->
  (if falsy_int (max_page st) then read_max_page (listing (page st))
   else Ok (default 0 (max_page st))) = Ok M' ->
  exists w' new,
    crawl_body listing response_page cfg done st w
    = (w', Ok (after_page st M' new))
    /\ url_of <$> new = CStr <$> new_urls done (page st)
    /\ listing_pages (trace w') = listing_pages (trace w) ++ [page st].
Proof.
  intros Hok HM. unfold crawl_body.
  set (checkpoint := if (page st mod 10 =? 0)
                        && negb (bool_decide (responses st = []))
                     then to_excel (DataFrame_of (responses st))
                     else ret tt).
  assert (exists w0, checkpoint w = (w0, Ok tt)
                     /\ listing_pages (trace w0) = listing_pages (trace w))
    as (w0 & Hcp & Hp0).
  { subst checkpoint. destruct (_ && _).
    - eexists. split; [done|]. simpl.
      by rewrite listing_pages_app, app_nil_r.
    - by exists w. }
  rewrite (mbind_ok _ _ _ _ _ Hcp).
  rewrite (mbind_ok _ _ w0 (emit (GetListing (page st)) w0).1 tt) by done.
  set (w1 := (emit (GetListing (page st)) w0).1).
  assert (listing_pages (trace w1) = listing_pages (trace w) ++ [page st])
    as Hp1.
  { subst w1. simpl. by rewrite listing_pages_app, Hp0. }
  cbv zeta. rewrite (page_ok_urls _ _ Hok).
  rewrite (mbind_ok (lift (Ok (page_urls (page st)))) _ w1 w1 _) by done.
  destruct (mapM_get_response_ok
              (filter (fun url => CStr url ∉ done) (page_urls (page st))) w1)
    as (w2 & new & Hm & Hus & Hq); [apply Hok|].
  rewrite (mbind_ok _ _ _ _ _ Hm).
  assert ((if falsy_int (max_page st)
           then lift (read_max_page (listing (page st)))
           else lift (Ok (default 0 (max_page st)))) w2 = (w2, Ok M')) as HM'.
  { destruct (falsy_int (max_page st)); unfold lift; by rewrite HM. }
  rewrite (mbind_ok _ _ _ _ _ HM').
  unfold after_page. destruct (M' <? page st + 1).
  - exists w2, new. split; [done|]. split; [done|].
    by rewrite (quiet_step_pages _ _ Hq).
  - rewrite (mbind_ok _ _ w2 (emit Sleep w2).1 tt) by done.
    eexists _, new. split; [done|]. split; [done|]. simpl.
    by rewrite listing_pages_app, app_nil_r, (quiet_step_pages _ _ Hq).
Qed.

(** The iterations for the pages [k .. M] once the bound [M] is known. *)
Lemma crawl_loop_rest done (d : nat) : forall k (M : Z) rs w (fuel : nat),
  M ≠ 0 -> M = k + Z.of_nat d ->
  Forall (page_ok done) (zrange k (S d)) ->
  (S d <= fuel)%nat ->
  exists w' rs',
    crawl_loop listing response_page cfg fuel done
      {| page := k; max_page := Some M; responses := rs |} w = (w', Ok rs')
    /\ listing_pages (trace w') = listing_pages (trace w) ++ zrange k (S d)
    /\ url_of <$> rs'
       = (url_of <$> rs) ++ (CStr <$> (p ← zrange k (S d); new_urls done p)).
Proof.
  induction d as [|d IH]; intros k M rs w fuel HM0 HM Hok Hfuel;
    (destruct fuel as [|fuel]; [lia|]);
    apply Forall_cons in Hok as [Hk Hok]; cbn [crawl_loop];
    (destruct (crawl_body_ok done
                 {| page := k; max_page := Some M; responses := rs |} w M Hk)
       as (w1 & new & Hbody & Hus & Hp1);
     [simpl; by destruct (Z.eqb_spec M 0)|]);
    rewrite (mbind_ok _ _ _ _ _ Hbody); unfold after_page; cbn [page responses].
  - destruct (Z.ltb_spec M (k + 1)); [|lia].
    exists w1, (rs ++ new). split; [done|]. split; [done|].
    rewrite fmap_app, Hus. simpl. by rewrite app_nil_r.
  - destruct (Z.ltb_spec M (k + 1)); [lia|].
    destruct (IH (k + 1) M (rs ++ new) w1 fuel HM0 ltac:(lia) Hok
                 ltac:(lia)) as (w' & rs' & Hloop & Hp & Hurls).
    exists w', rs'. split; [done|]. split.
    + rewrite Hp, Hp1, <- app_assoc. done.
    + rewrite Hurls, fmap_app, Hus, <- app_assoc.
      change (zrange k (S (S d))) with (k :: zrange (k + 1) (S d)).
      by rewrite bind_cons, fmap_app.
Qed.

(** The whole loop: the bound is read from the first page, and the
    pages up to it are fetched. *)
Lemma crawl_loop_run done rs w (M : Z) (fuel : nat) :
  read_max_page (listing 1) = Ok M ->
  Forall (page_ok done) (zrange 1 (Z.to_nat (Z.max 1 M))) ->
  (Z.to_nat (Z.max 1 M) <= fuel)%nat ->
  exists w' rs',
    crawl_loop listing response_page cfg fuel done
      {| page := 1; max_page := None; responses := rs |} w = (w', Ok rs')
    /\ listing_pages (trace w')
       = listing_pages (trace w) ++ zrange 1 (Z.to_nat (Z.max 1 M))
    /\ url_of <$> rs'
       = (url_of <$> rs)
         ++ (CStr <$> (p ← zrange 1 (Z.to_nat (Z.max 1 M)); new_urls done p)).
Proof.
  intros HM Hok Hfuel.
  destruct (Z.to_nat (Z.max 1 M)) as [|d] eqn:Hd; [lia|].
  destruct fuel as [|fuel]; [lia|].
  pose proof Hok as [H1 Hrest]%Forall_cons. cbn [crawl_loop].
  destruct (crawl_body_ok done
              {| page := 1; max_page := None; responses := rs |} w M H1 HM)
    as (w1 & new & Hbody & Hus & Hp1).
  rewrite (mbind_ok _ _ _ _ _ Hbody). unfold after_page. cbn [page responses].
  destruct (Z.ltb_spec M (1 + 1)) as [Hlt|Hge].
  - assert (d = 0%nat) as -> by lia.
    exists w1, (rs ++ new). split; [done|]. split; [done|].
    rewrite fmap_app, Hus. simpl. by rewrite app_nil_r.
  - destruct d as [|d]; [lia|].
    destruct (crawl_loop_rest done d (1 + 1) M (rs ++ new) w1 fuel
                ltac:(lia) ltac:(lia) Hrest ltac:(lia))
      as (w' & rs' & Hloop & Hp & Hurls).
    exists w', rs'. split; [done|]. split.
    + rewrite Hp, Hp1, <- app_assoc. done.
    + rewrite Hurls, fmap_app, Hus, <- app_assoc.
      change (zrange 1 (S (S d))) with (1 :: zrange (1 + 1) (S d)).
      by rewrite bind_cons, fmap_app.
Qed.

(** C8: the loop reads the page bound from the pagination links of the
    first page it fetches, and stops, returning normally, when the next
    page number would exceed that bound: for a bound [M >= 1] it
    returns after requesting exactly the pages 1, ..., [M], in order
    (given fuel for [M] iterations and pages it gets through). *)
Theorem crawl_loop_pages done rs w (M : Z) (fuel : nat) :
  read_max_page (listing 1) = Ok M ->
  1 <= M ->
  Forall (page_ok done) (zrange 1 (Z.to_nat M)) ->
  (Z.to_nat M <= fuel)%nat ->
  exists w' rs',
    crawl_loop listing response_page cfg fuel done
      {| page := 1; max_page := None; responses := rs |} w = (w', Ok rs')
    /\ listing_pages (trace w')
       = listing_pages (trace w) ++ zrange 1 (Z.to_nat M).
Proof.
  intros HM H1 Hok Hfuel.
  pose proof (crawl_loop_run done rs w M fuel HM) as Hrun.
  replace (Z.max 1 M) with M in Hrun by lia.
  destruct (Hrun Hok Hfuel) as (w' & rs' & Hloop & Hp & _).
  by exists w', rs'.
Qed.

(** *** Frames made from, and read back into, lists of responses *)

Definition has_url (r : Response) : Prop := is_Some (assoc "url" r).

(** The identifiers a frame holds. *)
Definition urls_of (df : DataFrame) : list Cell :=
  default [] (get_column df "url").

(** The identifiers of the prior state, as the run loads them. *)
Definition prior_urls w : list Cell :=
  match file w with
  | Some stored => urls_of (read_back stored)
  | None => []
  end.

Lemma elem_of_add_keys (keys acc : list string) (c : string) :
  c ∈ fold_left (fun acc key =>
                   if decide (key ∈ acc) then acc else acc ++ [key])
                keys acc
  <-> c ∈ acc \/ c ∈ keys.
Proof.
  revert acc. induction keys as [|key keys IH]; intros acc; simpl.
  - split; [by left | by intros [?|?%elem_of_nil]].
  - rewrite IH, elem_of_cons. destruct (decide (key ∈ acc)) as [Hin|Hnin].
    + split; [intros [?|?]; auto | intros [?|[->|?]]; auto].
    + rewrite elem_of_app, list_elem_of_singleton. tauto.
Qed.

Lemma elem_of_first_keys rs (c : string) :
  c ∈ first_keys rs <-> exists r, r ∈ rs /\ c ∈ r.*1.
Proof.
  unfold first_keys. rewrite elem_of_add_keys, list_elem_of_bind.
  split.
  - intros [?%elem_of_nil|(r & ? & ?)]; [done | by exists r].
  - intros (r & ? & ?). right. by exists r.
Qed.

Lemma assoc_fmap_key {V} (f : string -> V) (keys : list string) (c : string) :
  assoc c ((fun key => (key, f key)) <$> keys)
  = if decide (c ∈ keys) then Some (f c) else None.
Proof.
  induction keys as [|key keys IH].
  - rewrite decide_False; [done | by intros ?%elem_of_nil].
  - rewrite fmap_cons. cbn [assoc].
    destruct (decide (key = c)) as [->|Hne].
    + rewrite decide_True; [done | by left].
    + rewrite IH. destruct (decide (c ∈ keys)) as [Hin|Hnin].
      * rewrite decide_True; [done | by right].
      * rewrite decide_False; [done|].
        intros [?|?]%elem_of_cons; congruence.
Qed.

Lemma assoc_fmap_val {V W} (g : V -> W) (l : list (string * V)) (c : string) :
  assoc c ((fun kc => (kc.1, g kc.2)) <$> l) = g <$> assoc c l.
Proof.
  induction l as [|[key x] l IH]; [done|].
  rewrite fmap_cons. cbn [assoc fst snd].
  destruct (decide (key = c)); [done | apply IH].
Qed.

Lemma get_column_DataFrame_of rs (c : string) :
  get_column (DataFrame_of rs) c
  = if decide (c ∈ first_keys rs)
    then Some ((fun r => default CNaN (assoc c r)) <$> rs)
    else None.
Proof.
  unfold get_column, DataFrame_of. simpl.
  apply (assoc_fmap_key
           (fun c => (fun r => default CNaN (assoc c r)) <$> rs)).
Qed.

Lemma well_formed_DataFrame_of rs : well_formed (DataFrame_of rs).
Proof.
  unfold well_formed, DataFrame_of, nrows. simpl.
  apply Forall_fmap, Forall_forall. intros c _. simpl.
  by rewrite !length_fmap, length_seq.
Qed.

Lemma urls_of_DataFrame_of rs :
  Forall has_url rs -> urls_of (DataFrame_of rs) = url_of <$> rs.
Proof.
  intros Hrs. unfold urls_of. rewrite get_column_DataFrame_of.
  destruct (decide ("url" ∈ first_keys rs)) as [Hin|Hnin]; [done|].
  destruct rs as [|r rs]; [done|]. exfalso. apply Hnin.
  apply elem_of_first_keys. exists r. split; [by left|].
  apply Forall_cons in Hrs as [Hr _]. by apply assoc_is_Some.
Qed.

Lemma fmap_lookup_seq {A} (d : A) (l : list A) :
  (fun i => default d (l !! i)) <$> seq 0 (length l) = l.
Proof.
  apply list_eq. intros i. rewrite list_lookup_fmap.
  destruct (l !! i) as [x|] eqn:Hi.
  - rewrite (lookup_seq_lt 0 (length l) i) by (by eapply lookup_lt_Some).
    simpl. by rewrite Hi.
  - rewrite (lookup_seq_ge 0 (length l) i) by (by apply lookup_ge_None).
    done.
Qed.

(** The rows read back from a frame carry its identifiers. *)
Lemma rows_of_urls (df : DataFrame) (col : list Cell) :
  well_formed df -> get_column df "url" = Some col ->
  url_of <$> rows_of df = col /\ Forall has_url (rows_of df).
Proof.
  intros Hwf Hcol. pose proof (well_formed_column _ _ _ Hwf Hcol) as Hlen.
  unfold rows_of, get_column in *. split.
  - rewrite <- list_fmap_compose, <- Hlen.
    rewrite <- (fmap_lookup_seq CNaN col) at 2.
    apply list_fmap_ext. intros _ i _. unfold url_of. simpl.
    rewrite (assoc_fmap_val (fun c : list Cell => default CNaN (c !! i))).
    by rewrite Hcol.
  - apply Forall_fmap, Forall_forall. intros i _. unfold has_url. simpl.
    rewrite (assoc_fmap_val (fun c : list Cell => default CNaN (c !! i))).
    by rewrite Hcol.
Qed.

(** *** What a run that returns has done *)

Lemma get_response_inv url w w' r :
  get_response response_page cfg url w = (w', Ok r) ->
  url_of r = CStr url.
Proof.
  unfold get_response. intros (w0 & [] & _ & H)%mbind_inv.
  apply mbind_inv in H as (w1 & d & _ & H). cbv zeta in H.
  destruct (download_attachments cfg).
  - apply mbind_inv in H as (w2 & att & _ & [= _ <-]).
    unfold url_of. by rewrite !assoc_dict_set.
  - injection H as _ <-. unfold url_of. by rewrite !assoc_dict_set.
Qed.

Lemma mapM_get_response_inv urls w w' new :
  mapM (get_response response_page cfg) urls w = (w', Ok new) ->
  url_of <$> new = CStr <$> urls.
Proof.
  revert w w' new. induction urls as [|url urls IH]; intros w w' new;
    cbn [mapM].
  - by intros [= _ <-].
  - intros (w1 & r & Hr & H)%mbind_inv.
    apply mbind_inv in H as (w2 & rest & Hrest & [= _ <-]).
    rewrite !fmap_cons. f_equal; [by eapply get_response_inv | by eapply IH].
Qed.

Lemma crawl_body_inv done (st : LoopState) w w' r :
  crawl_body listing response_page cfg done st w = (w', Ok r) ->
  exists M' new,
    (if falsy_int (max_page st) then read_max_page (listing (page st))
     else Ok (default 0 (max_page st))) = Ok M'
    /\ r = after_page st M' new
    /\ url_of <$> new = CStr <$> new_urls done (page st).
Proof.
  unfold crawl_body. intros (w0 & [] & _ & H)%mbind_inv.
  apply mbind_inv in H as (w1 & [] & _ & H). cbv zeta in H.
  apply mbind_inv in H as (w2 & urls & Hurls & H).
  apply mbind_inv in H as (w3 & new & Hnew & H).
  apply mbind_inv in H as (w4 & M' & HM & H).
  exists M', new. split; [|split].
  - destruct (falsy_int (max_page st)); unfold lift in HM; congruence.
  - unfold after_page. destruct (M' <? page st + 1).
    + by injection H as _ <-.
    + apply mbind_inv in H as (w5 & [] & _ & [= _ <-]). done.
  - apply mapM_get_response_inv in Hnew. rewrite Hnew.
    unfold new_urls, page_urls. unfold lift in Hurls.
    injection Hurls as _ ->. done.
Qed.

Lemma zrange_cons (k M : Z) :
  k <= M ->
  zrange k (Z.to_nat (M - k + 1)) = k :: zrange (k + 1) (Z.to_nat (M - k)).
Proof.
  intros Hle. replace (M - k + 1) with (Z.succ (M - k)) by lia.
  rewrite Z2Nat.inj_succ by lia. done.
Qed.

Lemma crawl_loop_rest_inv done (fuel : nat) : forall k (M : Z) rs w w' rs',
  M ≠ 0 -> k <= M ->
  crawl_loop listing response_page cfg fuel done
    {| page := k; max_page := Some M; responses := rs |} w = (w', Ok rs') ->
  exists new,
    rs' = rs ++ new
    /\ url_of <$> new
       = CStr <$> (p ← zrange k (Z.to_nat (M - k + 1)); new_urls done p).
Proof.
  induction fuel as [|fuel IH]; intros k M rs w w' rs' HM0 Hle; simpl;
    [done|].
  intros (w1 & r & Hbody & H)%mbind_inv.
  apply crawl_body_inv in Hbody as (M' & new & HM' & -> & Hus).
  simpl in HM'. destruct (Z.eqb_spec M 0); [done|]. injection HM' as <-.
  unfold after_page in H. cbn [page responses] in H.
  rewrite zrange_cons, bind_cons, fmap_app by done.
  destruct (Z.ltb_spec M (k + 1)).
  - injection H as _ <-. exists new. split; [done|].
    replace (M - k) with 0 by lia. simpl. by rewrite app_nil_r.
  - apply IH in H as (new' & -> & Hus'); [|done|lia].
    exists (new ++ new'). split; [by rewrite app_assoc|].
    rewrite fmap_app, Hus, Hus'.
    by replace (M - (k + 1) + 1) with (M - k) by lia.
Qed.

Lemma crawl_loop_inv (fuel : nat) done rs w w' rs' :
  crawl_loop listing response_page cfg fuel done
    {| page := 1; max_page := None; responses := rs |} w = (w', Ok rs') ->
  exists (M : Z) new,
    read_max_page (listing 1) = Ok M
    /\ rs' = rs ++ new
    /\ url_of <$> new
       = CStr <$> (p ← zrange 1 (Z.to_nat (Z.max 1 M)); new_urls done p).
Proof.
  destruct fuel as [|fuel]; [done|]. simpl.
  intros (w1 & r & Hbody & H)%mbind_inv.
  apply crawl_body_inv in Hbody as (M & new & HM & -> & Hus).
  simpl in HM. exists M. unfold after_page in H. cbn [page responses] in H.
  destruct (Z.ltb_spec M (1 + 1)).
  - injection H as _ <-. exists new. split; [done|]. split; [done|].
    replace (Z.max 1 M) with 1 by lia. simpl. by rewrite app_nil_r.
  - apply crawl_loop_rest_inv in H as (new' & -> & Hus'); [|lia..].
    exists (new ++ new'). split; [done|]. split; [by rewrite app_assoc|].
    replace (Z.max 1 M) with M by lia.
    replace (Z.to_nat M) with (Z.to_nat (M - 1 + 1)) by lia.
    rewrite zrange_cons, bind_cons, !fmap_app, Hus, Hus' by lia.
    by replace (M - (1 + 1) + 1) with (M - 1) by lia.
Qed.

Abbreviation run fuel :=
  (download_responses listing response_page read_back py_int textract_process
     cfg fuel).

Lemma url_of_has_url (r : Response) (u : string) :
  url_of r = CStr u -> has_url r.
Proof. unfold url_of, has_url. by destruct (assoc "url" r). Qed.

Lemma fmap_CStr_has_url (new : list Response) (us : list string) :
  url_of <$> new = CStr <$> us -> Forall has_url new.
Proof.
  revert us. induction new as [|r new IH]; intros [|u us]; try done.
  rewrite !fmap_cons. intros [= Hr Hnew]. apply Forall_cons. split.
  - by eapply url_of_has_url.
  - by eapply IH.
Qed.

Lemma filter_bind {A B} (P : B -> Prop) `{!forall x, Decision (P x)}
    (f : A -> list B) (l : list A) :
  filter P (x ← l; f x) = x ← l; filter P (f x).
Proof.
  induction l as [|x l IH]; [done|].
  by rewrite !bind_cons, filter_app, IH.
Qed.

(** The prior state a run starts from. *)
Lemma load_prior_inv w w' done rs0 :
  (forall stored, file w = Some stored -> well_formed (read_back stored)) ->
  load_prior read_back w = (w', Ok (done, rs0)) ->
  w' = w /\ done = prior_urls w /\ url_of <$> rs0 = done
  /\ Forall has_url rs0.
Proof.
  intros Hwf. unfold load_prior, prior_urls.
  destruct (file w) as [stored|] eqn:Hfile.
  - specialize (Hwf stored eq_refl). unfold attr, urls_of.
    destruct (get_column (read_back stored) "url") as [col|] eqn:Hcol;
      [|done].
    intros [= <- <- <-].
    destruct (rows_of_urls _ _ Hwf Hcol) as [Hus Hall]. done.
  - by intros [= <- <- <-].
Qed.

(** The stages of a run that returns. *)
Lemma download_responses_inv (fuel : nat) w w1 df1 :
  run fuel w = (w1, Ok df1) ->
  exists done rs0 w0 w' rs df_a,
    load_prior read_back w = (w0, Ok (done, rs0))
    /\ crawl_loop listing response_page cfg fuel done
         {| page := 1; max_page := None; responses := rs0 |} w0 = (w', Ok rs)
    /\ (if extract_text_attachment cfg || components cfg
        then extract_text py_int textract_process (DataFrame_of rs)
        else Ok (DataFrame_of rs)) = Ok df_a
    /\ (if components cfg
        then add_components py_int textract_process df_a (n cfg)
               (threshold cfg)
        else Ok df_a) = Ok df1
    /\ file w1 = Some df1.
Proof.
  unfold download_responses.
  intros (w0 & [done rs0] & Hload & H)%mbind_inv.
  apply mbind_inv in H as (w' & rs & Hloop & H). cbv zeta in H.
  apply mbind_inv in H as (wa & df_a & Ha & H).
  apply mbind_inv in H as (wb & df_b & Hb & H).
  apply mbind_inv in H as (wc & [] & Hsave & [= <- <-]).
  exists done, rs0, w0, w', rs, df_a. split; [done|]. split; [done|].
  split; [|split].
  - destruct (_ || _); unfold lift, mret, M_ret, ret in Ha; congruence.
  - destruct (components cfg); unfold lift, mret, M_ret, ret in Hb; congruence.
  - unfold to_excel in Hsave. by injection Hsave as <-.
Qed.

(** The identifiers a run stores: those of the prior state, then those
    the listing pages name that the prior state lacks, page by page. *)
Lemma download_responses_urls (fuel : nat) w w1 df1 :
  (forall stored, file w = Some stored -> well_formed (read_back stored)) ->
  run fuel w = (w1, Ok df1) ->
  exists M : Z,
    read_max_page (listing 1) = Ok M
    /\ file w1 = Some df1
    /\ urls_of df1
       = prior_urls w
         ++ (CStr <$> filter (fun url => CStr url ∉ prior_urls w)
                             (p ← zrange 1 (Z.to_nat (Z.max 1 M));
                              page_urls p)).
Proof.
  intros Hwf Hrun.
  apply download_responses_inv in Hrun
    as (done & rs0 & w0 & w' & rs & df_a & Hload & Hloop & Ha & Hb & Hfile).
  apply load_prior_inv in Hload as (-> & -> & Hus0 & Hall0); [|done].
  apply crawl_loop_inv in Hloop as (M & new & HM & -> & Husn).
  exists M. split; [done|]. split; [done|].
  rewrite filter_bind. fold (new_urls (prior_urls w)).
  assert (urls_of (DataFrame_of (rs0 ++ new))
          = prior_urls w
            ++ (CStr <$> (p ← zrange 1 (Z.to_nat (Z.max 1 M));
                          new_urls (prior_urls w) p))) as Hurls.
  { rewrite urls_of_DataFrame_of.
    - by rewrite fmap_app, Hus0, Husn.
    - apply Forall_app. split; [done | by eapply fmap_CStr_has_url]. }
  transitivity (urls_of (DataFrame_of (rs0 ++ new))); [|exact Hurls].
  unfold urls_of.
  assert (well_formed df_a /\ get_column df_a "url"
                              = get_column (DataFrame_of (rs0 ++ new)) "url")
    as [Hwfa Hgeta].
  { destruct (_ || _).
    - apply extract_text_spec in Ha as (_ & Hw & _ & _ & Hget);
        [|apply well_formed_DataFrame_of].
      split; [done|]. by apply Hget.
    - injection Ha as <-. split; [apply well_formed_DataFrame_of | done]. }
  rewrite <- Hgeta. destruct (components cfg).
  - by rewrite (add_components_other_columns _ _ _ _ _ _ "url" Hwfa Hb).
  - by injection Hb as <-.
Qed.

(** *** The events of a run *)

(** An event that is not the fetch of a response whose identifier is in
    [done]. *)
Definition fresh_request done (e : Event) : Prop :=
  forall url, e = GetResponse url -> CStr url ∉ done.

(** A computation that only ever adds events, none of them the fetch of
    a response in [done]. *)
Definition extends done {A} (m : M A) : Prop :=
  forall w, exists tr,
    trace (m w).1 = trace w ++ tr /\ Forall (fresh_request done) tr.

Lemma extends_lift done {A} (o : outcome A) : extends done (lift o).
Proof. intros w. exists []. by rewrite app_nil_r. Qed.

Lemma extends_ret done {A} (a : A) : extends done (mret a : M A).
Proof. intros w. exists []. by rewrite app_nil_r. Qed.

Lemma extends_emit done e : fresh_request done e -> extends done (emit e).
Proof. intros He w. exists [e]. split; [done | by apply Forall_singleton]. Qed.

Lemma extends_to_excel done df : extends done (to_excel df).
Proof.
  intros w. exists [Save df]. split; [done|]. by apply Forall_singleton.
Qed.

(** Binding keeps the events of the first part. *)
Lemma mbind_from done {A B} (m : M A) (f : A -> M B) w (base : list Event) :
  (exists tr, trace (m w).1 = base ++ tr /\ Forall (fresh_request done) tr) ->
  (forall a, extends done (f a)) ->
  exists tr, trace ((m ≫= f) w).1 = base ++ tr
             /\ Forall (fresh_request done) tr.
Proof.
  intros (tr & Hm & Htr) Hf. unfold mbind, M_bind, bind.
  destruct (m w) as [w1 [a| |]]; simpl in *; [|by exists tr..].
  destruct (Hf a w1) as (tr' & Hk & Htr'). exists (tr ++ tr').
  split; [by rewrite Hk, Hm, app_assoc | by apply Forall_app].
Qed.

Lemma extends_mbind done {A B} (m : M A) (f : A -> M B) :
  extends done m -> (forall a, extends done (f a)) -> extends done (m ≫= f).
Proof. intros Hm Hf w. apply mbind_from; [apply Hm | done]. Qed.

Lemma extends_mapM done {A B} (f : A -> M B) (l : list A) :
  (forall x, x ∈ l -> extends done (f x)) -> extends done (mapM f l).
Proof.
  induction l as [|x l IH]; intros Hf; cbn [mapM]; [apply extends_ret|].
  apply extends_mbind; [apply Hf; by left|]. intros y.
  apply extends_mbind; [apply IH; intros; apply Hf; by right|].
  intros ys. apply extends_ret.
Qed.

Lemma extends_get_response done url :
  CStr url ∉ done -> extends done (get_response response_page cfg url).
Proof.
  intros Hnew. unfold get_response, download_files.
  apply extends_mbind; [apply extends_emit; by intros u [= <-]|].
  intros _. cbv zeta.
  apply extends_mbind; [apply extends_lift|]. intros response.
  destruct (download_attachments cfg); [|apply extends_ret].
  apply extends_mbind; [|intros; apply extends_ret].
  apply extends_mbind; [|intros; apply extends_ret].
  apply extends_mapM. intros id _.
  apply extends_mbind; [by apply extends_emit|]. intros _.
  by apply extends_emit.
Qed.

(** The part of an iteration after the request for the listing page. *)
Lemma extends_after_listing done (st : LoopState) :
  extends done
    (result_urls ← lift (get_result_urls (listing (page st)));
     new ← mapM (get_response response_page cfg)
                (filter (fun url => CStr url ∉ done) result_urls);
     max_page ← (if falsy_int (max_page st)
                 then lift (read_max_page (listing (page st)))
                 else lift (Ok (default 0 (max_page st))));
     if max_page <? page st + 1 then mret (inr (responses st ++ new))
     else
       _ ← emit Sleep;
       mret (inl {| page := page st + 1; max_page := Some max_page;
                    responses := responses st ++ new |})).
Proof.
  apply extends_mbind; [apply extends_lift|]. intros urls.
  apply extends_mbind.
  { apply extends_mapM. intros url [Hnew _]%list_elem_of_filter.
    by apply extends_get_response. }
  intros new. apply extends_mbind.
  { destruct (falsy_int _); apply extends_lift. }
  intros M'. destruct (M' <? page st + 1); [apply extends_ret|].
  apply extends_mbind; [by apply extends_emit | intros; apply extends_ret].
Qed.

Lemma extends_crawl_body done (st : LoopState) :
  extends done (crawl_body listing response_page cfg done st).
Proof.
  unfold crawl_body. apply extends_mbind.
  { destruct (_ && _); [apply extends_to_excel | apply extends_ret]. }
  intros _. apply extends_mbind; [by apply extends_emit|]. intros _.
  apply extends_after_listing.
Qed.

Lemma extends_crawl_loop (fuel : nat) done (st : LoopState) :
  extends done (crawl_loop listing response_page cfg fuel done st).
Proof.
  revert st. induction fuel as [|fuel IH]; intros st; cbn [crawl_loop].
  - apply extends_lift.
  - apply extends_mbind; [apply extends_crawl_body|].
    intros [st'|rs]; [apply IH | apply extends_ret].
Qed.

(** What follows the loop: the frame, the clustering, the final save. *)
Lemma extends_finalize done rs :
  extends done
    (df ← (if extract_text_attachment cfg || components cfg
           then lift (extract_text py_int textract_process (DataFrame_of rs))
           else mret (DataFrame_of rs));
     df ← (if components cfg
           then lift (add_components py_int textract_process df (n cfg)
                        (threshold cfg))
           else mret df);
     _ ← to_excel df;
     mret df).
Proof.
  apply extends_mbind.
  { destruct (_ || _); [apply extends_lift | apply extends_ret]. }
  intros df_a. apply extends_mbind.
  { destruct (components cfg); [apply extends_lift | apply extends_ret]. }
  intros df_b. apply extends_mbind; [apply extends_to_excel|].
  intros _. apply extends_ret.
Qed.

(** A run fetches no response that its prior state holds. *)
Lemma download_responses_fetches (fuel : nat) w :
  exists tr,
    trace (run fuel w).1 = trace w ++ tr
    /\ forall url, GetResponse url ∈ tr -> CStr url ∉ prior_urls w.
Proof.
  unfold download_responses, mbind at 1, M_bind, bind at 1.
  destruct (load_prior read_back w) as [w0 [[done rs0]| |]] eqn:Hload;
    simpl; try (exists []; split;
                [unfold load_prior in Hload; destruct (file w);
                 injection Hload as <- _; by rewrite app_nil_r
                |by intros url ?%elem_of_nil]).
  assert (w0 = w /\ done = prior_urls w) as [-> ->].
  { unfold load_prior, prior_urls, urls_of, attr in *.
    destruct (file w) as [stored|]; [|by injection Hload as <- <- _].
    destruct (get_column (read_back stored) "url"); [|done].
    by injection Hload as <- <- _. }
  destruct (extends_mbind (prior_urls w) _ _
              (extends_crawl_loop fuel (prior_urls w)
                 {| page := 1; max_page := None; responses := rs0 |})
              (extends_finalize (prior_urls w)) w) as (tr & Htr & Hfresh).
  exists tr. split; [exact Htr|].
  intros url Hin. eapply Forall_forall in Hfresh; [|exact Hin].
  by apply Hfresh.
Qed.

Lemma filter_none {A} (P : A -> Prop) `{!forall x, Decision (P x)}
    (l : list A) :
  (forall x, x ∈ l -> ~ P x) -> filter P l = [].
Proof.
  induction l as [|x l IH]; intros Hl; [done|].
  rewrite filter_cons, decide_False by (apply Hl; by left).
  apply IH. intros y Hy. apply Hl. by right.
Qed.

(** The settings [cfg] with another [n] and another [threshold]. *)
Definition with_settings (n' : Z) (threshold' : Q) : Config :=
  {| name := name cfg;
     download_attachments := download_attachments cfg;
     extract_text_attachment := extract_text_attachment cfg;
     components := components cfg;
     n := n';
     threshold := threshold' |}.

(** The crawl loop does not look at [n] or [threshold]. *)
Lemma crawl_loop_settings (n' : Z) (threshold' : Q) (fuel : nat) done
    (st : LoopState) w :
  crawl_loop listing response_page (with_settings n' threshold') fuel done st w
  = crawl_loop listing response_page cfg fuel done st w.
Proof. unfold with_settings. destruct cfg. reflexivity. Qed.

(** C6 (amended): the code does not validate [n] or [threshold].  For
    every setting of them, valid or not, a run that can read its prior
    state begins the crawl: its first action is the request for listing
    page 1, and no error precedes that request; the whole crawl is the
    same whatever [n] and [threshold] are. *)
Theorem download_responses_no_validation (fuel : nat) w
    (prior : list Cell * list Response) :
  (1 <= fuel)%nat ->
  load_prior read_back w = (w, Ok prior) ->
  (exists rest, trace (run fuel w).1 = trace w ++ GetListing 1 :: rest)
  /\ forall (n' : Z) (threshold' : Q),
       crawl_loop listing response_page (with_settings n' threshold') fuel
         prior.1 {| page := 1; max_page := None; responses := prior.2 |} w
       = crawl_loop listing response_page cfg fuel
           prior.1 {| page := 1; max_page := None; responses := prior.2 |} w.
Proof.
  intros Hfuel Hload. split; [|intros; apply crawl_loop_settings].
  destruct fuel as [|fuel]; [lia|].
  destruct prior as [done rs0].
  cut (exists tr, trace (run (S fuel) w).1 = (trace w ++ [GetListing 1]) ++ tr
                  /\ Forall (fresh_request done) tr).
  { intros (tr & Htr & _). exists tr. by rewrite <- app_assoc in Htr. }
  unfold download_responses. rewrite (mbind_ok _ _ _ _ _ Hload).
  apply mbind_from; [|apply extends_finalize].
  cbn [crawl_loop]. apply mbind_from.
  - unfold crawl_body. cbn [page responses Crawl.max_page].
    change (1 mod 10 =? 0) with false. cbn [andb].
    rewrite (mbind_ok (ret tt) _ w w tt) by done.
    rewrite (mbind_ok (emit (GetListing 1)) _ w (emit (GetListing 1) w).1 tt)
      by done.
    apply (extends_after_listing done
             {| page := 1; max_page := None; responses := rs0 |}).
  - intros [st'|rs]; [apply extends_crawl_loop | apply extends_ret].
Qed.

End CrawlFacts.

(** ** Runs over the small consultation *)

Section DemoRuns.
Import Frame Crawl Demo.

Abbreviation demo_run listing config :=
  (download_responses listing demo_response_page demo_read_back demo_int
     demo_textract config).

Abbreviation r1 := (CStr "https://www.internetconsultatie.nl/r/1").
Abbreviation r2 := (CStr "https://www.internetconsultatie.nl/r/2").
Abbreviation r3 := (CStr "https://www.internetconsultatie.nl/r/3").

(** C5 (as stated) fails: on the shifting site the response [/r/2] is
    named on both pages of one run, is fetched twice, and is stored
    twice. *)
Lemma shifting_site_stores_duplicate :
  exists w' df,
    demo_run shifting_listing demo_config 5%nat fresh_world = (w', Ok df)
    /\ file w' = Some df
    /\ urls_of df = [r1; r2; r2; r3]
    /\ ~ NoDup (urls_of df).
Proof.
  eexists _, _. split; [vm_compute; reflexivity|]. split; [reflexivity|].
  split; [reflexivity|].
  intros Hnd. change (NoDup [r1; r2; r2; r3]) in Hnd.
  apply NoDup_cons in Hnd as [_ Hnd]. apply NoDup_cons in Hnd as [Hin _].
  apply Hin. by left.
Qed.

(** A run over the steady site and a restart store the same three
    identifiers; the restart requests the two listing pages and fetches
    no response. *)
Example steady_site_restart :
  exists w1 df1 w2 df2,
    demo_run steady_listing demo_config 5%nat fresh_world = (w1, Ok df1)
    /\ demo_run steady_listing demo_config 5%nat w1 = (w2, Ok df2)
    /\ urls_of df1 = [r1; r2; r3]
    /\ urls_of df2 = [r1; r2; r3]
    /\ trace w2 = trace w1 ++ [GetListing 1; Sleep; GetListing 2; Save df2].
Proof.
  eexists _, _, _, _. split; [vm_compute; reflexivity|].
  split; [vm_compute; reflexivity|]. repeat split; reflexivity.
Qed.

(** C6 (as stated) fails: with [n = 0] and threshold 2 the run is not
    rejected; it requests the listing pages and the responses, clusters
    and saves. *)
Lemma invalid_settings_not_rejected :
  n invalid_config < 1
  /\ ~ (threshold invalid_config <= 1)%Q
  /\ exists w' df,
      demo_run steady_listing invalid_config 5%nat fresh_world = (w', Ok df)
      /\ GetListing 1 ∈ trace w'
      /\ file w' = Some df.
Proof.
  split; [vm_compute; reflexivity|]. split; [by vm_compute|].
  eexists _, _. split; [vm_compute; reflexivity|]. split; [by left | done].
Qed.

(** [download_responses_no_validation] with [n = 0] and threshold 2. *)
Lemma download_responses_no_validation_witness :
  (1 <= 5)%nat
  /\ load_prior demo_read_back fresh_world = (fresh_world, Ok ([], []))
  /\ (exists rest,
        trace (demo_run steady_listing invalid_config 5%nat fresh_world).1
        = trace fresh_world ++ GetListing 1 :: rest)
  /\ forall (n' : Z) (threshold' : Q),
       crawl_loop steady_listing demo_response_page
         (with_settings invalid_config n' threshold') 5%nat []
         {| page := 1; max_page := None; responses := [] |} fresh_world
       = crawl_loop steady_listing demo_response_page invalid_config 5%nat []
           {| page := 1; max_page := None; responses := [] |} fresh_world.
Proof.
  assert (1 <= 5)%nat as Hfuel by lia.
  assert (load_prior demo_read_back fresh_world = (fresh_world, Ok ([], [])))
    as Hload by reflexivity.
  split; [exact Hfuel|]. split; [exact Hload|].
  exact (download_responses_no_validation steady_listing demo_response_page
           demo_read_back demo_int demo_textract invalid_config 5%nat
           fresh_world ([], []) Hfuel Hload).
Defined.

(** [crawl_loop_pages] on the steady site, whose first page gives the
    bound 2. *)
Lemma crawl_loop_pages_witness :
  read_max_page (steady_listing 1) = Ok 2
  /\ 1 <= 2
  /\ Forall (page_ok steady_listing demo_response_page [])
            (zrange 1 (Z.to_nat 2))
  /\ (Z.to_nat 2 <= 5)%nat
  /\ exists w' rs',
      crawl_loop steady_listing demo_response_page demo_config 5%nat []
        {| page := 1; max_page := None; responses := [] |} fresh_world
      = (w', Ok rs')
      /\ listing_pages (trace w')
         = listing_pages (trace fresh_world) ++ zrange 1 (Z.to_nat 2).
Proof.
  assert (read_max_page (steady_listing 1) = Ok 2) as HM by reflexivity.
  assert (1 <= 2) as H1 by lia.
  assert (Forall (page_ok steady_listing demo_response_page [])
                 (zrange 1 (Z.to_nat 2))) as Hok.
  { repeat constructor; simpl; eauto. }
  assert (Z.to_nat 2 <= 5)%nat as Hfuel by (simpl; lia).
  split; [exact HM|]. split; [exact H1|]. split; [exact Hok|].
  split; [exact Hfuel|].
  exact (crawl_loop_pages steady_listing demo_response_page demo_config []
           [] fresh_world 2 5%nat HM H1 Hok Hfuel).
Defined.

End DemoRuns.

(** * Further properties of the code *)

(** ** The shape and number of the shingles *)

Section ShingleFacts.
Import Text.

Lemma no_space_token (cur : list ascii) :
  cur ≠ [] -> Forall (fun c => is_space c = false) cur ->
  string_of_list_ascii (rev cur) ≠ ""
  /\ space_free (string_of_list_ascii (rev cur)).
Proof.
  intros Hne Hall. split.
  - intros Heq. apply (f_equal list_ascii_of_string) in Heq.
    rewrite list_ascii_of_string_of_list_ascii in Heq. simpl in Heq.
    apply (f_equal (@length ascii)) in Heq.
    rewrite length_rev in Heq. by destruct cur.
  - unfold space_free. rewrite list_ascii_of_string_of_list_ascii.
    by apply Forall_rev.
Qed.

Lemma split_from_tokens (s : string) : forall cur : list ascii,
  Forall (fun c => is_space c = false) cur ->
  Forall (fun t => t ≠ "" /\ space_free t) (split_from cur s).
Proof.
  induction s as [|c s IH]; intros cur Hcur; simpl.
  - destruct cur as [|a cur]; [by constructor|].
    apply Forall_singleton. by apply no_space_token.
  - destruct (is_space c) eqn:Hc.
    + destruct cur as [|a cur]; [by apply IH|].
      apply Forall_cons. split; [by apply no_space_token | by apply IH].
    + apply IH. by apply Forall_cons.
Qed.

(** Every token of [split] is non-empty and free of whitespace. *)
Lemma split_tokens (s : string) :
  Forall (fun t => t ≠ "" /\ space_free t) (split s).
Proof. apply split_from_tokens. constructor. Qed.

(** The set that [get_ngrams] returns, when it returns one. *)
Lemma get_ngrams_Some (text text_attachment : Cell) (n : Z) (G : gset ngram) :
  1 <= n ->
  get_ngrams text text_attachment n = Ok (Some G) ->
  exists s, select_txt text text_attachment = CStr s /\ s ≠ ""
            /\ G = list_to_set (windows (Z.to_nat n) (split s)).
Proof.
  intros Hn. unfold get_ngrams.
  destruct (select_txt text text_attachment) as [| |s|z]; try done.
  destruct (decide (s = "")) as [->|Hs]; [done|].
  rewrite get_ngrams_str by done. intros [= <-]. by exists s.
Qed.

(** X1: every shingle that [get_ngrams] returns for [n >= 1] is a tuple
    of exactly [n] tokens, each of them non-empty and free of
    whitespace. *)
Theorem get_ngrams_shape (text text_attachment : Cell) (n : Z)
    (G : gset ngram) (g : ngram) :
  1 <= n ->
  get_ngrams text text_attachment n = Ok (Some G) ->
  g ∈ G ->
  length g = Z.to_nat n
  /\ Forall (fun t => t ≠ "" /\ space_free t) g.
Proof.
  intros Hn HG Hg.
  destruct (get_ngrams_Some _ _ _ _ Hn HG) as (s & _ & _ & ->).
  apply elem_of_list_to_set, elem_of_windows in Hg as (i & Hi & ->); [|lia].
  split.
  - rewrite length_take, length_drop. lia.
  - apply Forall_take, Forall_drop, split_tokens.
Qed.

(** [get_ngrams_shape] on the bigrams of [a b c]. *)
Lemma get_ngrams_shape_witness :
  length ["a"; "b"] = Z.to_nat 2
  /\ Forall (fun t => t ≠ "" /\ space_free t) ["a"; "b"].
Proof.
  apply (get_ngrams_shape (CStr "a b c") CNone 2 {[ ["a"; "b"]; ["b"; "c"] ]});
    [lia | vm_compute; reflexivity | set_solver].
Defined.

Lemma length_windows {A} (n : nat) (l : list A) :
  (1 <= n)%nat -> length (windows n l) = (length l + 1 - n)%nat.
Proof.
  intros Hn. induction l as [|x l IH]; [simpl; lia|].
  cbn [windows]. destruct (Nat.leb_spec n (length (x :: l))) as [Hle|Hgt].
  - simpl in *. rewrite IH. lia.
  - simpl in *. lia.
Qed.

Lemma size_list_to_set_le (l : list ngram) :
  (size (list_to_set l : gset ngram) <= length l)%nat.
Proof.
  induction l as [|x l IH].
  - rewrite list_to_set_nil, size_empty. simpl. lia.
  - rewrite list_to_set_cons, size_union_alt, size_singleton. simpl.
    assert (size (list_to_set l ∖ {[x]} : gset ngram)
            <= size (list_to_set l : gset ngram))%nat
      by (apply subseteq_size; set_solver).
    lia.
Qed.

(** X2: for [n >= 1] the set that [get_ngrams] returns for a text has
    at most (number of tokens) - [n] + 1 shingles, and it is empty
    exactly when the text has fewer than [n] tokens. *)
Theorem get_ngrams_count (text text_attachment : Cell) (n : Z)
    (G : gset ngram) :
  1 <= n ->
  get_ngrams text text_attachment n = Ok (Some G) ->
  exists s,
    select_txt text text_attachment = CStr s
    /\ (size G <= length (split s) + 1 - Z.to_nat n)%nat
    /\ (G = ∅ <-> (length (split s) < Z.to_nat n)%nat).
Proof.
  intros Hn HG.
  destruct (get_ngrams_Some _ _ _ _ Hn HG) as (s & Hs & _ & ->).
  exists s. split; [done|]. split.
  - etrans; [apply size_list_to_set_le|]. rewrite length_windows; lia.
  - split; [|by intros ->%windows_short].
    intros Hempty.
    destruct (decide (length (split s) < Z.to_nat n)%nat) as [|Hge]; [done|].
    exfalso.
    assert (take (Z.to_nat n) (drop 0 (split s))
              ∈ windows (Z.to_nat n) (split s)) as Hin.
    { apply elem_of_windows; [lia|]. exists 0%nat. split; [lia | done]. }
    apply (elem_of_list_to_set (C:=gset ngram)) in Hin.
    rewrite Hempty in Hin. by apply elem_of_empty in Hin.
Qed.

(** [get_ngrams_count] on the bigrams of [a b c]. *)
Lemma get_ngrams_count_witness :
  exists s,
    select_txt (CStr "a b c") CNone = CStr s
    /\ (size ({[ ["a"; "b"]; ["b"; "c"] ]} : gset ngram)
        <= length (split s) + 1 - Z.to_nat 2)%nat
    /\ (({[ ["a"; "b"]; ["b"; "c"] ]} : gset ngram) = ∅
        <-> (length (split s) < Z.to_nat 2)%nat).
Proof.
  apply (get_ngrams_count (CStr "a b c") CNone 2);
    [lia | vm_compute; reflexivity].
Defined.

End ShingleFacts.

(** ** Symmetry and the extreme values of the similarity *)

Section SimilarityBounds.
Import Text Similarity.

Lemma spec_jaccard_Some (a b : option (gset ngram)) (q : Q) :
  spec_jaccard a b = Some q ->
  exists A B : gset ngram,
    a = Some A /\ b = Some B /\ A ≠ ∅ /\ B ≠ ∅
    /\ (1 <= size (A ∪ B))%nat
    /\ q = (Z.of_nat (size (A ∩ B)) # Pos.of_nat (size (A ∪ B))).
Proof.
  unfold spec_jaccard. destruct a as [A|], b as [B|]; try done.
  destruct (decide _) as [|Hne]; [done|]. intros [= <-].
  exists A, B. repeat (split; [tauto|]).
  split; [apply union_size_pos; tauto | done].
Qed.

Lemma spec_jaccard_sym (a b : option (gset ngram)) :
  spec_jaccard a b = spec_jaccard b a.
Proof.
  unfold spec_jaccard. destruct a as [A|], b as [B|]; try done.
  destruct (decide (A = ∅ \/ B = ∅)), (decide (B = ∅ \/ A = ∅)); try tauto.
  by rewrite (comm_L (∩) A B), (comm_L (∪) A B).
Qed.

Lemma spec_jaccard_one (a b : option (gset ngram)) (q : Q) :
  spec_jaccard a b = Some q -> (q == 1)%Q <-> a = b.
Proof.
  intros (A & B & -> & -> & HA & HB & Hpos & ->)%spec_jaccard_Some.
  unfold Qeq. simpl. rewrite pos_of_nat_Z by done.
  split.
  - intros Heq. f_equal.
    assert (size (A ∩ B) = size (A ∪ B)) as Hsz by lia.
    assert (A ∩ B ⊆ A ∪ B) as Hsub by set_solver.
    pose proof (set_subseteq_size_eq _ _ Hsub ltac:(lia)) as Hset.
    apply leibniz_equiv. set_solver.
  - intros [= ->]. rewrite (idemp_L (∩) B), (idemp_L (∪) B). lia.
Qed.

Lemma spec_jaccard_zero (A B : gset ngram) (q : Q) :
  spec_jaccard (Some A) (Some B) = Some q -> (q == 0)%Q <-> A ## B.
Proof.
  intros (A' & B' & [= <-] & [= <-] & HA & HB & Hpos & ->)%spec_jaccard_Some.
  unfold Qeq. simpl. rewrite Z.mul_1_r. split.
  - intros Hz. assert (size (A ∩ B) = 0%nat) as Hsz by lia.
    apply size_empty_inv in Hsz. set_solver.
  - intros Hdisj. assert (A ∩ B = ∅) as -> by set_solver.
    by rewrite size_empty.
Qed.

(** X3: the score does not depend on the order of its arguments:
    [jaccard_similarity a b] and [jaccard_similarity b a] are the same
    result. *)
Theorem jaccard_similarity_sym (a b : option (gset ngram)) :
  jaccard_similarity a b = jaccard_similarity b a.
Proof. by rewrite !jaccard_similarity_spec, spec_jaccard_sym. Qed.

(** X4: when [jaccard_similarity] returns a number for two sets, the
    number is 1 exactly when the sets are equal and 0 exactly when they
    have no shingle in common. *)
Theorem jaccard_similarity_extremes (A B : gset ngram) (q : Q) :
  jaccard_similarity (Some A) (Some B) = Ok (Some q) ->
  ((q == 1)%Q <-> A = B) /\ ((q == 0)%Q <-> A ## B).
Proof.
  rewrite jaccard_similarity_spec. intros Hq.
  assert (spec_jaccard (Some A) (Some B) = Some q) as Hq' by congruence.
  split.
  - rewrite (spec_jaccard_one _ _ _ Hq').
    split; [by intros [= ->] | by intros ->].
  - by apply spec_jaccard_zero.
Qed.

(** [jaccard_similarity_extremes] on two sets that share one of three
    shingles. *)
Lemma jaccard_similarity_extremes_witness :
  (((1 # 3) == 1)%Q <-> ({[ ["a"]; ["b"] ]} : gset ngram) = {[ ["a"]; ["c"] ]})
  /\ (((1 # 3) == 0)%Q <-> ({[ ["a"]; ["b"] ]} : gset ngram) ## {[ ["a"]; ["c"] ]}).
Proof.
  apply (jaccard_similarity_extremes {[ ["a"]; ["b"] ]} {[ ["a"]; ["c"] ]}).
  vm_compute. reflexivity.
Defined.

End SimilarityBounds.

(** ** Which pairs the edge loop can link *)

Section EdgeBounds.
Import Text Similarity.

Implicit Types (n_grams : list (option (gset ngram))) (threshold : Q).

Lemma passes_above_one threshold a b :
  (1 < threshold)%Q -> passes threshold a b = false.
Proof.
  intros Ht. apply not_true_iff_false. rewrite passes_spec.
  intros (q & Hq & _ & Hle). rewrite jaccard_similarity_spec in Hq.
  injection Hq as Hq. apply spec_jaccard_range in Hq as [_ Hq].
  apply (Qlt_irrefl 1). eapply Qlt_le_trans; [exact Ht|].
  by eapply Qle_trans.
Qed.

Lemma all_edges_above_one n_grams threshold :
  (1 < threshold)%Q -> all_edges n_grams threshold = [].
Proof.
  intros Ht. destruct (all_edges n_grams threshold) as [|[i j] E] eqn:HE;
    [done|exfalso].
  assert ((i, j) ∈ all_edges n_grams threshold) as Hin
    by (rewrite HE; by left).
  apply elem_of_all_edges in Hin as (_ & a & b & _ & _ & Hp).
  by rewrite passes_above_one in Hp.
Qed.

Lemma passes_same threshold (A : gset ngram) :
  A ≠ ∅ -> passes threshold (Some A) (Some A) = true <-> (threshold <= 1)%Q.
Proof.
  intros HA. rewrite passes_spec, jaccard_similarity_spec.
  destruct (spec_jaccard (Some A) (Some A)) as [q|] eqn:Hq.
  - pose proof (proj2 (spec_jaccard_one _ _ _ Hq) eq_refl) as Hone. split.
    + intros (q' & [= <-] & _ & Hle). by rewrite <- Hone.
    + intros Hle. exists q. split; [done|]. rewrite Hone. by split.
  - exfalso. unfold spec_jaccard in Hq.
    destruct (decide (A = ∅ \/ A = ∅)); [tauto | done].
Qed.

Lemma passes_shared threshold a b :
  passes threshold a b = true ->
  exists (A B : gset ngram) (g : ngram),
    a = Some A /\ b = Some B /\ g ∈ A /\ g ∈ B.
Proof.
  rewrite passes_spec, jaccard_similarity_spec.
  intros (q & [= Hq] & Hz & _).
  destruct a as [A|], b as [B|]; try done.
  assert (~ A ## B) as Hnd by (by rewrite <- (spec_jaccard_zero A B q)).
  destruct (set_choose_L (A ∩ B)) as [g Hg].
  { intros Hempty. apply Hnd. set_solver. }
  exists A, B, g. set_solver.
Qed.

(** X5: two rows with the same non-empty set of shingles are linked by
    the edge loop exactly when the threshold is at most 1. *)
Theorem edges_duplicates_linked n_grams threshold (i j : nat)
    (A : gset ngram) :
  (i < j)%nat ->
  n_grams !! i = Some (Some A) -> n_grams !! j = Some (Some A) -> A ≠ ∅ ->
  exists E : list (nat * nat),
    edges n_grams threshold = Ok E
    /\ ((i, j) ∈ E <-> (threshold <= 1)%Q).
Proof.
  intros Hlt Hi Hj HA. exists (all_edges n_grams threshold).
  split; [apply edges_eq|]. rewrite elem_of_all_edges, <- (passes_same _ A HA).
  split.
  - intros (_ & a & b & Ha & Hb & Hp). congruence.
  - intros Hp. split; [done|]. by exists (Some A), (Some A).
Qed.

(** [edges_duplicates_linked] on two copies of one set, at the
    threshold 1. *)
Lemma edges_duplicates_linked_witness :
  exists E : list (nat * nat),
    edges [Some {[ ["a"] ]}; None; Some {[ ["a"] ]}] 1 = Ok E
    /\ ((0, 2)%nat ∈ E <-> (1 <= 1)%Q).
Proof.
  apply (edges_duplicates_linked _ 1 0 2 {[ ["a"] ]});
    [lia | reflexivity | reflexivity | vm_compute; discriminate].
Defined.

(** X6: whatever the threshold (zero and negative values included),
    the edge loop links two rows only if both have a set of shingles
    and the two sets have a shingle in common. *)
Theorem edges_share_a_shingle n_grams threshold :
  exists E : list (nat * nat),
    edges n_grams threshold = Ok E
    /\ forall i j : nat,
         (i, j) ∈ E ->
         exists (A B : gset ngram) (g : ngram),
           n_grams !! i = Some (Some A) /\ n_grams !! j = Some (Some B)
           /\ g ∈ A /\ g ∈ B.
Proof.
  exists (all_edges n_grams threshold). split; [apply edges_eq|].
  intros i j (_ & a & b & Ha & Hb & Hp)%elem_of_all_edges.
  apply passes_shared in Hp as (A & B & g & -> & -> & HA & HB).
  by exists A, B, g.
Qed.

End EdgeBounds.

(** ** The numbers that [add_components] hands out *)

Section ComponentFacts.
Import Text Similarity Frame Cluster.

Variable py_int : string -> option Z.
Variable textract_process : Z -> outcome string.

Implicit Types (df : DataFrame) (c : string).

(** Every component that [connected_components] returns holds the node
    its search started from. *)
Lemma connected_components_roots (G : nx.Graph) (es : list (nat * nat))
    (comps : list (gset nat)) (g : gset nat) :
  graph_of G es ->
  nx.connected_components G = Ok comps -> g ∈ comps ->
  exists v, endpoint es v /\ v ∈ g.
Proof.
  intros HG Hcc Hg.
  destruct (connected_components_fold G es HG (nx.nodes G) [] ∅ []
              ltac:(done) (components_inv_start G es))
    as (seen & comps' & Hfold & [H1 H2 H3 H4]).
  unfold nx.connected_components in Hcc. rewrite Hfold in Hcc.
  simpl in Hcc. injection Hcc as <-.
  destruct (H2 g Hg) as (v & Hv & Hclass). exists v.
  split; [by apply (graph_nodes _ _ HG) | by apply Hclass].
Qed.

(** A row in an edge of the edge loop is connected to another row. *)
Lemma all_edges_partner (n_grams : list (option (gset ngram))) (threshold : Q)
    (v : nat) :
  endpoint (all_edges n_grams threshold) v ->
  exists u, u ≠ v /\ connected (all_edges n_grams threshold) v u.
Proof.
  intros ([a b] & Hin & Hv).
  pose proof (proj1 (elem_of_all_edges _ _ _ _) Hin) as (Hlt & _).
  simpl in Hv. destruct Hv as [->| ->].
  - exists b. split; [lia|]. apply rtc_once. by left.
  - exists a. split; [lia|]. apply rtc_once. by right.
Qed.

Lemma cell_ok_unique (comps : list (gset nat)) (j : nat) (c1 c2 : Cell) :
  (forall i k g1 g2,
     comps !! i = Some g1 -> comps !! k = Some g2 -> i ≠ k -> g1 ## g2) ->
  cell_ok comps j c1 -> cell_ok comps j c2 -> c1 = c2.
Proof.
  intros Hdisj [[-> Hno1]|(k1 & g1 & -> & Hk1 & Hj1)]
               [[-> Hno2]|(k2 & g2 & -> & Hk2 & Hj2)]; [done|..].
  - exfalso. apply (Hno1 g2); [by eapply list_elem_of_lookup_2 | done].
  - exfalso. apply (Hno2 g1); [by eapply list_elem_of_lookup_2 | done].
  - destruct (decide (k1 = k2)) as [->|Hne]; [done|exfalso].
    by apply (Hdisj k1 k2 g1 g2 Hk1 Hk2 Hne j).
Qed.

(** What a run of [add_components] that returns has computed, with the
    facts about the components that the numbering rests on. *)
Lemma add_components_components df (n : Z) (threshold : Q) df' :
  well_formed df ->
  add_components py_int textract_process df n threshold = Ok df' ->
  exists df2 n_grams comps col,
    n_grams_of df2 n = Ok n_grams
    /\ same_but "component" df2 df'
    /\ nrows df2 = nrows df
    /\ column_names df2
       = (column_names df
          ++ (if decide ("component" ∈ column_names df) then []
              else ["component"]))
         ++ (if decide ("text_attachment" ∈ column_names df) then []
             else ["text_attachment"])
    /\ nx.connected_components
         (nx.add_edges_from nx.empty (all_edges n_grams threshold)) = Ok comps
    /\ df' = assign_components df2 comps
    /\ get_column df2 "component" = Some (replicate (nrows df) CNone)
    /\ index df' = Z.of_nat <$> seq 0 (nrows df)
    /\ get_column df' "component" = Some col
    /\ length col = nrows df
    /\ (forall j cell, col !! j = Some cell -> cell_ok comps j cell)
    /\ (forall i k g1 g2,
          comps !! i = Some g1 -> comps !! k = Some g2 -> i ≠ k -> g1 ## g2)
    /\ (forall g j, g ∈ comps -> j ∈ g -> (j < nrows df)%nat)
    /\ (forall g, g ∈ comps -> exists u v, u ≠ v /\ u ∈ g /\ v ∈ g).
Proof.
  intros Hwf Hrun.
  destruct (add_components_stages py_int textract_process df n threshold df'
              Hwf Hrun)
    as (df2 & n_grams & E & comps & Hi2 & Hnames2 & _ & Hcomp2 & Hng & Hle
        & HE & Hcc & Hdf').
  destruct (add_components_result py_int textract_process df n threshold df'
              Hwf Hrun)
    as (df2' & n_grams' & E' & comps' & (Hi2' & _) & (Hng' & _ & HE' & Hcc')
        & Hr & Hsame & Hcells).
  rewrite edges_eq in HE. injection HE as <-.
  rewrite edges_eq in HE'. injection HE' as <-.
  assert (nrows df2 = nrows df) as Hn2.
  { unfold nrows at 1. by rewrite Hi2, length_fmap, length_seq. }
  assert (nrows df2' = nrows df) as Hn2'.
  { unfold nrows at 1. by rewrite Hi2', length_fmap, length_seq. }
  assert (same_but "component" df2 df') as Hsame2.
  { subst df'. apply assign_components_spec.
    - split; [by rewrite Hn2|]. exists (replicate (nrows df) CNone).
      split; [done|]. by rewrite length_replicate.
    - by rewrite Hn2.
    - intros g j Hg Hj. rewrite Hn2.
      destruct (connected_components_spec _ _
                  (graph_of_add_edges_from (all_edges n_grams threshold)))
        as (comps0 & Hcc0 & Hnodes & _).
      rewrite Hcc in Hcc0. injection Hcc0 as <-.
      assert (endpoint (all_edges n_grams threshold) j) as Hend
        by (apply Hnodes; by exists g).
      pose proof (endpoint_bound n_grams threshold _ j (edges_eq _ _) Hend).
      lia. }
  assert (n_grams' = n_grams) as ->.
  { assert (n_grams_of df' n = Ok n_grams) as H1
      by (by rewrite (n_grams_of_same df2 df')).
    assert (n_grams_of df' n = Ok n_grams') as H2
      by (by rewrite (n_grams_of_same df2' df')).
    congruence. }
  assert (comps' = comps) as -> by congruence.
  destruct (connected_components_spec _ _
              (graph_of_add_edges_from (all_edges n_grams threshold)))
    as (comps0 & Hcc0 & Hnodes & Hclass & Hdisj).
  rewrite Hcc in Hcc0. injection Hcc0 as <-.
  destruct Hr as (Hidx & col & Hcol & Hlen).
  assert (nrows df' = nrows df) as Hn'.
  { rewrite (same_but_nrows _ _ _ Hsame2). done. }
  exists df2, n_grams, comps, col.
  repeat (split; [done || congruence|]).
  split; [by intros j cell; apply Hcells|]. split; [done|]. split.
  - intros g j Hg Hj.
    assert (endpoint (all_edges n_grams threshold) j) as Hend
      by (apply Hnodes; by exists g).
    pose proof (endpoint_bound n_grams threshold _ j (edges_eq _ _) Hend).
    lia.
  - intros g Hg.
    destruct (connected_components_roots _ _ _ g
                (graph_of_add_edges_from (all_edges n_grams threshold))
                Hcc Hg) as (v & Hend & Hv).
    destruct (all_edges_partner _ _ _ Hend) as (u & Hne & Hconn).
    exists u, v. split; [done|]. split; [|done].
    by apply (Hclass g v u).
Qed.

(** X7: with a threshold above 1 no two rows are similar enough:
    [add_components] links nothing and leaves [None] in every cell of
    the column [component]. *)
Theorem add_components_threshold_above_one df (n : Z) (threshold : Q) df' :
  well_formed df ->
  (1 < threshold)%Q ->
  add_components py_int textract_process df n threshold = Ok df' ->
  get_column df' "component" = Some (replicate (nrows df) CNone).
Proof.
  intros Hwf Ht Hrun.
  destruct (add_components_components df n threshold df' Hwf Hrun)
    as (df2 & n_grams & comps & col & _ & _ & _ & _ & Hcc & -> & Hcomp2 & _).
  rewrite all_edges_above_one in Hcc by done.
  injection Hcc as <-. done.
Qed.

(** X8: the component numbers that [add_components] writes are exactly
    0, 1, ..., K-1 for some K, and every number that occurs is carried
    by at least two rows: no cluster has a single member. *)
Theorem add_components_numbering df (n : Z) (threshold : Q) df' :
  well_formed df ->
  add_components py_int textract_process df n threshold = Ok df' ->
  exists (col : list Cell) (K : nat),
    get_column df' "component" = Some col
    /\ (forall z : Z,
          0 <= z < Z.of_nat K <-> exists j : nat, col !! j = Some (CInt z))
    /\ (forall (j : nat) (z : Z),
          col !! j = Some (CInt z) ->
          exists j' : nat, j' ≠ j /\ col !! j' = Some (CInt z)).
Proof.
  intros Hwf Hrun.
  destruct (add_components_components df n threshold df' Hwf Hrun)
    as (df2 & n_grams & comps & col & _ & _ & _ & _ & _ & _ & _ & _ & Hcol
        & Hlen & Hcells & Hdisj & Hbound & Htwo).
  assert (forall (k : nat) g j,
            comps !! k = Some g -> j ∈ g ->
            col !! j = Some (CInt (Z.of_nat k))) as Hnum.
  { intros k g j Hk Hj.
    assert (g ∈ comps) as Hg by (by eapply list_elem_of_lookup_2).
    destruct (lookup_lt_is_Some_2 col j) as [cell Hcell].
    { rewrite Hlen. by apply (Hbound g). }
    rewrite Hcell. f_equal.
    apply (cell_ok_unique comps j); [done | by apply Hcells|].
    right. by exists k, g. }
  exists col, (length comps). split; [done|]. split.
  - intros z. split.
    + intros Hz.
      destruct (lookup_lt_is_Some_2 comps (Z.to_nat z)) as [g Hg]; [lia|].
      destruct (Htwo g) as (u & _ & _ & Hu & _);
        [by eapply list_elem_of_lookup_2|].
      exists u. rewrite (Hnum _ g u Hg Hu). do 2 f_equal. lia.
    + intros (j & Hj).
      destruct (Hcells j _ Hj) as [[[=] _]|(k & g & [= ->] & Hk & _)].
      apply lookup_lt_Some in Hk. lia.
  - intros j z Hj.
    destruct (Hcells j _ Hj) as [[[=] _]|(k & g & [= ->] & Hk & Hjg)].
    destruct (Htwo g) as (u & v & Hne & Hu & Hv);
      [by eapply list_elem_of_lookup_2|].
    destruct (decide (u = j)) as [->|Huj].
    + exists v. split; [done|]. by apply (Hnum k g).
    + exists u. split; [done|]. by apply (Hnum k g).
Qed.

(** A second run of [add_components] on the result of a first. *)
Lemma add_components_again df (n : Z) (threshold : Q) df' :
  well_formed df ->
  add_components py_int textract_process df n threshold = Ok df' ->
  exists df'',
    add_components py_int textract_process df' n threshold = Ok df''
    /\ index df'' = index df'
    /\ column_names df'' = column_names df'
    /\ forall c, get_column df'' c = get_column df' c.
Proof.
  intros Hwf Hrun.
  destruct (add_components_components df n threshold df' Hwf Hrun)
    as (df2 & n_grams & comps & col & Hng & Hsame & Hn2 & Hnames2 & Hcc & _
        & _ & Hidx' & Hcol & Hlen & Hcells & Hdisj & Hbound & _).
  assert (nrows df' = nrows df) as Hn'
    by (by rewrite (same_but_nrows _ _ _ Hsame)).
  assert ("component" ∈ column_names df') as Hcomp.
  { apply assoc_is_Some. fold (get_column df' "component"). by rewrite Hcol. }
  assert ("text_attachment" ∈ column_names df') as Hta.
  { destruct Hsame as (_ & -> & _). rewrite Hnames2.
    destruct (decide ("text_attachment" ∈ column_names df)) as [Hin|Hnin].
    - rewrite app_nil_r. apply elem_of_app. by left.
    - apply elem_of_app. right. by left. }
  set (df1 := set_column (reset_index df') "component" CNone).
  assert (index df1 = index df') as Hi1.
  { unfold df1. rewrite set_column_index. simpl. by rewrite Hidx', Hn'. }
  assert (column_names df1 = column_names df') as Hnames1.
  { unfold df1. rewrite set_column_names.
    change (column_names (reset_index df')) with (column_names df').
    by rewrite decide_True, app_nil_r. }
  assert (forall c, c ≠ "component" -> get_column df1 c = get_column df' c)
    as Hget1.
  { intros c Hc. unfold df1. by rewrite get_set_column, decide_False. }
  assert (nrows df1 = nrows df) as Hn1.
  { unfold nrows. by rewrite Hi1. }
  assert (n_grams_of df1 n = Ok n_grams) as Hng1.
  { rewrite (n_grams_of_same df' df1) by done.
    by rewrite (n_grams_of_same df2 df'). }
  destruct (assign_components_spec df1 comps) as (Hr & Hsame1 & Hcells1).
  { apply set_column_ranged. simpl. by rewrite reset_index_nrows. }
  { unfold df1 at 1. rewrite get_set_column, decide_True by done.
    by rewrite reset_index_nrows, Hn1, Hn'. }
  { intros g j Hg Hj. rewrite Hn1. by apply (Hbound g). }
  exists (assign_components df1 comps). split.
  { unfold add_components. fold df1. rewrite Hnames1.
    rewrite decide_True by done. simpl. rewrite Hng1. simpl.
    rewrite edges_eq. simpl. rewrite Hcc. done. }
  destruct Hsame1 as (Hi2 & Hnames & Hget).
  split; [congruence|]. split; [congruence|]. intros c.
  destruct (decide (c = "component")) as [->|Hc];
    [|by rewrite Hget, Hget1].
  destruct Hr as (_ & col1 & Hcol1 & Hlen1). rewrite Hcol1, Hcol. f_equal.
  assert (length col1 = length col) as Hlens.
  { rewrite Hlen1, Hlen. unfold nrows. by rewrite Hi2, Hi1, Hidx',
      length_fmap, length_seq. }
  apply list_eq. intros p.
  destruct (col !! p) as [cell|] eqn:Hp.
  - destruct (lookup_lt_is_Some_2 col1 p) as [cell1 Hp1].
    { rewrite Hlens. by eapply lookup_lt_Some. }
    rewrite Hp1. f_equal.
    apply (cell_ok_unique comps p); [done|by eapply Hcells1|by apply Hcells].
  - apply lookup_ge_None. apply lookup_ge_None in Hp. lia.
Qed.

(** X9: [add_components] is idempotent: run again on its own result
    with the same settings, it returns, and the frame it returns has
    the same row labels, the same column names and, in every column,
    the same cells. *)
Theorem add_components_idempotent df (n : Z) (threshold : Q) df' :
  well_formed df ->
  add_components py_int textract_process df n threshold = Ok df' ->
  exists df'',
    add_components py_int textract_process df' n threshold = Ok df''
    /\ index df'' = index df'
    /\ column_names df'' = column_names df'
    /\ forall c, get_column df'' c = get_column df' c.
Proof. apply add_components_again. Qed.

(** X10: [add_components] returns a frame only on a frame that has a
    column [text] and, besides, a column [text_attachment] or a column
    [attachment] to extract it from. *)
Theorem add_components_requires_columns df (n : Z) (threshold : Q) df' :
  well_formed df ->
  add_components py_int textract_process df n threshold = Ok df' ->
  "text" ∈ column_names df
  /\ ("text_attachment" ∈ column_names df \/ "attachment" ∈ column_names df).
Proof.
  intros Hwf Hrun. split.
  - destruct (add_components_stages py_int textract_process df n threshold
                df' Hwf Hrun)
      as (df2 & n_grams & E & comps & _ & _ & Hget2 & _ & Hng & _).
    unfold n_grams_of, attr in Hng.
    rewrite (Hget2 "text") in Hng by (done || by left).
    apply assoc_is_Some. fold (get_column df "text").
    by destruct (get_column df "text").
  - destruct (decide ("text_attachment" ∈ column_names df)) as [|Hnin];
      [by left | right].
    unfold add_components in Hrun.
    set (df1 := set_column (reset_index df) "component" CNone) in Hrun.
    rewrite decide_False in Hrun.
    2:{ unfold df1. rewrite set_column_names.
        change (column_names (reset_index df)) with (column_names df).
        intros [Hin|Hin]%elem_of_app; [done|].
        destruct (decide ("component" ∈ column_names df));
          [by apply elem_of_nil in Hin|].
        by apply list_elem_of_singleton in Hin. }
    destruct (extract_text py_int textract_process df1) as [df2| |] eqn:Hex;
      try done.
    unfold extract_text, attr in Hex.
    rewrite get_set_column, decide_False in Hex by done.
    change (get_column (reset_index df1) "attachment")
      with (get_column df1 "attachment") in Hex.
    unfold df1 in Hex. rewrite get_set_column, decide_False in Hex by done.
    change (get_column (reset_index df) "attachment")
      with (get_column df "attachment") in Hex.
    apply assoc_is_Some. fold (get_column df "attachment").
    by destruct (get_column df "attachment").
Qed.

End ComponentFacts.

(** ** What [extract_text] writes *)

Section ExtractionFacts.
Import Text Similarity Frame Cluster.

Variable py_int : string -> option Z.
Variable textract_process : Z -> outcome string.

Implicit Types (df s : DataFrame) (a t : Cell).

(** The cell that the loop of [extract_text] leaves in
    [text_attachment] for a row whose [attachment] is [a]: the text of
    the attachment whose number [a] denotes, [None] when the extractor
    raises [TypeError], and [None] when [a] is missing or empty. *)
Definition extracted a t : Prop :=
  if notna a && negb (is_empty_str a) then
    exists k : Z,
      int_of_cell py_int a = Ok k
      /\ match textract_process k with
         | Ok text => t = CStr text
         | Raise TypeError => t = CNone
         | _ => False
         end
  else t = CNone.

Lemma extract_text_body_cell s (i : nat) a s' (col : list Cell) :
  ranged s "text_attachment" -> (i < nrows s)%nat ->
  get_column s "text_attachment" = Some col -> col !! i = Some CNone ->
  extract_text_body py_int textract_process s (i, a) = Ok s' ->
  exists t,
    extracted a t
    /\ ranged s' "text_attachment" /\ nrows s' = nrows s
    /\ get_column s' "text_attachment" = Some (<[i := t]> col).
Proof.
  intros Hr Hi Hcol Hnone. unfold extract_text_body, extracted.
  destruct (notna a && negb (is_empty_str a)).
  - destruct (int_of_cell py_int a) as [k| |]; simpl; try done.
    assert (forall v,
              ranged (loc_set s (Z.of_nat i) "text_attachment" v)
                     "text_attachment"
              /\ nrows (loc_set s (Z.of_nat i) "text_attachment" v) = nrows s
              /\ get_column (loc_set s (Z.of_nat i) "text_attachment" v)
                            "text_attachment" = Some (<[i := v]> col)) as Hw.
    { intros v.
      destruct (loc_set_ranged s i "text_attachment" v Hr Hi)
        as (df' & -> & Hr' & Hidx & _ & _ & Hget).
      split; [done|]. split; [unfold nrows; by rewrite Hidx|].
      by rewrite Hget, Hcol. }
    destruct (textract_process k) as [text|[]|] eqn:Hk; try done;
      intros [= <-].
    + exists (CStr text). split; [|by apply Hw]. exists k. by rewrite Hk.
    + exists CNone. split; [|by apply Hw]. exists k. by rewrite Hk.
  - intros [= <-]. exists CNone. split; [done|]. split; [done|].
    split; [done|]. by rewrite list_insert_id.
Qed.

Lemma extract_text_loop (rest : list Cell) :
  forall (pre : list Cell) s s' (col : list Cell),
    ranged s "text_attachment" ->
    nrows s = length (pre ++ rest) ->
    get_column s "text_attachment" = Some col ->
    (forall p : nat, (length pre <= p < nrows s)%nat -> col !! p = Some CNone) ->
    ofold (extract_text_body py_int textract_process)
          (zip (seq (length pre) (length rest)) rest) s = Ok s' ->
    exists col' : list Cell,
      get_column s' "text_attachment" = Some col'
      /\ length col' = length col
      /\ (forall p : nat, (p < length pre)%nat -> col' !! p = col !! p)
      /\ (forall (p : nat) a,
            rest !! p = Some a ->
            exists t, col' !! (length pre + p)%nat = Some t /\ extracted a t).
Proof.
  induction rest as [|a rest IH]; intros pre s s' col Hr Hn Hcol Hnone.
  - simpl. intros [= <-]. exists col. split; [done|]. split; [done|].
    split; [done|]. intros p a' Hp. by rewrite lookup_nil in Hp.
  - cbn [length seq zip zip_with ofold].
    destruct (extract_text_body py_int textract_process s (length pre, a))
      as [s1| |] eqn:Hbody; simpl; try done.
    assert (length pre < nrows s)%nat as Hlt.
    { rewrite Hn, length_app. simpl. lia. }
    destruct (extract_text_body_cell s (length pre) a s1 col Hr Hlt Hcol)
      as (t & Ht & Hr1 & Hn1 & Hcol1); [apply Hnone; lia | done |].
    assert (length col = nrows s) as Hlen.
    { destruct Hr as (_ & col0 & Hcol0 & Hlen0). congruence. }
    intros Hloop.
    destruct (IH (pre ++ [a]) s1 s' (<[length pre := t]> col))
      as (col' & Hcol' & Hlen' & Hpre & Hrest).
    + done.
    + by rewrite Hn1, Hn, <- app_assoc.
    + done.
    + intros p Hp. rewrite length_app in Hp. simpl in Hp.
      rewrite list_lookup_insert_ne by lia. apply Hnone. lia.
    + rewrite length_app. simpl. by rewrite Nat.add_1_r.
    + rewrite length_insert in Hlen'. rewrite length_app in Hpre, Hrest.
      simpl in Hpre, Hrest.
      exists col'. split; [done|]. split; [done|]. split.
      * intros p Hp. rewrite Hpre by lia.
        by rewrite list_lookup_insert_ne by lia.
      * intros [|p] a' Hp; simpl in Hp.
        -- injection Hp as <-. exists t. split; [|done].
           rewrite Nat.add_0_r, Hpre by lia.
           rewrite list_lookup_insert_eq; [done | lia].
        -- destruct (Hrest p a' Hp) as (t' & Ht' & Hex). exists t'.
           split; [|done]. rewrite <- Ht'. f_equal. lia.
Qed.

(** The frame that [extract_text] returns, column by column. *)
Lemma extract_text_columns df df' :
  well_formed df ->
  extract_text py_int textract_process df = Ok df' ->
  index df' = Z.of_nat <$> seq 0 (nrows df)
  /\ column_names df'
     = column_names df
       ++ (if decide ("text_attachment" ∈ column_names df) then []
           else ["text_attachment"])
  /\ (forall c, c ≠ "text_attachment" -> get_column df' c = get_column df c)
  /\ exists attachment col : list Cell,
       get_column df "attachment" = Some attachment
       /\ get_column df' "text_attachment" = Some col
       /\ Forall2 extracted attachment col.
Proof.
  intros Hwf Hrun.
  destruct (extract_text_spec py_int textract_process df df' Hwf Hrun)
    as (_ & _ & Hidx & Hnames & Hget).
  split; [done|]. split; [done|]. split; [done|].
  unfold extract_text, attr in Hrun.
  set (df1 := set_column (reset_index df) "text_attachment" CNone) in Hrun.
  assert (get_column df1 "attachment" = get_column df "attachment") as Hatt.
  { unfold df1. by rewrite get_set_column, decide_False. }
  rewrite Hatt in Hrun.
  destruct (get_column df "attachment") as [att|] eqn:Hcol; [|done].
  simpl in Hrun.
  assert (nrows df1 = nrows df) as Hn1.
  { unfold df1. by rewrite set_column_nrows, reset_index_nrows. }
  assert (length att = nrows df) as Hlen
    by (by apply (well_formed_column df "attachment")).
  destruct (extract_text_loop att [] df1 df' (replicate (nrows df) CNone))
    as (col & Hcol' & Hlen' & _ & Hcells).
  - apply set_column_ranged. simpl. by rewrite reset_index_nrows.
  - simpl. congruence.
  - unfold df1. rewrite get_set_column, decide_True by done.
    by rewrite reset_index_nrows.
  - intros p Hp. apply lookup_replicate. split; [done|]. lia.
  - exact Hrun.
  - exists att, col. split; [done|]. split; [done|].
    rewrite length_replicate in Hlen'.
    apply Forall2_same_length_lookup_2; [congruence|].
    intros p a t Ha Hp. destruct (Hcells p a Ha) as (t' & Ht' & Hex).
    simpl in Ht'. congruence.
Qed.

(** X11: what [extract_text] returns.  The rows are relabelled 0, 1,
    ..., the column [text_attachment] is added last unless the frame
    has it, the other columns keep their cells, and row by row the
    cell of [text_attachment] is the text extracted from the
    attachment the row names, or [None] when the row names none or the
    extractor raises [TypeError]; what the column held before is
    overwritten. *)
Theorem extract_text_cells df df' :
  well_formed df ->
  extract_text py_int textract_process df = Ok df' ->
  index df' = Z.of_nat <$> seq 0 (nrows df)
  /\ column_names df'
     = column_names df
       ++ (if decide ("text_attachment" ∈ column_names df) then []
           else ["text_attachment"])
  /\ (forall c, c ≠ "text_attachment" -> get_column df' c = get_column df c)
  /\ exists attachment col : list Cell,
       get_column df "attachment" = Some attachment
       /\ get_column df' "text_attachment" = Some col
       /\ Forall2 extracted attachment col.
Proof. apply extract_text_columns. Qed.

(** A loop stops without a result as soon as its body does, whatever
    the state it is entered with. *)
Lemma ofold_stops {A S} (body : S -> A -> outcome S) (l : list A) (x : A) :
  x ∈ l ->
  (forall st st', body st x ≠ Ok st') ->
  forall st st', ofold body l st ≠ Ok st'.
Proof.
  intros Hx Hbody. induction l as [|y l IH]; [by apply elem_of_nil in Hx|].
  intros st st'. simpl.
  apply elem_of_cons in Hx as [<-|Hx].
  - destruct (body st x) as [st1| |] eqn:Hs; simpl; try done.
    by destruct (Hbody st st1).
  - destruct (body st y) as [st1| |]; simpl; try done. by apply IH.
Qed.

(** X12: [extract_text] never returns a frame when some row names its
    attachment by a non-empty string that [int] rejects (the
    comma-joined ids that [download_files] stores for a response with
    two attachments are of that kind): the conversion raises
    [ValueError], which the loop does not catch. *)
Theorem extract_text_rejects_non_integer df (attachment : list Cell)
    (name : string) :
  get_column df "attachment" = Some attachment ->
  CStr name ∈ attachment -> name ≠ "" -> py_int name = None ->
  forall df', extract_text py_int textract_process df ≠ Ok df'.
Proof.
  intros Hatt Hin Hname Hint df'. unfold extract_text, attr.
  rewrite get_set_column, decide_False by done.
  change (get_column (reset_index df) "attachment")
    with (get_column df "attachment").
  rewrite Hatt. simpl.
  apply list_elem_of_lookup in Hin as [i Hi].
  apply (ofold_stops _ _ (i, CStr name)); [by apply elem_of_enumerate|].
  intros s s'. unfold extract_text_body. simpl.
  destruct (decide (name = "")); [done|]. simpl. by rewrite Hint.
Qed.

End ExtractionFacts.

(** ** What is read from a page *)

Section PageFacts.
Import Text Similarity Frame Crawl.

Variable response_page : string -> ResponsePage.
Variable cfg : Config.

Implicit Types (d : Response) (key : string) (w : World).

Lemma BASE_append (href : string) : BASE +:+ href ≠ "".
Proof. unfold BASE. by rewrite append_cons. Qed.

Lemma truthy_urls_get_url (results : list (option string)) :
  truthy_urls (get_url <$> results)
  = (fun href => BASE +:+ href) <$> omap id results.
Proof.
  unfold truthy_urls. induction results as [|[href|] results IH].
  - done.
  - rewrite fmap_cons, bind_cons, IH. cbn [get_url].
    rewrite decide_False by apply BASE_append. done.
  - by rewrite fmap_cons, bind_cons, IH.
Qed.

(** X13: [get_result_urls] raises [AttributeError] on a page without a
    result list; otherwise it returns, in page order, [BASE] followed
    by the [href] of each list item that has an anchor.  The closing
    filter on truthiness removes nothing, as no such url is empty. *)
Theorem get_result_urls_spec (soup : Soup) :
  get_result_urls soup
  = match result_list soup with
    | None => Raise AttributeError
    | Some results => Ok ((fun href => BASE +:+ href) <$> omap id results)
    end.
Proof.
  unfold get_result_urls. destruct (result_list soup); [|done].
  by rewrite truthy_urls_get_url.
Qed.

(** One row of the table, as [parse_table] adds it to the dict. *)
Definition table_step d (kv : option string * option string) : Response :=
  match kv.1 with
  | Some key => if decide (key = "") then d else dict_set d key (cell_of_text kv.2)
  | None => d
  end.

Lemma parse_table_fold (rows : list (option string * option string)) :
  parse_table (Some rows) = Ok (fold_left table_step rows []).
Proof. done. Qed.

Lemma dict_set_keys d key (v : Cell) :
  (dict_set d key v).*1 = if decide (key ∈ d.*1) then d.*1 else d.*1 ++ [key].
Proof.
  induction d as [|[k0 v0] d IH]; [done|].
  cbn [dict_set]. rewrite (fmap_cons fst (k0, v0) d). cbn [fst].
  destruct (decide (k0 = key)) as [->|Hne].
  - rewrite fmap_cons. cbn [fst]. by rewrite decide_True by left.
  - rewrite fmap_cons, IH. cbn [fst].
    destruct (decide (key ∈ d.*1)) as [Hin|Hnin].
    + by rewrite decide_True by (by right).
    + rewrite decide_False; [done|].
      intros [?|?]%elem_of_cons; congruence.
Qed.

Lemma NoDup_dict_set d key (v : Cell) :
  NoDup d.*1 -> NoDup (dict_set d key v).*1.
Proof.
  intros Hnd. rewrite dict_set_keys. destruct (decide _) as [|Hnin]; [done|].
  apply NoDup_app. split; [done|]. split; [|apply NoDup_singleton].
  intros x Hx ->%list_elem_of_singleton. done.
Qed.

Lemma elem_of_dict_set_keys d key key' (v : Cell) :
  key' ∈ (dict_set d key v).*1 <-> key' ∈ d.*1 \/ key' = key.
Proof.
  rewrite dict_set_keys. destruct (decide (key ∈ d.*1)) as [Hin|Hnin].
  - split; [by left|]. intros [?| ->]; done.
  - rewrite elem_of_app, list_elem_of_singleton. done.
Qed.

Lemma assoc_dict_pop d key key' :
  assoc key' (dict_pop d key)
  = if decide (key' = key) then None else assoc key' d.
Proof.
  unfold dict_pop. induction d as [|[k0 v0] d IH]; simpl.
  - by destruct (decide _).
  - rewrite filter_cons. simpl. destruct (decide (k0 ≠ key)) as [Hne|Heq].
    + simpl. rewrite IH.
      destruct (decide (k0 = key')), (decide (key' = key)); congruence.
    + apply dec_stable in Heq. subst k0. rewrite IH.
      destruct (decide (key = key')), (decide (key' = key)); congruence.
Qed.

(** The dict that [parse_table] makes of the rows of a table. *)
Lemma parse_table_dict (rows : list (option string * option string)) :
  exists d,
    parse_table (Some rows) = Ok d
    /\ NoDup d.*1
    /\ (forall key, key ∈ d.*1 <-> key ≠ "" /\ exists td, (Some key, td) ∈ rows)
    /\ (forall pre post key td,
          rows = pre ++ (Some key, td) :: post -> key ≠ "" ->
          (forall td', (Some key, td') ∉ post) ->
          assoc key d = Some (cell_of_text td)).
Proof.
  exists (fold_left table_step rows []). split; [done|].
  induction rows as [|[th td0] rows IH] using rev_ind.
  - simpl. split; [apply NoDup_nil_2|]. split.
    + intros key. split; [by intros ?%elem_of_nil|].
      by intros (_ & td & ?%elem_of_nil).
    + intros [|] ? ? ? [=].
  - destruct IH as (Hnd & Hkeys & Hlast). rewrite fold_left_app. simpl.
    set (d := fold_left table_step rows []) in *.
    assert (forall key td, (Some key, td) ∈ rows ++ [(th, td0)]
              <-> (Some key, td) ∈ rows \/ (th = Some key /\ td0 = td))
      as Hin.
    { intros key td. rewrite elem_of_app, list_elem_of_singleton.
      split; (intros [?|H]; [by left|right]).
      - by injection H as <- <-.
      - by destruct H as [-> ->]. }
    assert (forall pre post key td,
              rows ++ [(th, td0)] = pre ++ (Some key, td) :: post ->
              (post = [] /\ rows = pre /\ th = Some key /\ td0 = td)
              \/ (exists post', post = post' ++ [(th, td0)]
                                /\ rows = pre ++ (Some key, td) :: post'))
      as Hsplit.
    { intros pre post key td Heq.
      destruct post as [|x post _] using rev_ind.
      - left. apply app_inj_tail in Heq as [-> [= -> ->]]. done.
      - right. rewrite app_comm_cons, app_assoc in Heq.
        apply app_inj_tail in Heq as [-> <-]. by exists post. }
    unfold table_step at 1 2 3. simpl.
    destruct th as [key0|]; [destruct (decide (key0 = "")) as [->|Hne0]|].
    + split; [done|]. split.
      * intros key. rewrite Hkeys. split.
        -- intros [Hne [td Htd]]. split; [done|]. exists td.
           apply Hin. by left.
        -- intros [Hne [td [Htd|[[= <-] _]]%Hin]]; [|done].
           split; [done|]. by exists td.
      * intros pre post key td Heq Hne Hpost.
        destruct (Hsplit _ _ _ _ Heq)
          as [(_ & _ & [= <-] & _)|(post' & -> & Hrows)]; [done|].
        apply (Hlast pre post' key td Hrows Hne).
        intros td' Hin'. apply (Hpost td'). apply elem_of_app. by left.
    + split; [by apply NoDup_dict_set|]. split.
      * intros key. rewrite elem_of_dict_set_keys, Hkeys. split.
        -- intros [[Hne [td Htd]]| ->].
           ++ split; [done|]. exists td. apply Hin. by left.
           ++ split; [done|]. exists td0. apply Hin. by right.
        -- intros [Hne [td [Htd|[[= <-] _]]%Hin]]; [|by right].
           left. split; [done|]. by exists td.
      * intros pre post key td Heq Hne Hpost. rewrite assoc_dict_set.
        destruct (Hsplit _ _ _ _ Heq)
          as [(_ & _ & [= <-] & <-)|(post' & -> & Hrows)].
        -- by rewrite decide_True.
        -- rewrite decide_False.
           ++ apply (Hlast pre post' key td Hrows Hne).
              intros td' Hin'. apply (Hpost td'). apply elem_of_app. by left.
           ++ intros ->. apply (Hpost td0). apply elem_of_app. right.
              by apply list_elem_of_singleton.
    + split; [done|]. split.
      * intros key. rewrite Hkeys. split.
        -- intros [Hne [td Htd]]. split; [done|]. exists td.
           apply Hin. by left.
        -- intros [Hne [td [Htd|[[=] _]]%Hin]].
           split; [done|]. by exists td.
      * intros pre post key td Heq Hne Hpost.
        destruct (Hsplit _ _ _ _ Heq)
          as [(_ & _ & [=] & _)|(post' & -> & Hrows)].
        apply (Hlast pre post' key td Hrows Hne).
        intros td' Hin'. apply (Hpost td'). apply elem_of_app. by left.
Qed.

(** X14: [parse_table] on a table that exists returns a dict whose keys
    are distinct and are exactly the non-empty header texts of the
    rows; where rows share a header, the value of the last one is
    kept; a row without data cell gives the value [None]. *)
Theorem parse_table_spec (rows : list (option string * option string)) :
  exists d,
    parse_table (Some rows) = Ok d
    /\ NoDup d.*1
    /\ (forall key, key ∈ d.*1 <-> key ≠ "" /\ exists td, (Some key, td) ∈ rows)
    /\ (forall pre post key td,
          rows = pre ++ (Some key, td) :: post -> key ≠ "" ->
          (forall td', (Some key, td') ∉ post) ->
          assoc key d = Some (cell_of_text td)).
Proof. apply parse_table_dict. Qed.

End PageFacts.

(** ** What is stored for a response *)

Section ResponseFacts.
Import Text Similarity Frame Crawl.

Variable response_page : string -> ResponsePage.
Variable cfg : Config.

Implicit Types (d r : Response) (key : string) (w : World).

(** The events of [download_files]: for each download, in page order,
    the request and then the write of [<download_id>.pdf]. *)
Definition download_events (ids : list string) : list Event :=
  id ← ids; [GetAttachment id; SaveAttachment id].

Lemma download_files_trace (ids : list string) w :
  download_files ids w
  = ({| file := file w; trace := trace w ++ download_events ids |},
     Ok (join "," ids)).
Proof.
  unfold download_files.
  assert (exists us,
            mapM (fun id => _ ← emit (GetAttachment id);
                            emit (SaveAttachment id)) ids w
            = ({| file := file w; trace := trace w ++ download_events ids |},
               Ok us)) as [us Hm].
  { revert w. induction ids as [|id ids IH]; intros w; cbn [mapM].
    - exists []. destruct w. simpl. by rewrite app_nil_r.
    - set (w1 := (emit (GetAttachment id) w).1).
      set (w2 := (emit (SaveAttachment id) w1).1).
      rewrite (mbind_ok _ _ w w2 tt)
        by (by rewrite (mbind_ok _ _ w w1 tt)).
      destruct (IH w2) as [us Hm].
      rewrite (mbind_ok _ _ _ _ _ Hm). exists (tt :: us).
      unfold download_events. rewrite bind_cons.
      fold (download_events ids). unfold ret.
      cbn [emit fst file trace w1 w2].
      by rewrite <- !app_assoc. }
  by rewrite (mbind_ok _ _ _ _ _ Hm).
Qed.

(** The requests of [get_response] and the dict it returns. *)
Lemma get_response_dict (url : string) w
    (rows : list (option string * option string)) :
  table (response_page url) = Some rows ->
  exists d r,
    parse_table (Some rows) = Ok d
    /\ get_response response_page cfg url w
       = ({| file := file w;
             trace := trace w
                      ++ GetResponse url
                         :: (if download_attachments cfg
                             then download_events (downloads (response_page url))
                             else []) |},
          Ok r)
    /\ assoc "url" r = Some (CStr url)
    /\ assoc "text" r
       = Some (CStr (join SEP (blockquotes (response_page url))))
    /\ assoc "attachment" r
       = (if download_attachments cfg
          then Some (CStr (join "," (downloads (response_page url))))
          else assoc "attachment" d)
    /\ assoc "Naam" r = (if name cfg then assoc "Naam" d else None)
    /\ forall key,
         key ≠ "url" -> key ≠ "text" -> key ≠ "attachment" -> key ≠ "Naam" ->
         assoc key r = assoc key d.
Proof.
  intros Hrows. unfold get_response.
  rewrite (mbind_ok _ _ w (emit (GetResponse url) w).1 tt) by done.
  set (w0 := (emit (GetResponse url) w).1).
  rewrite Hrows. cbn [parse_table].
  match goal with
  | |- context [lift (Ok ?x)] =>
      rewrite (mbind_ok (lift (Ok x)) _ w0 w0 x) by done; set (d := x)
  end.
  cbv zeta. exists d.
  set (d1 := if name cfg then d else dict_pop d "Naam").
  assert (forall key, key ≠ "Naam" -> assoc key d1 = assoc key d) as Hd1.
  { intros key Hkey. unfold d1. destruct (name cfg); [done|].
    by rewrite assoc_dict_pop, decide_False. }
  assert (assoc "Naam" d1 = if name cfg then assoc "Naam" d else None)
    as HNaam.
  { unfold d1. destruct (name cfg); [done|].
    by rewrite assoc_dict_pop, decide_True. }
  destruct (download_attachments cfg).
  - rewrite (mbind_ok _ _ _ _ _ (download_files_trace _ w0)).
    eexists. split; [done|]. split.
    { unfold mret, M_ret, ret. cbn [file trace w0 emit fst].
      by rewrite <- app_assoc. }
    split; [by rewrite !assoc_dict_set|].
    split; [by rewrite !assoc_dict_set|].
    split; [by rewrite !assoc_dict_set|].
    split; [by rewrite !assoc_dict_set, !decide_False by done|].
    intros key H1 H2 H3 H4. rewrite !assoc_dict_set.
    rewrite !decide_False by done. by apply Hd1.
  - eexists. split; [done|]. split; [done|].
    split; [by rewrite !assoc_dict_set|].
    split; [by rewrite !assoc_dict_set|].
    split.
    { rewrite !assoc_dict_set, !decide_False by done. by apply Hd1. }
    split; [by rewrite !assoc_dict_set, !decide_False by done|].
    intros key H1 H2 H3 H4. rewrite !assoc_dict_set.
    rewrite !decide_False by done. by apply Hd1.
Qed.

(** X15: [get_response] on a page that has the overview table.  It
    requests the page and then, when attachments are wanted, requests
    each download and writes it to [<download_id>.pdf], in page order;
    it does nothing else to the outside world, and in particular leaves
    the spreadsheet of the responses as it is.  The dict it returns
    holds the url it was given under [url] (a table row of that name
    is overwritten), the block quotes joined by [SEP] under [text], the
    comma-joined download ids under [attachment] when attachments are
    wanted, no [Naam] unless names are wanted, and every other field as
    [parse_table] read it. *)
Theorem get_response_spec (url : string) w
    (rows : list (option string * option string)) :
  table (response_page url) = Some rows ->
  exists d r,
    parse_table (Some rows) = Ok d
    /\ get_response response_page cfg url w
       = ({| file := file w;
             trace := trace w
                      ++ GetResponse url
                         :: (if download_attachments cfg
                             then download_events (downloads (response_page url))
                             else []) |},
          Ok r)
    /\ assoc "url" r = Some (CStr url)
    /\ assoc "text" r
       = Some (CStr (join SEP (blockquotes (response_page url))))
    /\ assoc "attachment" r
       = (if download_attachments cfg
          then Some (CStr (join "," (downloads (response_page url))))
          else assoc "attachment" d)
    /\ assoc "Naam" r = (if name cfg then assoc "Naam" d else None)
    /\ forall key,
         key ≠ "url" -> key ≠ "text" -> key ≠ "attachment" -> key ≠ "Naam" ->
         assoc key r = assoc key d.
Proof. apply get_response_dict. Qed.

End ResponseFacts.

(** ** Runs that cannot finish, and what a failed run leaves behind *)

Section RunFacts.
Import Text Similarity Frame Cluster Crawl.

Variable listing : Z -> Soup.
Variable response_page : string -> ResponsePage.
Variable read_back : DataFrame -> DataFrame.
Variable py_int : string -> option Z.
Variable textract_process : Z -> outcome string.
Variable cfg : Config.

Implicit Types (w : World) (rs : list Response) (st : LoopState).

(** A property of every stored response that every fetched response
    has holds of the responses the loop returns. *)
Lemma mapM_Forall {A B} (P : B -> Prop) (f : A -> M B) (l : list A) :
  (forall x w w' y, f x w = (w', Ok y) -> P y) ->
  forall w w' ys, mapM f l w = (w', Ok ys) -> Forall P ys.
Proof.
  intros Hf. induction l as [|x l IH]; intros w w' ys; cbn [mapM].
  - intros [= _ <-]. constructor.
  - intros (w1 & y & Hy & H)%mbind_inv.
    apply mbind_inv in H as (w2 & rest & Hrest & [= _ <-]).
    constructor; [by eapply Hf | by eapply IH].
Qed.

Lemma crawl_loop_Forall (P : Response -> Prop) (done : list Cell)
    (fuel : nat) :
  (forall url w w' r,
     get_response response_page cfg url w = (w', Ok r) -> P r) ->
  forall st w w' rs,
    Forall P (responses st) ->
    crawl_loop listing response_page cfg fuel done st w = (w', Ok rs) ->
    Forall P rs.
Proof.
  intros Hget. induction fuel as [|fuel IH]; intros st w w' rs Hst;
    cbn [crawl_loop]; [done|].
  intros (w1 & r & Hbody & H)%mbind_inv.
  assert (match r with
          | inl st' => Forall P (responses st')
          | inr rs' => Forall P rs'
          end) as Hr.
  { unfold crawl_body in Hbody.
    apply mbind_inv in Hbody as (w2 & [] & _ & Hbody).
    apply mbind_inv in Hbody as (w3 & [] & _ & Hbody). cbv zeta in Hbody.
    apply mbind_inv in Hbody as (w4 & urls & _ & Hbody).
    apply mbind_inv in Hbody as (w5 & new & Hnew & Hbody).
    apply mbind_inv in Hbody as (w6 & M' & _ & Hbody).
    assert (Forall P (responses st ++ new)) as Hall.
    { apply Forall_app. split; [done|]. by eapply mapM_Forall. }
    destruct (M' <? page st + 1).
    - by injection Hbody as _ <-.
    - apply mbind_inv in Hbody as (w7 & [] & _ & [= _ <-]). done. }
  destruct r as [st'|rs']; [by eapply IH|]. by injection H as _ <-.
Qed.

Lemma get_response_no_attachment (url : string) w w' (r : Response) :
  download_attachments cfg = false ->
  (forall url rows td,
     table (response_page url) = Some rows -> (Some "attachment", td) ∉ rows) ->
  get_response response_page cfg url w = (w', Ok r) ->
  assoc "attachment" r = None.
Proof.
  intros Hno Htable Hget.
  destruct (table (response_page url)) as [rows|] eqn:Hrows.
  - destruct (get_response_dict response_page cfg url w rows Hrows)
      as (d & r' & Hd & Hr & _ & _ & Hatt & _).
    rewrite Hget in Hr. injection Hr as _ <-. rewrite Hatt, Hno.
    destruct (parse_table_dict rows) as (d' & Hd' & _ & Hkeys & _).
    rewrite Hd in Hd'. injection Hd' as <-.
    apply assoc_None. rewrite Hkeys. intros (_ & td & Hin).
    by apply (Htable url rows td).
  - unfold get_response in Hget.
    rewrite (mbind_ok _ _ w (emit (GetResponse url) w).1 tt) in Hget by done.
    by rewrite Hrows in Hget.
Qed.

Lemma extract_text_needs_attachment (df df' : DataFrame) :
  extract_text py_int textract_process df = Ok df' ->
  "attachment" ∈ column_names df.
Proof.
  unfold extract_text, attr.
  rewrite get_set_column, decide_False by done.
  change (get_column (reset_index df) "attachment")
    with (get_column df "attachment").
  intros H. apply assoc_is_Some. fold (get_column df "attachment").
  by destruct (get_column df "attachment").
Qed.

(** A run that extracts text returns only if one of the responses it
    ends up with has the key [attachment]. *)
Lemma run_needs_attachment (fuel : nat) w w1 (df1 : DataFrame) :
  extract_text_attachment cfg || components cfg = true ->
  download_responses listing response_page read_back py_int textract_process
    cfg fuel w = (w1, Ok df1) ->
  exists done rs0 w0 w' rs (r : Response),
    load_prior read_back w = (w0, Ok (done, rs0))
    /\ crawl_loop listing response_page cfg fuel done
         {| page := 1; max_page := None; responses := rs0 |} w0 = (w', Ok rs)
    /\ r ∈ rs /\ "attachment" ∈ r.*1.
Proof.
  intros Hcfg Hrun.
  apply download_responses_inv in Hrun
    as (done & rs0 & w0 & w' & rs & df_a & Hload & Hloop & Ha & _).
  rewrite Hcfg in Ha. apply extract_text_needs_attachment in Ha.
  change (column_names (DataFrame_of rs))
    with ((fun c => (c, (fun r : Response => default CNaN (assoc c r)) <$> rs))
            <$> first_keys rs).*1 in Ha.
  rewrite <- list_fmap_compose in Ha.
  apply list_elem_of_fmap in Ha as (c & Hc & Hin). simpl in Hc. subst c.
  apply (elem_of_first_keys response_page py_int) in Hin as (r & Hr & Hkey).
  by exists done, rs0, w0, w', rs, r.
Qed.

(** X16: a fresh run that does not download attachments but is to
    extract text or to cluster (the defaults for both) never returns a
    frame, unless the overview table of some response has a row named
    [attachment]: no response gets the key [attachment], and
    [extract_text] needs that column. *)
Theorem download_responses_without_attachments (fuel : nat) w :
  file w = None ->
  download_attachments cfg = false ->
  extract_text_attachment cfg || components cfg = true ->
  (forall url rows td,
     table (response_page url) = Some rows -> (Some "attachment", td) ∉ rows) ->
  forall w1 df1,
    download_responses listing response_page read_back py_int textract_process
      cfg fuel w ≠ (w1, Ok df1).
Proof.
  intros Hfile Hno Hcfg Htable w1 df1 Hrun.
  destruct (run_needs_attachment fuel w w1 df1 Hcfg Hrun)
    as (done & rs0 & w0 & w' & rs & r & Hload & Hloop & Hr & Hkey).
  unfold load_prior in Hload. rewrite Hfile in Hload.
  injection Hload as <- <- <-.
  assert (Forall (fun r : Response => assoc "attachment" r = None) rs) as Hall.
  { eapply (crawl_loop_Forall _ [] fuel); [| |exact Hloop].
    - intros url w2 w3 r'. by apply get_response_no_attachment.
    - simpl. constructor. }
  eapply Forall_forall in Hall; [|exact Hr].
  apply assoc_None in Hall. done.
Qed.

(** X17: a fresh run on a consultation whose listing pages name no
    response never returns a frame when it is to extract text or to
    cluster: the frame made from no responses has no column
    [attachment]. *)
Theorem download_responses_empty_consultation (fuel : nat) w :
  file w = None ->
  extract_text_attachment cfg || components cfg = true ->
  (forall p urls, get_result_urls (listing p) = Ok urls -> urls = []) ->
  forall w1 df1,
    download_responses listing response_page read_back py_int textract_process
      cfg fuel w ≠ (w1, Ok df1).
Proof.
  intros Hfile Hcfg Hempty w1 df1 Hrun.
  destruct (run_needs_attachment fuel w w1 df1 Hcfg Hrun)
    as (done & rs0 & w0 & w' & rs & r & Hload & Hloop & Hr & _).
  unfold load_prior in Hload. rewrite Hfile in Hload.
  injection Hload as <- <- <-.
  apply crawl_loop_inv in Hloop as (M & new & _ & -> & Hnew).
  assert (forall l : list Z, (p ← l; new_urls listing [] p) = []) as Hnone.
  { induction l as [|p l IH]; [done|]. rewrite bind_cons, IH, app_nil_r.
    unfold new_urls, page_urls.
    destruct (get_result_urls (listing p)) as [urls| |] eqn:Hp; [|done..].
    by rewrite (Hempty p urls Hp). }
  rewrite Hnone in Hnew. apply fmap_nil_inv in Hnew. subst new.
  by apply elem_of_nil in Hr.
Qed.

(** Code that leaves the file alone. *)
Definition keeps_file {A} (m : M A) : Prop :=
  forall w, file (m w).1 = file w.

Lemma keeps_file_lift {A} (o : outcome A) : keeps_file (lift o).
Proof. done. Qed.

Lemma keeps_file_ret {A} (a : A) : keeps_file (mret a : M A).
Proof. done. Qed.

Lemma keeps_file_emit (e : Event) : keeps_file (emit e).
Proof. done. Qed.

Lemma keeps_file_mbind {A B} (m : M A) (f : A -> M B) :
  keeps_file m ->
  (forall w w' a, m w = (w', Ok a) -> keeps_file (f a)) ->
  keeps_file (m ≫= f).
Proof.
  intros Hm Hf w. unfold mbind, M_bind, bind. specialize (Hm w).
  destruct (m w) as [w1 [a| |]] eqn:Hw; simpl in *; [|done..].
  by rewrite (Hf w w1 a Hw w1).
Qed.

Lemma keeps_file_mapM {A B} (f : A -> M B) (l : list A) :
  (forall x, keeps_file (f x)) -> keeps_file (mapM f l).
Proof.
  intros Hf. induction l as [|x l IH]; cbn [mapM]; [apply keeps_file_ret|].
  apply keeps_file_mbind; [done|]. intros _ _ y _.
  apply keeps_file_mbind; [done|]. intros _ _ ys _. apply keeps_file_ret.
Qed.

Lemma keeps_file_get_response (url : string) :
  keeps_file (get_response response_page cfg url).
Proof.
  unfold get_response, download_files.
  apply keeps_file_mbind; [apply keeps_file_emit|]. intros _ _ _ _. cbv zeta.
  apply keeps_file_mbind; [apply keeps_file_lift|]. intros _ _ d _.
  destruct (download_attachments cfg); [|apply keeps_file_ret].
  apply keeps_file_mbind; [|intros; apply keeps_file_ret].
  apply keeps_file_mbind; [|intros; apply keeps_file_ret].
  apply keeps_file_mapM. intros id.
  apply keeps_file_mbind; [apply keeps_file_emit|]. intros _ _ _ _.
  apply keeps_file_emit.
Qed.

(** An iteration for a page that is not a multiple of ten. *)
Lemma keeps_file_crawl_body (done : list Cell) st :
  page st mod 10 ≠ 0 ->
  keeps_file (crawl_body listing response_page cfg done st).
Proof.
  intros Hpage. unfold crawl_body.
  destruct (Z.eqb_spec (page st mod 10) 0) as [|_]; [done|]. simpl.
  apply keeps_file_mbind; [apply keeps_file_ret|]. intros _ _ _ _.
  apply keeps_file_mbind; [apply keeps_file_emit|]. intros _ _ _ _. cbv zeta.
  apply keeps_file_mbind; [apply keeps_file_lift|]. intros _ _ urls _.
  apply keeps_file_mbind.
  { apply keeps_file_mapM. intros url. apply keeps_file_get_response. }
  intros _ _ new _.
  apply keeps_file_mbind.
  { destruct (falsy_int _); apply keeps_file_lift. }
  intros _ _ M' _. destruct (M' <? page st + 1); [apply keeps_file_ret|].
  apply keeps_file_mbind; [apply keeps_file_emit|]. intros.
  apply keeps_file_ret.
Qed.

Lemma keeps_file_crawl_loop_rest (done : list Cell) (M : Z) (fuel : nat) :
  M < 10 ->
  forall st,
    max_page st = Some M -> 1 <= page st <= M ->
    keeps_file (crawl_loop listing response_page cfg fuel done st).
Proof.
  intros HM. induction fuel as [|fuel IH]; intros st Hmax Hpage;
    cbn [crawl_loop]; [apply keeps_file_lift|].
  apply keeps_file_mbind.
  { apply keeps_file_crawl_body. rewrite Z.mod_small; lia. }
  intros w w' r Hbody.
  apply crawl_body_inv in Hbody as (M' & new & HM' & -> & _).
  rewrite Hmax in HM'. simpl in HM'.
  destruct (Z.eqb_spec M 0); [lia|]. injection HM' as <-.
  unfold after_page. destruct (Z.ltb_spec M (page st + 1));
    [apply keeps_file_ret|].
  apply IH; simpl; [done | lia].
Qed.

Lemma keeps_file_crawl_loop (done : list Cell) (fuel : nat) rs :
  (forall M, read_max_page (listing 1) = Ok M -> M < 10) ->
  keeps_file (crawl_loop listing response_page cfg fuel done
                {| page := 1; max_page := None; responses := rs |}).
Proof.
  intros HM. destruct fuel as [|fuel]; cbn [crawl_loop];
    [apply keeps_file_lift|].
  apply keeps_file_mbind; [by apply keeps_file_crawl_body|].
  intros w w' r Hbody.
  apply crawl_body_inv in Hbody as (M' & new & HM' & -> & _).
  simpl in HM'. apply HM in HM'.
  unfold after_page. simpl. destruct (Z.ltb_spec M' (1 + 1));
    [apply keeps_file_ret|].
  apply (keeps_file_crawl_loop_rest done M' fuel HM'); simpl; [done | lia].
Qed.

(** X18: on a consultation of fewer than ten listing pages nothing is
    saved before the end: a run that does not return a frame (a
    request, the parsing, the text extraction or the clustering
    raised) leaves the file exactly as it found it, so on a fresh
    start everything fetched so far is lost. *)
Theorem download_responses_failure_keeps_file (fuel : nat) w w' 
    (o : outcome DataFrame) :
  (forall M, read_max_page (listing 1) = Ok M -> M < 10) ->
  download_responses listing response_page read_back py_int textract_process
    cfg fuel w = (w', o) ->
  (forall df, o ≠ Ok df) ->
  file w' = file w.
Proof.
  intros HM Hrun Hfail. unfold download_responses in Hrun.
  unfold mbind at 1, M_bind, bind at 1 in Hrun.
  assert ((load_prior read_back w).1 = w) as Hw0.
  { unfold load_prior. by destruct (file w). }
  destruct (load_prior read_back w) as [w0 [[done rs0]| |]];
    simpl in Hw0; subst w0; [|by injection Hrun as <- _..].
  unfold mbind at 1, M_bind, bind at 1 in Hrun.
  pose proof (keeps_file_crawl_loop done fuel rs0 HM w) as Hloop.
  destruct (crawl_loop listing response_page cfg fuel done _ w)
    as [w1 [rs| |]]; simpl in Hloop; [|by injection Hrun as <- _..].
  cbv zeta in Hrun. rewrite <- Hloop.
  unfold mbind, M_bind, bind, lift, mret, M_ret, ret, to_excel in Hrun.
  destruct (extract_text_attachment cfg || components cfg);
    [destruct (extract_text py_int textract_process (DataFrame_of rs))
       as [df_a| |]|];
    try (by injection Hrun as <- _);
    destruct (components cfg);
    try (injection Hrun as _ <-; by edestruct Hfail);
    match type of Hrun with
    | context [add_components ?a ?b ?c ?d ?e] =>
        destruct (add_components a b c d e) as [df_b| |]
    end;
    try (by injection Hrun as <- _);
    injection Hrun as _ <-; by edestruct Hfail.
Qed.

Lemma elem_of_column_names_DataFrame_of rs (c : string) :
  c ∈ column_names (DataFrame_of rs) <-> exists r, r ∈ rs /\ c ∈ r.*1.
Proof.
  rewrite <- (elem_of_first_keys response_page py_int).
  unfold column_names, DataFrame_of. cbn [columns].
  rewrite <- list_fmap_compose. split.
  - by intros (c' & -> & Hin)%list_elem_of_fmap.
  - intros Hin. apply list_elem_of_fmap. by exists c.
Qed.

Lemma get_response_no_name (url : string) w w' (r : Response) :
  name cfg = false ->
  get_response response_page cfg url w = (w', Ok r) ->
  assoc "Naam" r = None.
Proof.
  intros Hname Hget.
  destruct (table (response_page url)) as [rows|] eqn:Hrows.
  - destruct (get_response_dict response_page cfg url w rows Hrows)
      as (d & r' & _ & Hr & _ & _ & _ & HNaam & _).
    rewrite Hget in Hr. injection Hr as _ <-. by rewrite HNaam, Hname.
  - unfold get_response in Hget.
    rewrite (mbind_ok _ _ w (emit (GetResponse url) w).1 tt) in Hget by done.
    by rewrite Hrows in Hget.
Qed.

(** X24: the frame that a fresh run returns when it is not to keep
    names (the default) has no column [Naam], whatever the overview
    tables of the responses hold; it is the frame that is saved. *)
Theorem download_responses_anonymous (fuel : nat) w w1 (df1 : DataFrame) :
  file w = None ->
  name cfg = false ->
  download_responses listing response_page read_back py_int textract_process
    cfg fuel w = (w1, Ok df1) ->
  ("Naam" ∉ column_names df1) /\ file w1 = Some df1.
Proof.
  intros Hfile Hname Hrun.
  apply download_responses_inv in Hrun
    as (seen & rs0 & w0 & w' & rs & df_a & Hload & Hloop & Ha & Hb & Hsaved).
  split; [|done].
  unfold load_prior in Hload. rewrite Hfile in Hload.
  injection Hload as <- <- <-.
  assert (Forall (fun r : Response => assoc "Naam" r = None) rs) as Hall.
  { eapply (crawl_loop_Forall _ [] fuel); [| |exact Hloop].
    - intros url w2 w3 r'. by apply get_response_no_name.
    - simpl. constructor. }
  assert ("Naam" ∉ column_names (DataFrame_of rs)) as Hrs.
  { intros (r & Hr & Hkey)%elem_of_column_names_DataFrame_of.
    eapply Forall_forall in Hall; [|exact Hr].
    by apply assoc_None in Hall. }
  assert (well_formed df_a /\ "Naam" ∉ column_names df_a) as [Hwfa Hdfa].
  { destruct (_ || _).
    - apply extract_text_spec in Ha as (_ & Hwf & _ & Hnames & _);
        [|apply well_formed_DataFrame_of].
      split; [done|]. rewrite Hnames.
      intros [Hin|Hin]%elem_of_app; [done|].
      destruct (decide _); [by apply elem_of_nil in Hin|].
      by apply list_elem_of_singleton in Hin.
    - injection Ha as <-. split; [apply well_formed_DataFrame_of | done]. }
  destruct (components cfg); [|by injection Hb as <-].
  destruct (add_components_components py_int textract_process df_a _ _ _
              Hwfa Hb)
    as (df2 & n_grams & comps & col & _ & (_ & Hnames & _) & _ & Hnames2 & _).
  rewrite Hnames, Hnames2.
  intros [[Hin|Hin]%elem_of_app|Hin]%elem_of_app; [done|..].
  - destruct (decide ("component" ∈ column_names df_a));
      [by apply elem_of_nil in Hin|].
    by apply list_elem_of_singleton in Hin.
  - destruct (decide ("text_attachment" ∈ column_names df_a));
      [by apply elem_of_nil in Hin|].
    by apply list_elem_of_singleton in Hin.
Qed.

Lemma map_outcome_numbers (links : list (option Z)) (numbers : list Z) :
  map_outcome (fun t : option Z =>
                 match t with
                 | Some k => Ok k
                 | None => Raise ValueError
                 end) links = Ok numbers
  <-> links = Some <$> numbers.
Proof.
  revert numbers. induction links as [|[k|] links IH]; intros numbers; simpl.
  - split; [by intros [= <-] | by destruct numbers].
  - destruct (map_outcome _ links) as [ks| |] eqn:Hks; simpl.
    + split.
      * intros [= <-]. rewrite fmap_cons. f_equal. by apply IH.
      * destruct numbers as [|k' ks']; [done|]. rewrite fmap_cons.
        intros [= -> Hlinks]. apply IH in Hlinks. congruence.
    + split; [done|]. destruct numbers as [|k' ks']; [done|].
      rewrite fmap_cons. intros [= -> Hlinks]. by apply IH in Hlinks.
    + split; [done|]. destruct numbers as [|k' ks']; [done|].
      rewrite fmap_cons. intros [= -> Hlinks]. by apply IH in Hlinks.
  - split; [done|]. by destruct numbers.
Qed.

Lemma fold_left_max (rest : list Z) (k : Z) :
  fold_left Z.max rest k ∈ k :: rest
  /\ forall x, x ∈ k :: rest -> x <= fold_left Z.max rest k.
Proof.
  revert k. induction rest as [|y rest IH]; intros k; simpl.
  - split; [by left|]. intros x ->%list_elem_of_singleton. lia.
  - destruct (IH (Z.max k y)) as [Hin Hle]. split.
    + apply elem_of_cons in Hin as [Heq|Hin]; [|by do 2 right].
      rewrite Heq. destruct (Z.max_spec k y) as [[_ ->]|[_ ->]];
        [right; by left | by left].
    + intros x [->|[->|Hx]%elem_of_cons]%elem_of_cons.
      * etrans; [|apply Hle; by left]. lia.
      * etrans; [|apply Hle; by left]. lia.
      * apply Hle. by right.
Qed.

(** X25: the page bound that [read_max_page] reads is the largest of the
    numbers on the pagination links: it returns [M] exactly when the
    page has the pagination block, every link with an [href] in it
    shows a number, [M] is one of these numbers and none is larger. *)
Theorem read_max_page_spec (soup : Soup) (M : Z) :
  read_max_page soup = Ok M
  <-> exists numbers : list Z,
        pagination soup = Some (Some <$> numbers)
        /\ M ∈ numbers
        /\ forall k, k ∈ numbers -> k <= M.
Proof.
  unfold read_max_page. split.
  - destruct (pagination soup) as [links|]; [|done].
    destruct (map_outcome _ links) as [numbers| |] eqn:Hnum; simpl; try done.
    apply map_outcome_numbers in Hnum as ->.
    destruct numbers as [|k rest]; [done|]. intros [= <-].
    exists (k :: rest). split; [done|]. apply fold_left_max.
  - intros (numbers & -> & Hin & Hmax).
    rewrite (proj2 (map_outcome_numbers _ numbers) eq_refl). simpl.
    destruct numbers as [|k rest]; [by apply elem_of_nil in Hin|].
    f_equal. destruct (fold_left_max rest k) as [Hin' Hle].
    apply Z.le_antisymm; [by apply Hmax | by apply Hle].
Qed.

End RunFacts.

(** ** The consultations *)

Section ConsultationFacts.
Import Frame Consultations.

Variable listing : string -> Crawl.Soup.
Variable consultation_page : string -> ConsultationPage.
Variable read_back :
  list Consultation -> outcome (list Value * list Consultation).
Variable ExcelWriter : outcome unit.
Variable save_html : bool.

Implicit Types (w : World) (c : Consultation) (key : string).

Lemma consult_bind_ok {A B} (m : M A) (f : A -> M B) w w1 a :
  m w = (w1, Ok a) -> (m ≫= f) w = f a w1.
Proof. intros H. unfold mbind, M_bind, bind. by rewrite H. Qed.

Lemma consult_bind_inv {A B} (m : M A) (f : A -> M B) w w2 b :
  (m ≫= f) w = (w2, Ok b) ->
  exists w1 a, m w = (w1, Ok a) /\ f a w1 = (w2, Ok b).
Proof.
  unfold mbind, M_bind, bind. destruct (m w) as [w1 [a| |]]; try done.
  intros H. by exists w1, a.
Qed.

Lemma assoc_dict_put c key key' (v : Value) :
  assoc key' (dict_put c key v)
  = if decide (key' = key) then Some v else assoc key' c.
Proof.
  induction c as [|[k0 v0] c IH]; simpl.
  - destruct (decide (key = key')), (decide (key' = key)); congruence.
  - destruct (decide (k0 = key)) as [->|Hne]; simpl.
    + destruct (decide (key = key')), (decide (key' = key)); congruence.
    + rewrite IH. destruct (decide (k0 = key')), (decide (key' = key));
        congruence.
Qed.

(** *** The name of the saved html *)

Definition slash_free (s : string) : Prop :=
  Forall (fun a => a ≠ "/"%char) (list_ascii_of_string s).

Lemma prefix_append (old t : string) : String.prefix old (old +:+ t) = true.
Proof.
  induction old as [|a old IH]; [by destruct t|].
  rewrite append_cons. simpl. by destruct (ascii_dec a a).
Qed.

Lemma replace_from_skip (old new u t : string) :
  replace_from old new (String.length u) (u +:+ t) = replace_from old new 0 t.
Proof.
  induction u as [|a u IH]; [by rewrite append_empty_l|].
  rewrite append_cons. simpl. exact IH.
Qed.

Lemma replace_prefix (a : ascii) (old new t : string) :
  replace (String a old +:+ t) (String a old) new
  = new +:+ replace t (String a old) new.
Proof.
  unfold replace. rewrite append_cons. cbn [replace_from].
  change (String a (old +:+ t)) with (String a old +:+ t).
  rewrite prefix_append.
  replace (String.length (String a old) - 1)%nat with (String.length old)
    by (simpl; lia).
  by rewrite replace_from_skip.
Qed.

Lemma prefix_inv (old s : string) :
  String.prefix old s = true -> exists t, s = old +:+ t.
Proof.
  revert s. induction old as [|a old IH]; intros s.
  - intros _. by exists s.
  - destruct s as [|b s]; [done|]. cbn [String.prefix].
    destruct (ascii_dec a b) as [<-|]; [|done].
    intros [t ->]%IH. by exists t.
Qed.

Lemma prefix_BASE_slash_free (s : string) :
  slash_free s -> String.prefix Crawl.BASE s = false.
Proof.
  intros Hs. destruct (String.prefix Crawl.BASE s) eqn:Hp; [exfalso|done].
  apply prefix_inv in Hp as [t ->].
  unfold slash_free, Crawl.BASE in Hs. rewrite !append_cons in Hs.
  cbn [list_ascii_of_string] in Hs.
  do 6 (apply Forall_cons in Hs as [_ Hs]).
  by apply Forall_cons in Hs as [? _].
Qed.

Lemma replace_BASE_slash_free (s : string) :
  slash_free s -> replace_from Crawl.BASE "" 0 s = s.
Proof.
  induction s as [|a s IH]; [done|]. intros Hs. cbn [replace_from].
  rewrite prefix_BASE_slash_free by done. f_equal. apply IH.
  unfold slash_free in *. cbn [list_ascii_of_string] in Hs.
  by apply Forall_cons in Hs as [_ ?].
Qed.

Lemma replace_slash_free (s : string) :
  slash_free s -> replace_from "/" "_" 0 s = s.
Proof.
  induction s as [|a s IH]; [done|]. unfold slash_free.
  cbn [list_ascii_of_string].
  intros [Ha Hs]%Forall_cons. cbn [replace_from String.prefix].
  destruct (ascii_dec "/" a) as [<-|_]; [done|].
  f_equal. by apply IH.
Qed.

(** X19: the html of the consultation at [BASE/slug], for a [slug]
    without a slash, is saved under the name [slug]: the base of the
    url goes, the slash becomes an underscore, and the underscore at
    the start is dropped. *)
Theorem html_filename_slug (slug : string) :
  slash_free slug ->
  html_filename (Crawl.BASE +:+ "/" +:+ slug) = slug.
Proof.
  intros Hs. unfold html_filename. unfold Crawl.BASE at 1 2.
  rewrite replace_prefix. rewrite append_empty_l.
  fold Crawl.BASE. rewrite append_cons, append_empty_l.
  unfold replace at 2. cbn [replace_from].
  replace (String.prefix Crawl.BASE (String "/" slug)) with false
    by reflexivity.
  rewrite replace_BASE_slash_free by done.
  unfold replace. cbn [replace_from String.prefix]. simpl.
  replace (String.prefix "" slug) with true by (by destruct slug).
  rewrite replace_slash_free by done. done.
Qed.

(** [html_filename_slug] on the slug [wetsvoorstel]. *)
Lemma html_filename_slug_witness :
  html_filename (Crawl.BASE +:+ "/" +:+ "wetsvoorstel") = "wetsvoorstel".
Proof.
  apply (html_filename_slug "wetsvoorstel"). repeat constructor; discriminate.
Defined.

(** *** One consultation *)

(** X20: what [parse_consultation] returns.  For a page that holds the
    notice that the site is unavailable it is the dict with the url
    alone, and nothing but the request has happened (no pause, no html
    written).  Otherwise the dict holds the heading under [title], the
    url it was given under [url] (a table row of that name is
    overwritten), the presence of the report link under [report], under
    [nr_responses] the first of the two tokens of the sublabel or, when
    the page has no sublabel, the first match of [NR_RESP] or [None],
    and the name of the saved html under [html] when html is saved. *)
Theorem parse_consultation_result (url : string) w w' c :
  parse_consultation consultation_page save_html url w = (w', Ok c) ->
  let pg := consultation_page url in
  if unavailable pg then
    c = [("url", VCell (CStr url))]
    /\ w' = {| file := file w; trace := trace w ++ [GetConsultation url] |}
  else
    assoc "url" c = Some (VCell (CStr url))
    /\ assoc "report" c = Some (VBool (report_link pg))
    /\ (exists title, heading pg = Some title
                      /\ assoc "title" c = Some (VCell (CStr title)))
    /\ (exists nr, assoc "nr_responses" c = Some (VCell nr)
                   /\ match sublabel pg with
                      | Some text =>
                          exists first second,
                            Text.split text = [first; second]
                            /\ nr = CStr first
                      | None =>
                          nr = match nr_matches pg with
                               | first :: _ => CStr first
                               | [] => CNone
                               end
                      end)
    /\ (save_html = true ->
        assoc "html" c = Some (VCell (CStr (html_filename url))))
    /\ file w' = file w.
Proof.
  unfold parse_consultation. intros (w0 & [] & Hreq & H)%consult_bind_inv.
  cbv zeta in *. injection Hreq as <-.
  destruct (unavailable (consultation_page url)).
  { by injection H as <- <-. }
  apply consult_bind_inv in H as (w1 & table & Htable & H).
  apply consult_bind_inv in H as (w2 & title & Htitle & H).
  apply consult_bind_inv in H as (w3 & nr & Hnr & H).
  apply consult_bind_inv in H as (w4 & c4 & Hhtml & H).
  apply consult_bind_inv in H as (w5 & [] & Hsleep & [= <- <-]).
  unfold lift in Htable, Htitle, Hnr.
  injection Htable as <- _. injection Htitle as <- Htitle.
  injection Hnr as <- Hnr. injection Hsleep as <-.
  assert (file w4 = file w
          /\ (forall key, key ≠ "html" ->
                assoc key c4
                = assoc key
                    (dict_put
                       (dict_put
                          (dict_put
                             (dict_put
                                ((fun kv : string * Cell => (kv.1, VCell kv.2))
                                   <$> table)
                                "title" (VCell (CStr title)))
                             "nr_responses" (VCell nr))
                          "url" (VCell (CStr url)))
                       "report"
                       (VBool (report_link (consultation_page url)))))
          /\ (save_html = true ->
              assoc "html" c4 = Some (VCell (CStr (html_filename url)))))
    as (Hfile & Hkeys & Hsaved).
  { destruct save_html.
    - apply consult_bind_inv in Hhtml as (w6 & [] & [= <-] & [= <- <-]).
      split; [done|]. split.
      + intros key Hkey. by rewrite assoc_dict_put, decide_False.
      + intros _. by rewrite assoc_dict_put, decide_True.
    - injection Hhtml as <- <-. done. }
  split; [by rewrite Hkeys, !assoc_dict_put|].
  split; [by rewrite Hkeys, !assoc_dict_put|].
  split.
  { exists title. split; [|by rewrite Hkeys, !assoc_dict_put].
    destruct (heading (consultation_page url)) as [t|]; [|done].
    by injection Htitle as ->. }
  split; [|done].
  exists nr. split; [by rewrite Hkeys, !assoc_dict_put|].
  unfold nr_responses in Hnr.
  destruct (sublabel (consultation_page url)) as [text|].
  - destruct (Text.split text) as [|t [|t' [|]]]; try done.
    injection Hnr as <-. by exists t, t'.
  - by injection Hnr as <-.
Qed.

(** X21: a sublabel whose text does not split into exactly two tokens
    makes [parse_consultation] raise [ValueError] (the unpacking of
    line 264 is guarded against [AttributeError] only), on a page that
    is available and has the overview table and a heading. *)
Theorem parse_consultation_sublabel_tokens (url text : string) w :
  unavailable (consultation_page url) = false ->
  is_Some (overview (consultation_page url)) ->
  is_Some (heading (consultation_page url)) ->
  sublabel (consultation_page url) = Some text ->
  length (Text.split text) ≠ 2%nat ->
  parse_consultation consultation_page save_html url w
  = ({| file := file w; trace := trace w ++ [GetConsultation url] |},
     Raise ValueError).
Proof.
  intros Hav [rows Hrows] [title Htitle] Hsub Hlen. unfold parse_consultation.
  rewrite (consult_bind_ok _ _ w (emit (GetConsultation url) w).1 tt) by done.
  cbv zeta. rewrite Hav, Hrows, Htitle. unfold nr_responses. rewrite Hsub.
  destruct (Text.split text) as [|t [|t' [|]]]; try done.
Qed.

(** *** The loop over the listing pages *)

Lemma consult_body_raises (done : list Value) (nxt : string) (i : Z)
    (consultations : list Consultation) w w' r :
  consult_body listing consultation_page ExcelWriter save_html done nxt i
    consultations w ≠ (w', Ok r).
Proof.
  unfold consult_body. intros (w1 & [] & _ & H)%consult_bind_inv.
  apply consult_bind_inv in H as (w2 & [] & _ & H). cbv zeta in H.
  apply consult_bind_inv in H as (w3 & urls & _ & H).
  apply consult_bind_inv in H as (w4 & new & _ & H).
  by apply consult_bind_inv in H as (w5 & nxt' & [=] & _).
Qed.

Lemma consult_loop_raises (fuel : nat) (done : list Value) (nxt : string)
    (i : Z) (consultations : list Consultation) w w' cs :
  nxt ≠ "" ->
  consult_loop listing consultation_page ExcelWriter save_html fuel done
    (Some nxt) i consultations w ≠ (w', Ok cs).
Proof.
  intros Hnxt. destruct fuel as [|fuel]; cbn [consult_loop];
    rewrite decide_False by done; [done|].
  intros (w1 & r & Hbody & _)%consult_bind_inv.
  by apply consult_body_raises in Hbody.
Qed.

(** X22: [download_consultations] never returns a frame, whatever the
    site, the stored file and the setting of [save_html]: the first
    pass through its loop cannot get past the call of the undefined
    [get_next_link]. *)
Theorem download_consultations_never_returns (fuel : nat) w w' cs :
  download_consultations listing consultation_page read_back ExcelWriter
    save_html fuel w ≠ (w', Ok cs).
Proof.
  unfold download_consultations.
  intros (w0 & [done cs0] & _ & H)%consult_bind_inv.
  apply consult_bind_inv in H as (w1 & cs1 & Hloop & _).
  apply consult_loop_raises in Hloop; [done|]. apply BASE_append.
Qed.

(** Code that leaves the file alone. *)
Definition leaves_file {A} (m : M A) : Prop :=
  forall w, file (m w).1 = file w.

Lemma leaves_file_bind {A B} (m : M A) (f : A -> M B) :
  leaves_file m -> (forall a, leaves_file (f a)) -> leaves_file (m ≫= f).
Proof.
  intros Hm Hf w. unfold mbind, M_bind, bind. specialize (Hm w).
  destruct (m w) as [w1 [a| |]]; simpl in *; [|done..].
  by rewrite Hf.
Qed.

Lemma leaves_file_mapM {A B} (f : A -> M B) (l : list A) :
  (forall x, leaves_file (f x)) -> leaves_file (mapM f l).
Proof.
  intros Hf. induction l as [|x l IH]; cbn [mapM]; [done|].
  apply leaves_file_bind; [done|]. intros y.
  apply leaves_file_bind; [done|]. by intros ys.
Qed.

Lemma leaves_file_parse_consultation (url : string) :
  leaves_file (parse_consultation consultation_page save_html url).
Proof.
  unfold parse_consultation.
  apply leaves_file_bind; [done|]. intros _. cbv zeta.
  destruct (unavailable _); [done|].
  apply leaves_file_bind; [done|]. intros table.
  apply leaves_file_bind; [done|]. intros title.
  apply leaves_file_bind; [done|]. intros nr.
  apply leaves_file_bind.
  { destruct save_html; [|done].
    apply leaves_file_bind; [done|]. by intros _. }
  intros c. apply leaves_file_bind; [done|]. by intros _.
Qed.

(** The part of a pass through the loop that follows the checkpoint. *)
Definition after_checkpoint (done : list Value) (nxt : string)
    (consultations : list Consultation)
  : M (option string * list Consultation) :=
  _ ← emit (GetListing nxt);
  result_urls ← lift (Crawl.get_result_urls (listing nxt));
  new ← mapM (parse_consultation consultation_page save_html)
             (filter (fun url => VCell (CStr url) ∉ done) result_urls);
  nxt' ← lift (get_next_link (listing nxt));
  _ ← emit Sleep;
  mret (nxt', consultations ++ new).

Lemma leaves_file_after_checkpoint (done : list Value) (nxt : string)
    (consultations : list Consultation) :
  leaves_file (after_checkpoint done nxt consultations).
Proof.
  unfold after_checkpoint. apply leaves_file_bind; [done|]. intros _.
  apply leaves_file_bind; [done|]. intros urls.
  apply leaves_file_bind.
  { apply leaves_file_mapM. intros url.
    apply leaves_file_parse_consultation. }
  intros new. apply leaves_file_bind; [done|]. intros nxt'.
  apply leaves_file_bind; [done|]. by intros _.
Qed.

(** The file after one pass through the loop: untouched, or rewritten
    from the consultations the pass started with, when there are any. *)
Lemma consult_body_file (done : list Value) (nxt : string) (i : Z)
    (consultations : list Consultation) w :
  file (consult_body listing consultation_page ExcelWriter save_html done nxt
          i consultations w).1 = file w
  \/ (consultations ≠ []
      /\ file (consult_body listing consultation_page ExcelWriter save_html
                 done nxt i consultations w).1 = Some consultations).
Proof.
  change (consult_body listing consultation_page ExcelWriter save_html done
            nxt i consultations)
    with (_ ← (if (i mod 10 =? 0) && negb (bool_decide (consultations = []))
               then _ ← write_through ExcelWriter consultations;
                    to_excel consultations
               else mret tt);
          after_checkpoint done nxt consultations).
  pose proof (leaves_file_after_checkpoint done nxt consultations) as Hrest.
  destruct (i mod 10 =? 0); simpl;
    [destruct (bool_decide_reflect (consultations = [])) as [|Hne]; simpl|].
  - left. unfold mbind, M_bind, bind. simpl. apply Hrest.
  - unfold write_through, mbind, M_bind, bind, lift.
    destruct ExcelWriter as [[]| |]; simpl; [|by left..].
    right. split; [done|]. by rewrite Hrest.
  - left. unfold mbind, M_bind, bind. simpl. apply Hrest.
Qed.

(** X23: whatever [download_consultations] fetches is never stored.
    When it stops, the file is as it was, or (when the stored file
    could be read and held rows) it has been rewritten from the very
    rows that were read from it. *)
Theorem download_consultations_stores_nothing_new (fuel : nat) w :
  let w' := (download_consultations listing consultation_page read_back
               ExcelWriter save_html fuel w).1 in
  file w' = file w
  \/ exists stored done rows,
       file w = Some stored
       /\ read_back stored = Ok (done, rows)
       /\ file w' = Some rows.
Proof.
  assert (forall done rows,
            exists w1 o,
              consult_loop listing consultation_page ExcelWriter save_html
                fuel done (Some (Crawl.BASE +:+ "/geslotenconsultaties"))
                0 rows w = (w1, o)
              /\ (forall cs, o ≠ Ok cs)
              /\ (file w1 = file w
                  \/ (rows ≠ [] /\ file w1 = Some rows))) as Hloop.
  { intros done rows. destruct fuel as [|fuel]; cbn [consult_loop];
      rewrite decide_False by apply BASE_append.
    { exists w, OutOfFuel. split; [done|]. split; [done | by left]. }
    unfold mbind, M_bind, bind.
    pose proof (consult_body_file done
                  (Crawl.BASE +:+ "/geslotenconsultaties") 0 rows w) as Hfile.
    destruct (consult_body listing consultation_page ExcelWriter save_html
                done (Crawl.BASE +:+ "/geslotenconsultaties") 0 rows w)
      as [w1 [r| |]] eqn:Hbody.
    - by apply consult_body_raises in Hbody.
    - by exists w1, (Raise e).
    - by exists w1, OutOfFuel. }
  cbv zeta.
  destruct (download_consultations listing consultation_page read_back
              ExcelWriter save_html fuel w) as [w' o] eqn:Hrun.
  simpl. unfold download_consultations in Hrun.
  unfold mbind at 1, M_bind, bind at 1, load_prior in Hrun.
  destruct (file w) as [stored|] eqn:Hfile.
  - destruct (read_back stored) as [[urls rows]| |] eqn:Hread;
      [|injection Hrun as <- _; by left..].
    destruct (Hloop urls rows) as (w1 & o1 & Hrun1 & Hfail & Hw1).
    unfold mbind at 1, M_bind, bind at 1 in Hrun. rewrite Hrun1 in Hrun.
    destruct o1 as [cs|e|]; [by destruct (Hfail cs)|..];
      injection Hrun as <- _;
      (destruct Hw1 as [Hw1|[_ Hw1]]; [left; congruence|]);
      right; by exists stored, urls, rows.
  - destruct (Hloop [] []) as (w1 & o1 & Hrun1 & Hfail & Hw1).
    unfold mbind at 1, M_bind, bind at 1 in Hrun. rewrite Hrun1 in Hrun.
    destruct o1 as [cs|e|]; [by destruct (Hfail cs)|..];
      injection Hrun as <- _;
      (destruct Hw1 as [Hw1|[Hne _]]; [left; congruence | done]).
Qed.

End ConsultationFacts.

(** ** Resuming: the records of the prior state and of a restart *)

Section ResumeFacts.
Import Text Similarity Frame Cluster Crawl.

Variable listing : Z -> Soup.
Variable response_page : string -> ResponsePage.
Variable read_back : DataFrame -> DataFrame.
Variable py_int : string -> option Z.
Variable textract_process : Z -> outcome string.
Variable cfg : Config.

Implicit Types (w : World) (rs : list Response) (df : DataFrame) (c : string).

(** The cell that a record gives to the column [c] of the frame made
    from it: its value under [c], or [nan] when it lacks the key. *)
Definition cell_of c (r : Response) : Cell := default CNaN (assoc c r).

(** *** Frames and the dicts of their rows *)

Lemma rows_of_column df c (col : list Cell) :
  well_formed df -> get_column df c = Some col ->
  cell_of c <$> rows_of df = col.
Proof.
  intros Hwf Hcol. pose proof (well_formed_column _ _ _ Hwf Hcol) as Hlen.
  unfold rows_of, get_column in *.
  rewrite <- list_fmap_compose, <- Hlen.
  rewrite <- (fmap_lookup_seq CNaN col) at 2.
  apply list_fmap_ext. intros _ i _. unfold cell_of. simpl.
  rewrite (assoc_fmap_val (fun x : list Cell => default CNaN (x !! i))).
  by rewrite Hcol.
Qed.

Lemma rows_of_keys df (r : Response) :
  r ∈ rows_of df -> r.*1 = column_names df.
Proof.
  unfold rows_of. intros (i & -> & _)%list_elem_of_fmap.
  unfold column_names. rewrite <- list_fmap_compose.
  by apply list_fmap_ext.
Qed.

Lemma length_rows_of df : length (rows_of df) = nrows df.
Proof. unfold rows_of. by rewrite length_fmap, length_seq. Qed.

Lemma NoDup_add_keys (keys acc : list string) :
  NoDup acc ->
  NoDup (fold_left (fun acc key =>
                      if decide (key ∈ acc) then acc else acc ++ [key])
                   keys acc).
Proof.
  revert acc. induction keys as [|key keys IH]; intros acc Hacc; [done|].
  simpl. apply IH. destruct (decide (key ∈ acc)) as [|Hnin]; [done|].
  apply NoDup_app. split; [done|]. split; [|apply NoDup_singleton].
  by intros x Hx ->%list_elem_of_singleton.
Qed.

Lemma NoDup_first_keys rs : NoDup (first_keys rs).
Proof. apply NoDup_add_keys, NoDup_nil_2. Qed.

Lemma add_keys_known (keys acc : list string) :
  (forall key, key ∈ keys -> key ∈ acc) ->
  fold_left (fun acc key =>
               if decide (key ∈ acc) then acc else acc ++ [key])
            keys acc = acc.
Proof.
  induction keys as [|key keys IH]; intros Hin; [done|]. simpl.
  rewrite decide_True by (apply Hin; by left).
  apply IH. intros k Hk. apply Hin. by right.
Qed.

Lemma add_keys_fresh (keys acc : list string) :
  NoDup (acc ++ keys) ->
  fold_left (fun acc key =>
               if decide (key ∈ acc) then acc else acc ++ [key])
            keys acc = acc ++ keys.
Proof.
  revert acc. induction keys as [|key keys IH]; intros acc Hnd.
  - by rewrite app_nil_r.
  - simpl. rewrite decide_False.
    + rewrite IH; rewrite <- app_assoc; done.
    + apply NoDup_app in Hnd as (_ & Hdisj & _). intros Hin.
      apply (Hdisj key Hin). by left.
Qed.

Lemma first_keys_rows_of df :
  NoDup (column_names df) -> (0 < nrows df)%nat ->
  first_keys (rows_of df) = column_names df.
Proof.
  intros Hnd Hpos. unfold first_keys.
  destruct (rows_of df) as [|r rows] eqn:Hrows.
  { apply (f_equal (@length Response)) in Hrows.
    rewrite length_rows_of in Hrows. simpl in Hrows. lia. }
  assert (forall r', r' ∈ r :: rows -> r'.*1 = column_names df) as Hkeys.
  { intros r' Hr'. apply rows_of_keys. by rewrite Hrows. }
  rewrite bind_cons, fold_left_app, (Hkeys r) by (by left).
  rewrite (add_keys_fresh (column_names df) []) by done. simpl.
  apply add_keys_known. intros key (r' & Hkey & Hr')%list_elem_of_bind.
  rewrite <- (Hkeys r') by (by right). done.
Qed.

Lemma assoc_elem_of {V} (l : list (string * V)) (key : string) (v : V) :
  NoDup l.*1 -> (key, v) ∈ l -> assoc key l = Some v.
Proof.
  induction l as [|[k0 v0] l IH]; intros Hnd Hin.
  - by apply elem_of_nil in Hin.
  - rewrite fmap_cons in Hnd. apply NoDup_cons in Hnd as [Hk0 Hnd].
    cbn [assoc]. apply elem_of_cons in Hin as [[= -> ->]|Hin].
    + by rewrite decide_True.
    + rewrite decide_False; [by apply IH|].
      intros ->. apply Hk0. apply list_elem_of_fmap. by exists (key, v).
Qed.

Lemma columns_ext (l1 l2 : list (string * list Cell)) :
  NoDup l1.*1 -> l1.*1 = l2.*1 ->
  (forall c, assoc c l1 = assoc c l2) ->
  l1 = l2.
Proof.
  revert l2. induction l1 as [|[k1 v1] l1 IH]; intros [|[k2 v2] l2];
    try done.
  rewrite !fmap_cons. cbn [fst]. intros Hnd [= <- Hnames] Hassoc.
  apply NoDup_cons in Hnd as [Hk1 Hnd].
  pose proof (Hassoc k1) as Hk. cbn [assoc] in Hk.
  rewrite !decide_True in Hk by done. injection Hk as <-.
  f_equal. apply IH; [done..|]. intros c.
  destruct (decide (c = k1)) as [->|Hne].
  - rewrite (proj2 (assoc_None k1 l1)) by done.
    rewrite (proj2 (assoc_None k1 l2)) by (by rewrite <- Hnames). done.
  - specialize (Hassoc c). cbn [assoc] in Hassoc.
    by rewrite !decide_False in Hassoc by done.
Qed.

(** Two frames with the same labels, the same column names, all
    distinct, and the same cells in every column are the same frame. *)
Lemma frame_ext df df' :
  index df' = index df ->
  column_names df' = column_names df ->
  NoDup (column_names df) ->
  (forall c, get_column df' c = get_column df c) ->
  df' = df.
Proof.
  destruct df as [i1 l1], df' as [i2 l2]. unfold column_names, get_column.
  simpl. intros -> Hnames Hnd Hget. f_equal.
  apply columns_ext; [by rewrite Hnames | done | done].
Qed.

Lemma well_formed_by_columns df :
  NoDup (column_names df) ->
  (forall c col, get_column df c = Some col -> length col = nrows df) ->
  well_formed df.
Proof.
  intros Hnd Hlen. apply Forall_forall. intros [k col] Hin. simpl.
  apply (Hlen k). by apply assoc_elem_of.
Qed.

(** A frame whose rows are labelled 0, 1, ... is the frame made from
    the dicts of its rows. *)
Lemma DataFrame_of_rows_of df :
  well_formed df ->
  index df = Z.of_nat <$> seq 0 (nrows df) ->
  NoDup (column_names df) ->
  (0 < nrows df)%nat ->
  DataFrame_of (rows_of df) = df.
Proof.
  intros Hwf Hidx Hnd Hpos. apply frame_ext; [| |done|].
  - simpl. by rewrite length_rows_of.
  - unfold column_names, DataFrame_of. cbn [columns].
    rewrite <- list_fmap_compose.
    fold (column_names df). rewrite <- (first_keys_rows_of df Hnd Hpos).
    transitivity (id <$> first_keys (rows_of df));
      [by apply list_fmap_ext | apply list_fmap_id].
  - intros c. rewrite get_column_DataFrame_of, first_keys_rows_of by done.
    destruct (decide (c ∈ column_names df)) as [Hin|Hnin].
    + apply assoc_is_Some in Hin as [col Hcol].
      fold (get_column df c) in Hcol. rewrite Hcol. f_equal.
      by apply rows_of_column.
    + symmetry. by apply assoc_None.
Qed.

(** *** Extracting and clustering a second time *)

Lemma extracted_functional (a t1 t2 : Cell) :
  extracted py_int textract_process a t1 ->
  extracted py_int textract_process a t2 -> t1 = t2.
Proof.
  unfold extracted. destruct (notna a && negb (is_empty_str a)).
  - intros (k1 & Hk1 & H1) (k2 & Hk2 & H2).
    assert (k2 = k1) as -> by congruence.
    destruct (textract_process k1) as [text|[]|]; (done || congruence).
  - congruence.
Qed.

Lemma Forall2_extracted_functional (att col1 col2 : list Cell) :
  Forall2 (extracted py_int textract_process) att col1 ->
  Forall2 (extracted py_int textract_process) att col2 -> col1 = col2.
Proof.
  intros H1. revert col2. induction H1 as [|a t1 att col1 Ht1 _ IH];
    intros col2 H2.
  - by apply Forall2_nil_inv_l in H2.
  - apply Forall2_cons_inv_l in H2 as (t2 & col2' & Ht2 & H2 & ->).
    f_equal; [by eapply extracted_functional | by apply IH].
Qed.

(** [extract_text] changes nothing on a frame whose [text_attachment]
    already holds what it extracts. *)
Lemma extract_text_fixed df (att col : list Cell) df' :
  well_formed df ->
  index df = Z.of_nat <$> seq 0 (nrows df) ->
  NoDup (column_names df) ->
  get_column df "attachment" = Some att ->
  get_column df "text_attachment" = Some col ->
  Forall2 (extracted py_int textract_process) att col ->
  extract_text py_int textract_process df = Ok df' ->
  df' = df.
Proof.
  intros Hwf Hidx Hnd Hatt Hcol Hex Hrun.
  destruct (extract_text_columns py_int textract_process df df' Hwf Hrun)
    as (Hidx' & Hnames & Hget & att' & col' & Hatt' & Hcol' & Hex').
  assert ("text_attachment" ∈ column_names df) as Hin.
  { apply assoc_is_Some. fold (get_column df "text_attachment").
    by rewrite Hcol. }
  rewrite decide_True, app_nil_r in Hnames by done.
  apply frame_ext; [congruence | done | done |].
  intros c. destruct (decide (c = "text_attachment")) as [->|Hc];
    [|by apply Hget].
  rewrite Hcol', Hcol. f_equal.
  apply (Forall2_extracted_functional att); [congruence | done].
Qed.

(** Lines 238-246: the frame that is saved, from the frame of the
    responses, when both stages return. *)
Definition finalized df (df_a df1 : DataFrame) : Prop :=
  (if extract_text_attachment cfg || components cfg
   then extract_text py_int textract_process df
   else Ok df) = Ok df_a
  /\ (if components cfg
      then add_components py_int textract_process df_a (n cfg) (threshold cfg)
      else Ok df_a) = Ok df1.

Lemma finalized_frame df df_a df1 :
  well_formed df ->
  NoDup (column_names df) ->
  index df = Z.of_nat <$> seq 0 (nrows df) ->
  finalized df df_a df1 ->
  well_formed df_a
  /\ well_formed df1
  /\ NoDup (column_names df1)
  /\ nrows df1 = nrows df
  /\ index df1 = Z.of_nat <$> seq 0 (nrows df1)
  /\ (forall c,
        (c = "text_attachment" ->
         extract_text_attachment cfg || components cfg = false) ->
        (c = "component" -> components cfg = false) ->
        get_column df1 c = get_column df c)
  /\ (forall c, c ∈ column_names df -> c ∈ column_names df1)
  /\ (extract_text_attachment cfg || components cfg = true ->
      exists att col,
        get_column df1 "attachment" = Some att
        /\ get_column df1 "text_attachment" = Some col
        /\ Forall2 (extracted py_int textract_process) att col).
Proof.
  intros Hwf Hnd Hidx [Ha Hb].
  assert (well_formed df_a
          /\ NoDup (column_names df_a)
          /\ nrows df_a = nrows df
          /\ index df_a = Z.of_nat <$> seq 0 (nrows df_a)
          /\ (forall c,
                (c = "text_attachment" ->
                 extract_text_attachment cfg || components cfg = false) ->
                get_column df_a c = get_column df c)
          /\ (forall c, c ∈ column_names df -> c ∈ column_names df_a)
          /\ (extract_text_attachment cfg || components cfg = true ->
              "text_attachment" ∈ column_names df_a
              /\ exists att col,
                   get_column df_a "attachment" = Some att
                   /\ get_column df_a "text_attachment" = Some col
                   /\ Forall2 (extracted py_int textract_process) att col))
    as (Hwfa & Hnda & Hna & Hidxa & Hgeta & Hina & Hexa).
  { destruct (extract_text_attachment cfg || components cfg) eqn:Hflag.
    - destruct (extract_text_spec py_int textract_process df df_a Hwf Ha)
        as (_ & Hwfa & Hi & Hnames & _).
      destruct (extract_text_columns py_int textract_process df df_a Hwf Ha)
        as (_ & _ & Hget & att & col & Hatt & Hcol & Hex).
      assert (nrows df_a = nrows df) as Hna.
      { unfold nrows at 1. by rewrite Hi, length_fmap, length_seq. }
      split; [done|]. split.
      { rewrite Hnames. destruct (decide _) as [|Hnin];
          [by rewrite app_nil_r|].
        apply NoDup_app. split; [done|]. split; [|apply NoDup_singleton].
        by intros x Hx ->%list_elem_of_singleton. }
      split; [done|]. split; [by rewrite Hna|]. split.
      { intros c Hc. apply Hget. intros ->. by specialize (Hc eq_refl). }
      split.
      { intros c Hc. rewrite Hnames. apply elem_of_app. by left. }
      intros _. split.
      { apply assoc_is_Some. fold (get_column df_a "text_attachment").
        by rewrite Hcol. }
      exists att, col. split; [by rewrite Hget|done].
    - injection Ha as <-. done. }
  destruct (components cfg) eqn:Hcomp.
  - assert (extract_text_attachment cfg || true = true) as Hflag
      by apply orb_true_r.
    destruct (Hexa Hflag) as (Hta & att & col & Hatt & Hcol & Hex).
    destruct (add_components_result py_int textract_process df_a _ _ _
                Hwfa Hb)
      as (df2 & n_grams & E & comps & (Hi2 & Hnames2 & Hget2) & _
          & (Hidx1 & col1 & Hcol1 & Hlen1) & (Hi1 & Hnames1 & Hget1) & _).
    rewrite (decide_True (P:="text_attachment" ∈ column_names df_a)),
      app_nil_r in Hnames2 by done.
    assert (nrows df1 = nrows df_a) as Hn1.
    { unfold nrows at 1. by rewrite Hi1, Hi2, length_fmap, length_seq. }
    assert (forall c, c ≠ "component" ->
                      get_column df1 c = get_column df_a c) as Hkeep.
    { intros c Hc. rewrite Hget1 by done. apply Hget2; [done | by right]. }
    assert (NoDup (column_names df1)) as Hnd1.
    { rewrite Hnames1, Hnames2. destruct (decide _) as [|Hnin];
        [by rewrite app_nil_r|].
      apply NoDup_app. split; [done|]. split; [|apply NoDup_singleton].
      by intros x Hx ->%list_elem_of_singleton. }
    split; [done|]. split.
    { apply well_formed_by_columns; [done|]. intros c colc Hc.
      destruct (decide (c = "component")) as [->|Hne]; [congruence|].
      rewrite Hkeep in Hc by done. rewrite Hn1.
      by apply (well_formed_column df_a c). }
    split; [done|]. split; [congruence|]. split; [done|]. split.
    { intros c Hc1 Hc2. rewrite Hkeep.
      - apply Hgeta. intros ->. specialize (Hc1 eq_refl). congruence.
      - intros ->. by specialize (Hc2 eq_refl). }
    split.
    { intros c Hc. rewrite Hnames1, Hnames2. apply elem_of_app. left.
      by apply Hina. }
    intros _. exists att, col. by rewrite !Hkeep.
  - injection Hb as <-. split; [done|]. split; [done|]. split; [done|].
    split; [done|]. split; [done|]. split.
    { intros c Hc _. by apply Hgeta. }
    split; [done|]. intros Hflag. by destruct (Hexa Hflag) as [_ ?].
Qed.

(** The two stages, applied to the frame they returned, return it
    again. *)
Lemma finalized_again df df_a df1 df_a' df2 :
  well_formed df ->
  NoDup (column_names df) ->
  index df = Z.of_nat <$> seq 0 (nrows df) ->
  finalized df df_a df1 ->
  finalized df1 df_a' df2 ->
  df2 = df1.
Proof.
  intros Hwf Hnd Hidx Hfirst [Ha' Hb'].
  destruct (finalized_frame df df_a df1 Hwf Hnd Hidx Hfirst)
    as (Hwfa & Hwf1 & Hnd1 & Hn1 & Hidx1 & _ & _ & Hex).
  destruct Hfirst as [Ha Hb].
  assert (df_a' = df1) as ->.
  { destruct (extract_text_attachment cfg || components cfg);
      [|by injection Ha' as <-].
    destruct (Hex eq_refl) as (att & col & Hatt & Hcol & Hext).
    by apply (extract_text_fixed df1 att col). }
  destruct (components cfg); [|by injection Hb' as <-].
  destruct (add_components_again py_int textract_process df_a _ _ _ Hwfa Hb)
    as (df'' & Hrun & Hi & Hnames & Hget).
  rewrite Hrun in Hb'. injection Hb' as <-.
  by apply frame_ext.
Qed.

(** *** The records that the loop fetches *)

(** The record that [get_response] returns for a url. *)
Definition fetched_as (url : string) (r : Response) : Prop :=
  exists wa wb, get_response response_page cfg url wa = (wb, Ok r).

Lemma mapM_fetched (urls : list string) w w' (new : list Response) :
  mapM (get_response response_page cfg) urls w = (w', Ok new) ->
  Forall2 fetched_as urls new.
Proof.
  revert w w' new. induction urls as [|url urls IH]; intros w w' new;
    cbn [mapM].
  - intros [= _ <-]. constructor.
  - intros (w1 & r & Hr & H)%mbind_inv.
    apply mbind_inv in H as (w2 & rest & Hrest & [= _ <-]).
    constructor; [by exists w, w1 | by eapply IH].
Qed.

Lemma crawl_body_fetched (seen : list Cell) (st : LoopState) w w'
    (r : LoopState + list Response) :
  crawl_body listing response_page cfg seen st w = (w', Ok r) ->
  exists M' new,
    (if falsy_int (max_page st) then read_max_page (listing (page st))
     else Ok (default 0 (max_page st))) = Ok M'
    /\ r = after_page st M' new
    /\ Forall2 fetched_as (new_urls listing seen (page st)) new.
Proof.
  unfold crawl_body. intros (w0 & [] & _ & H)%mbind_inv.
  apply mbind_inv in H as (w1 & [] & _ & H). cbv zeta in H.
  apply mbind_inv in H as (w2 & urls & Hurls & H).
  apply mbind_inv in H as (w3 & new & Hnew & H).
  apply mbind_inv in H as (w4 & M' & HM & H).
  exists M', new. split; [|split].
  - destruct (falsy_int (max_page st)); unfold lift in HM; congruence.
  - unfold after_page. destruct (M' <? page st + 1).
    + by injection H as _ <-.
    + apply mbind_inv in H as (w5 & [] & _ & [= _ <-]). done.
  - apply mapM_fetched in Hnew.
    unfold new_urls, page_urls. unfold lift in Hurls.
    injection Hurls as _ ->. done.
Qed.

Lemma crawl_loop_rest_fetched (seen : list Cell) (fuel : nat) :
  forall (k M : Z) rs w w' rs',
    M ≠ 0 -> k <= M ->
    crawl_loop listing response_page cfg fuel seen
      {| page := k; max_page := Some M; responses := rs |} w = (w', Ok rs') ->
    exists new,
      rs' = rs ++ new
      /\ Forall2 fetched_as
           (p ← zrange k (Z.to_nat (M - k + 1)); new_urls listing seen p) new.
Proof.
  induction fuel as [|fuel IH]; intros k M rs w w' rs' HM0 Hle; simpl;
    [done|].
  intros (w1 & r & Hbody & H)%mbind_inv.
  apply crawl_body_fetched in Hbody as (M' & new & HM' & -> & Hnew).
  simpl in HM'. destruct (Z.eqb_spec M 0); [done|]. injection HM' as <-.
  unfold after_page in H. cbn [page responses] in H.
  rewrite zrange_cons, bind_cons by done.
  destruct (Z.ltb_spec M (k + 1)).
  - injection H as _ <-. exists new. split; [done|].
    replace (M - k) with 0 by lia. simpl. by rewrite app_nil_r.
  - apply IH in H as (new' & -> & Hnew'); [|done|lia].
    exists (new ++ new'). split; [by rewrite app_assoc|].
    apply Forall2_app; [done|].
    by replace (M - k) with (M - (k + 1) + 1) by lia.
Qed.

Lemma crawl_loop_fetched (fuel : nat) (seen : list Cell) rs w w' rs' :
  crawl_loop listing response_page cfg fuel seen
    {| page := 1; max_page := None; responses := rs |} w = (w', Ok rs') ->
  exists (M : Z) new,
    read_max_page (listing 1) = Ok M
    /\ rs' = rs ++ new
    /\ Forall2 fetched_as
         (p ← zrange 1 (Z.to_nat (Z.max 1 M)); new_urls listing seen p) new.
Proof.
  destruct fuel as [|fuel]; [done|]. simpl.
  intros (w1 & r & Hbody & H)%mbind_inv.
  apply crawl_body_fetched in Hbody as (M & new & HM & -> & Hnew).
  simpl in HM. exists M. unfold after_page in H. cbn [page responses] in H.
  destruct (Z.ltb_spec M (1 + 1)).
  - injection H as _ <-. exists new. split; [done|]. split; [done|].
    replace (Z.max 1 M) with 1 by lia. simpl. by rewrite app_nil_r.
  - apply crawl_loop_rest_fetched in H as (new' & -> & Hnew'); [|lia..].
    exists (new ++ new'). split; [done|]. split; [by rewrite app_assoc|].
    replace (Z.max 1 M) with M by lia.
    replace (Z.to_nat M) with (Z.to_nat (M - 1 + 1)) by lia.
    rewrite zrange_cons, bind_cons by lia.
    apply Forall2_app; [done|].
    by replace (M - 1) with (M - (1 + 1) + 1) by lia.
Qed.

(** *** The resume invariant *)

Abbreviation resumed_run fuel :=
  (download_responses listing response_page read_back py_int textract_process
     cfg fuel).

Lemma index_DataFrame_of rs :
  index (DataFrame_of rs) = Z.of_nat <$> seq 0 (nrows (DataFrame_of rs)).
Proof. unfold nrows. simpl. by rewrite length_fmap, length_seq. Qed.

Lemma nrows_DataFrame_of rs : nrows (DataFrame_of rs) = length rs.
Proof. unfold nrows. simpl. by rewrite length_fmap, length_seq. Qed.

Lemma column_names_DataFrame_of rs :
  column_names (DataFrame_of rs) = first_keys rs.
Proof.
  unfold column_names, DataFrame_of. cbn [columns].
  rewrite <- list_fmap_compose.
  transitivity (id <$> first_keys rs);
    [by apply list_fmap_ext | apply list_fmap_id].
Qed.

(** The prior state as a run loads it. *)
Lemma load_prior_rows w w0 (seen : list Cell) rs0 :
  (forall stored, file w = Some stored -> well_formed (read_back stored)) ->
  load_prior read_back w = (w0, Ok (seen, rs0)) ->
  w0 = w
  /\ seen = prior_urls read_back w
  /\ length rs0 = length (prior_urls read_back w)
  /\ match file w with
     | Some stored =>
         rs0 = rows_of (read_back stored)
         /\ nrows (read_back stored) = length (prior_urls read_back w)
     | None => rs0 = []
     end.
Proof.
  intros Hwf. unfold load_prior, prior_urls, urls_of, attr.
  destruct (file w) as [stored|]; [|by intros [= <- <- <-]].
  specialize (Hwf stored eq_refl).
  destruct (get_column (read_back stored) "url") as [col|] eqn:Hcol; [|done].
  intros [= <- <- <-]. simpl.
  pose proof (well_formed_column _ _ _ Hwf Hcol) as Hlen.
  by rewrite length_rows_of.
Qed.

(** C5 (amended): a run filters out, before fetching, the identifiers
    that the loaded prior state holds: it fetches no response with such
    an identifier.  The stored records are those of the prior state,
    cell by cell and in their order (a column the prior state lacks is
    [nan] there; [text_attachment] and [component] are set aside when
    the run recomputes them), followed by one record for every
    occurrence, on the pages of this run, of an identifier the prior
    state lacks: the record that [get_response] returns for it.  [done]
    is not extended during the run: the identifiers are free of
    duplicates when those of the prior state are and the pages of the
    run name no identifier twice.  A completed run followed by a
    restart over the same source stores the same frame, the
    spreadsheet being read back as it was written. *)
Theorem download_responses_resume (fuel : nat) w w1 df1 :
  (forall stored, file w = Some stored -> well_formed (read_back stored)) ->
  resumed_run fuel w = (w1, Ok df1) ->
  exists (M : Z) (new : list Response),
    let fetched :=
      filter (fun url => CStr url ∉ prior_urls read_back w)
             (p ← zrange 1 (Z.to_nat (Z.max 1 M)); page_urls listing p) in
    let n0 := length (prior_urls read_back w) in
    read_max_page (listing 1) = Ok M
    /\ file w1 = Some df1
    /\ (exists tr,
          trace w1 = trace w ++ tr
          /\ forall url, GetResponse url ∈ tr ->
                         CStr url ∉ prior_urls read_back w)
    /\ Forall2 fetched_as fetched new
    /\ urls_of df1 = prior_urls read_back w ++ (CStr <$> fetched)
    /\ nrows df1 = (n0 + length new)%nat
    /\ (forall c (col : list Cell),
          (c = "text_attachment" ->
           extract_text_attachment cfg || components cfg = false) ->
          (c = "component" -> components cfg = false) ->
          get_column df1 c = Some col ->
          drop n0 col = cell_of c <$> new
          /\ forall stored,
               file w = Some stored ->
               take n0 col
               = default (replicate n0 CNaN)
                         (get_column (read_back stored) c))
    /\ (forall c,
          ((0 < n0)%nat
           /\ exists stored, file w = Some stored
                             /\ c ∈ column_names (read_back stored))
          \/ (exists r, r ∈ new /\ c ∈ r.*1) ->
          c ∈ column_names df1)
    /\ (NoDup (prior_urls read_back w) ->
        NoDup (p ← zrange 1 (Z.to_nat (Z.max 1 M)); page_urls listing p) ->
        NoDup (urls_of df1))
    /\ (forall (fuel2 : nat) w2 df2,
          read_back df1 = df1 ->
          resumed_run fuel2 w1 = (w2, Ok df2) ->
          df2 = df1).
Proof.
  intros Hwf Hrun.
  destruct (download_responses_urls listing response_page read_back py_int
              textract_process cfg fuel w w1 df1 Hwf Hrun)
    as (M & HM & Hfile & Hurls).
  pose proof Hrun as Hstages.
  apply download_responses_inv in Hstages
    as (seen & rs0 & w0 & w' & rs & df_a & Hload & Hloop & Ha & Hb & _).
  apply load_prior_rows in Hload as (-> & -> & Hlen0 & Hrows0); [|done].
  apply crawl_loop_fetched in Hloop as (M' & new & HM' & -> & Hnew).
  assert (M' = M) as -> by congruence.
  assert ((p ← zrange 1 (Z.to_nat (Z.max 1 M));
           new_urls listing (prior_urls read_back w) p)
          = filter (fun url => CStr url ∉ prior_urls read_back w)
                   (p ← zrange 1 (Z.to_nat (Z.max 1 M)); page_urls listing p))
    as Hfetched by (by rewrite filter_bind).
  rewrite Hfetched in Hnew.
  destruct (finalized_frame (DataFrame_of (rs0 ++ new)) df_a df1)
    as (Hwfa & Hwf1 & Hnd1 & Hn1 & Hidx1 & Hget1 & Hin1 & Hex1);
    [apply well_formed_DataFrame_of
    | rewrite column_names_DataFrame_of; apply NoDup_first_keys
    | apply index_DataFrame_of | done |].
  exists M, new. cbv zeta.
  split; [done|]. split; [done|]. split.
  { destruct (download_responses_fetches listing response_page read_back
                py_int textract_process cfg fuel w) as (tr & Htr & Hfresh).
    rewrite Hrun in Htr. by exists tr. }
  split; [done|]. split; [done|]. split.
  { by rewrite Hn1, nrows_DataFrame_of, length_app, Hlen0. }
  split.
  { intros c col Hc1 Hc2 Hcol. rewrite Hget1 in Hcol by done.
    rewrite get_column_DataFrame_of in Hcol.
    destruct (decide (c ∈ first_keys (rs0 ++ new))); [|done].
    injection Hcol as <-. rewrite fmap_app.
    rewrite <- Hlen0, <- (length_fmap (fun r => default CNaN (assoc c r)) rs0).
    split; [by rewrite drop_app_length|].
    intros stored Hstored. rewrite take_app_length, length_fmap.
    rewrite Hstored in Hrows0. destruct Hrows0 as [-> Hn0].
    destruct (get_column (read_back stored) c) as [pcol|] eqn:Hpcol; simpl.
    - apply (rows_of_column _ c); [by apply Hwf | done].
    - apply list_eq. intros i. rewrite list_lookup_fmap.
      rewrite length_rows_of.
      destruct (rows_of (read_back stored) !! i) as [r|] eqn:Hr; simpl.
      + rewrite lookup_replicate_2
          by (rewrite <- length_rows_of; by eapply lookup_lt_Some).
        f_equal.
        assert (assoc c r = None) as ->; [|done].
        apply assoc_None.
        rewrite (rows_of_keys (read_back stored))
          by (by eapply list_elem_of_lookup_2).
        by apply assoc_None.
      + symmetry. apply lookup_replicate_None.
        apply lookup_ge_None in Hr. by rewrite length_rows_of in Hr. }
  split.
  { intros c Hc. apply Hin1. rewrite column_names_DataFrame_of.
    apply (elem_of_first_keys response_page py_int).
    destruct Hc as [(Hpos & stored & Hstored & Hc)|(r & Hr & Hc)].
    - rewrite Hstored in Hrows0. destruct Hrows0 as [-> Hn0].
      destruct (rows_of (read_back stored)) as [|r rows] eqn:Hrows.
      { apply (f_equal (@length Response)) in Hrows.
        rewrite length_rows_of in Hrows. simpl in Hrows. lia. }
      exists r. split; [by left|].
      rewrite (rows_of_keys (read_back stored)); [done|].
      rewrite Hrows. by left.
    - exists r. split; [|done]. apply elem_of_app. by right. }
  split.
  { intros Hprior Hlisted. rewrite Hurls. apply NoDup_app.
    split; [done|]. split.
    + intros c Hc (u & -> & Hu)%list_elem_of_fmap.
      by apply list_elem_of_filter in Hu as [Hnew' _].
    + apply (NoDup_fmap_2 CStr). by apply NoDup_filter. }
  intros fuel2 w2 df2 Hback Hrun2.
  apply download_responses_inv in Hrun2
    as (seen2 & rs2 & w3 & w4 & rs' & df_a' & Hload2 & Hloop2 & Ha2 & Hb2 & _).
  pose proof Hload2 as Hloaded.
  apply load_prior_rows in Hload2 as (-> & -> & _ & Hrows2).
  2:{ intros stored Hstored. rewrite Hfile in Hstored.
      injection Hstored as <-. by rewrite Hback. }
  rewrite Hfile, Hback in Hrows2. destruct Hrows2 as [-> _].
  assert (prior_urls read_back w1 = urls_of df1) as Hprior1.
  { unfold prior_urls. by rewrite Hfile, Hback. }
  apply crawl_loop_inv in Hloop2 as (M2 & new2 & HM2 & -> & Hnew2).
  assert (M2 = M) as -> by congruence.
  assert (new2 = []) as ->.
  { apply (fmap_nil_inv url_of). rewrite Hnew2.
    replace (p ← zrange 1 (Z.to_nat (Z.max 1 M));
             new_urls listing (prior_urls read_back w1) p)
      with (filter (fun url => CStr url ∉ prior_urls read_back w1)
                   (p ← zrange 1 (Z.to_nat (Z.max 1 M)); page_urls listing p))
      by (by rewrite filter_bind).
    rewrite filter_none; [done|].
    intros u Hu Hfresh. apply Hfresh. rewrite Hprior1, Hurls.
    destruct (decide (CStr u ∈ prior_urls read_back w)) as [Hin|Hnin].
    - apply elem_of_app. by left.
    - apply elem_of_app. right. apply list_elem_of_fmap. exists u.
      split; [done|]. by apply list_elem_of_filter. }
  rewrite app_nil_r in Ha2.
  assert (0 < nrows df1)%nat as Hpos.
  { rewrite Hn1, nrows_DataFrame_of.
    destruct (rs0 ++ new) as [|r rs'] eqn:Hrs; [exfalso|simpl; lia].
    destruct (extract_text_attachment cfg || components cfg) eqn:Hflag.
    - apply extract_text_needs_attachment in Ha.
      rewrite column_names_DataFrame_of in Ha. by apply elem_of_nil in Ha.
    - injection Ha as <-.
      assert (components cfg = false) as Hcomp
        by (by apply orb_false_iff in Hflag as [_ ?]).
      rewrite Hcomp in Hb. injection Hb as <-.
      unfold load_prior in Hloaded. rewrite Hfile, Hback in Hloaded.
      done. }
  rewrite (DataFrame_of_rows_of df1) in Ha2 by done.
  apply (finalized_again (DataFrame_of (rs0 ++ new)) df_a df1 df_a' df2);
    [apply well_formed_DataFrame_of
    | rewrite column_names_DataFrame_of; apply NoDup_first_keys
    | apply index_DataFrame_of | done | done].
Qed.

End ResumeFacts.

(** ** The further properties on the small consultation *)

Section FurtherRuns.
Import Text Similarity Frame Cluster Crawl Demo.

(** [add_components_threshold_above_one] on the four responses at the
    threshold 2. *)
Lemma add_components_threshold_above_one_witness :
  exists df',
    add_components demo_int demo_textract demo_frame 2 (2 # 1) = Ok df'
    /\ get_column df' "component" = Some (replicate (nrows demo_frame) CNone).
Proof.
  eexists. split; [vm_compute; reflexivity|].
  apply (add_components_threshold_above_one demo_int demo_textract demo_frame
           2 (2 # 1));
    [apply demo_frame_well_formed | reflexivity | vm_compute; reflexivity].
Defined.

(** [add_components_numbering] on the four responses. *)
Lemma add_components_numbering_witness :
  exists (col : list Cell) (K : nat),
    get_column demo_clustered "component" = Some col
    /\ (forall z : Z,
          0 <= z < Z.of_nat K <-> exists j : nat, col !! j = Some (CInt z))
    /\ (forall (j : nat) (z : Z),
          col !! j = Some (CInt z) ->
          exists j' : nat, j' ≠ j /\ col !! j' = Some (CInt z)).
Proof.
  apply (add_components_numbering demo_int demo_textract demo_frame 2
           (3 # 10));
    [apply demo_frame_well_formed | vm_compute; reflexivity].
Defined.

(** [add_components_idempotent] on the four responses. *)
Lemma add_components_idempotent_witness :
  exists df'',
    add_components demo_int demo_textract demo_clustered 2 (3 # 10) = Ok df''
    /\ index df'' = index demo_clustered
    /\ column_names df'' = column_names demo_clustered
    /\ forall c, get_column df'' c = get_column demo_clustered c.
Proof.
  apply (add_components_idempotent demo_int demo_textract demo_frame 2
           (3 # 10));
    [apply demo_frame_well_formed | vm_compute; reflexivity].
Defined.

(** [add_components_requires_columns] on the four responses. *)
Lemma add_components_requires_columns_witness :
  "text" ∈ column_names demo_frame
  /\ ("text_attachment" ∈ column_names demo_frame
      \/ "attachment" ∈ column_names demo_frame).
Proof.
  apply (add_components_requires_columns demo_int demo_textract demo_frame 2
           (3 # 10) demo_clustered);
    [apply demo_frame_well_formed | vm_compute; reflexivity].
Defined.

(** [add_components_returns] on the clustered frame. *)
Lemma add_components_returns_witness :
  exists df',
    add_components demo_int demo_textract demo_clustered 2 (3 # 10) = Ok df'.
Proof.
  apply (add_components_returns demo_int demo_textract demo_clustered 2
           (3 # 10)
           [CStr "the quick brown fox leaps"; CStr "";
            CStr "the quick brown fox jumps"; CStr "x"]
           [CNone; CStr "the quick brown fox jumps"; CNone; CNone]);
    [lia | reflexivity | repeat constructor; by intros z
    | reflexivity | repeat constructor; by intros z].
Defined.

(** [extract_text_cells] on the four responses. *)
Lemma extract_text_cells_witness :
  exists df',
    extract_text demo_int demo_textract demo_frame = Ok df'
    /\ index df' = Z.of_nat <$> seq 0 (nrows demo_frame)
    /\ column_names df'
       = column_names demo_frame
         ++ (if decide ("text_attachment" ∈ column_names demo_frame) then []
             else ["text_attachment"])
    /\ (forall c, c ≠ "text_attachment" ->
                  get_column df' c = get_column demo_frame c)
    /\ exists attachment col : list Cell,
         get_column demo_frame "attachment" = Some attachment
         /\ get_column df' "text_attachment" = Some col
         /\ Forall2 (extracted demo_int demo_textract) attachment col.
Proof.
  eexists. split; [vm_compute; reflexivity|].
  apply (extract_text_cells demo_int demo_textract demo_frame);
    [apply demo_frame_well_formed | vm_compute; reflexivity].
Defined.

(** A response with two attachments, as [download_files] records
    them. *)
Definition two_attachments : DataFrame :=
  {| index := [0];
     columns := [("text", [CStr "zie bijlagen"]);
                 ("attachment", [CStr "12,34"])] |}.

(** [extract_text_rejects_non_integer] on the response with two
    attachments. *)
Lemma extract_text_rejects_non_integer_witness :
  ~ exists df', extract_text demo_int demo_textract two_attachments = Ok df'.
Proof.
  intros [df' Hrun]. revert Hrun.
  apply (extract_text_rejects_non_integer demo_int demo_textract
           two_attachments [CStr "12,34"] "12,34");
    [reflexivity | by left | done | reflexivity].
Defined.

(** The page of a response with two attachments. *)
Definition attachments_page (url : string) : ResponsePage :=
  mkResponsePage
    (Some [(Some "Naam", Some "N.N."); (Some "Plaats", Some "Utrecht")])
    ["zie de bijlagen"]
    ["101"; "102"].

(** [get_response_spec] on the response with two attachments. *)
Lemma get_response_spec_witness :
  exists d r,
    parse_table (Some [(Some "Naam", Some "N.N."); (Some "Plaats", Some "Utrecht")])
    = Ok d
    /\ get_response attachments_page demo_config "u" fresh_world
       = ({| file := None;
             trace := [GetResponse "u";
                       GetAttachment "101"; SaveAttachment "101";
                       GetAttachment "102"; SaveAttachment "102"] |},
          Ok r)
    /\ assoc "url" r = Some (CStr "u")
    /\ assoc "text" r = Some (CStr "zie de bijlagen")
    /\ assoc "attachment" r = Some (CStr "101,102")
    /\ assoc "Naam" r = None
    /\ forall key,
         key ≠ "url" -> key ≠ "text" -> key ≠ "attachment" -> key ≠ "Naam" ->
         assoc key r = assoc key d.
Proof.
  apply (get_response_spec attachments_page demo_config "u" fresh_world).
  reflexivity.
Defined.

(** The settings of a run that downloads no attachments. *)
Definition no_attachments_config : Config :=
  mkConfig false false true true 2 (3 # 10).

Lemma demo_tables_no_attachment (url : string)
    (rows : list (option string * option string)) (td : option string) :
  table (demo_response_page url) = Some rows ->
  (Some "attachment", td) ∉ rows.
Proof.
  intros [= <-] Hin.
  apply elem_of_cons in Hin as [[=]|Hin].
  apply elem_of_cons in Hin as [[=]|Hin].
  by apply elem_of_nil in Hin.
Qed.

(** [download_responses_without_attachments] on the steady site. *)
Lemma download_responses_without_attachments_witness :
  ~ exists w1 df1,
      download_responses steady_listing demo_response_page demo_read_back
        demo_int demo_textract no_attachments_config 5 fresh_world
      = (w1, Ok df1).
Proof.
  intros (w1 & df1 & Hrun). revert Hrun.
  apply (download_responses_without_attachments steady_listing
           demo_response_page demo_read_back demo_int demo_textract
           no_attachments_config 5 fresh_world);
    [reflexivity | reflexivity | reflexivity
    | apply demo_tables_no_attachment].
Defined.

(** A consultation without responses: one listing page, no items. *)
Definition empty_listing (page : Z) : Soup := mkSoup (Some []) (Some [Some 1]).

(** [download_responses_empty_consultation] on the consultation without
    responses. *)
Lemma download_responses_empty_consultation_witness :
  ~ exists w1 df1,
      download_responses empty_listing demo_response_page demo_read_back
        demo_int demo_textract demo_config 5 fresh_world
      = (w1, Ok df1).
Proof.
  intros (w1 & df1 & Hrun). revert Hrun.
  apply (download_responses_empty_consultation empty_listing
           demo_response_page demo_read_back demo_int demo_textract
           demo_config 5 fresh_world);
    [reflexivity | reflexivity | by intros p urls [= <-]].
Defined.

(** [download_responses_failure_keeps_file]: the run on the steady site
    that downloads no attachments raises at the text extraction, after
    both pages; nothing is saved. *)
Lemma download_responses_failure_keeps_file_witness :
  file (download_responses steady_listing demo_response_page demo_read_back
          demo_int demo_textract no_attachments_config 5 fresh_world).1
  = file fresh_world.
Proof.
  apply (download_responses_failure_keeps_file steady_listing
           demo_response_page demo_read_back demo_int demo_textract
           no_attachments_config 5 fresh_world _
           (download_responses steady_listing demo_response_page
              demo_read_back demo_int demo_textract no_attachments_config 5
              fresh_world).2);
    [intros M H; vm_compute in H; injection H as <-; lia
    | apply surjective_pairing
    | intros df; vm_compute; discriminate].
Defined.

(** [download_responses_anonymous] on the steady site. *)
Lemma download_responses_anonymous_witness :
  exists w1 df1,
    download_responses steady_listing demo_response_page demo_read_back
      demo_int demo_textract demo_config 5 fresh_world = (w1, Ok df1)
    /\ ("Naam" ∉ column_names df1) /\ file w1 = Some df1.
Proof.
  eexists _, _. split; [vm_compute; reflexivity|].
  apply (download_responses_anonymous steady_listing demo_response_page
           demo_read_back demo_int demo_textract demo_config 5 fresh_world);
    [reflexivity | reflexivity | vm_compute; reflexivity].
Defined.

(** Two consultation pages: one with a sublabel of two tokens, one
    whose sublabel has three. *)
Definition demo_consultation_page (url : string)
  : Consultations.ConsultationPage :=
  Consultations.mkConsultationPage false
    (Some [(Some "Status", Some "Gesloten")])
    (Some "Wet op de voorbeelden")
    (Some (if decide (url = "three") then "geen reacties ontvangen"
           else "12 reacties"))
    [] true.

(** [parse_consultation_result] on the page with two tokens. *)
Lemma parse_consultation_result_witness :
  exists w' c,
    Consultations.parse_consultation demo_consultation_page true "two"
      (Consultations.mkWorld None []) = (w', Ok c)
    /\ assoc "url" c = Some (Consultations.VCell (CStr "two"))
    /\ assoc "report" c = Some (Consultations.VBool true)
    /\ (exists title,
          Some "Wet op de voorbeelden" = Some title
          /\ assoc "title" c = Some (Consultations.VCell (CStr title)))
    /\ (exists nr,
          assoc "nr_responses" c = Some (Consultations.VCell nr)
          /\ exists first second,
               split "12 reacties" = [first; second] /\ nr = CStr first)
    /\ (true = true ->
        assoc "html" c
        = Some (Consultations.VCell
                  (CStr (Consultations.html_filename "two"))))
    /\ Consultations.file w' = None.
Proof.
  eexists _, _. split; [vm_compute; reflexivity|].
  apply (parse_consultation_result demo_consultation_page true "two"
           (Consultations.mkWorld None [])).
  vm_compute. reflexivity.
Defined.

(** [parse_consultation_sublabel_tokens] on the page with three. *)
Lemma parse_consultation_sublabel_tokens_witness :
  Consultations.parse_consultation demo_consultation_page false "three"
    (Consultations.mkWorld None [])
  = ({| Consultations.file := None;
        Consultations.trace := [] ++ [Consultations.GetConsultation "three"] |},
     Raise ValueError).
Proof.
  apply (parse_consultation_sublabel_tokens demo_consultation_page false
           "three" "geen reacties ontvangen" (Consultations.mkWorld None []));
    [reflexivity | by eexists | by eexists | reflexivity
    | vm_compute; discriminate].
Defined.

(** The state that an earlier run left when the consultation held the
    response [/r/1] alone, sent in from another place than the site
    shows now. *)
Definition prior_frame : DataFrame :=
  {| index := [0];
     columns :=
       [("Plaats", [CStr "Gouda"]);
        ("url", [CStr "https://www.internetconsultatie.nl/r/1"]);
        ("text", [CStr "the quick brown fox jumps"]);
        ("attachment", [CStr ""]);
        ("text_attachment", [CNone]);
        ("component", [CNone])] |}.

Definition resumed_world : World := mkWorld (Some prior_frame) [].

(** A run over the steady site that resumes from the prior state: the
    response [/r/1] is not fetched again and its stored record is kept
    as it was; the two other responses are fetched and follow it. *)
Example resumed_run_keeps_prior_record :
  exists w1 df1,
    download_responses steady_listing demo_response_page demo_read_back
      demo_int demo_textract demo_config 5 resumed_world = (w1, Ok df1)
    /\ get_column df1 "url"
       = Some [CStr "https://www.internetconsultatie.nl/r/1";
               CStr "https://www.internetconsultatie.nl/r/2";
               CStr "https://www.internetconsultatie.nl/r/3"]
    /\ get_column df1 "Plaats"
       = Some [CStr "Gouda"; CStr "Utrecht"; CStr "Utrecht"]
    /\ trace w1
       = [GetListing 1;
          GetResponse "https://www.internetconsultatie.nl/r/2"; Sleep;
          GetListing 2;
          GetResponse "https://www.internetconsultatie.nl/r/3";
          Save df1].
Proof.
  eexists _, _. split; [vm_compute; reflexivity|].
  repeat split; reflexivity.
Qed.

(** [download_responses_resume] for the run that resumes from the prior
    state. *)
Lemma download_responses_resume_witness :
  exists w1 df1,
    (forall stored, file resumed_world = Some stored ->
                    well_formed (demo_read_back stored))
    /\ download_responses steady_listing demo_response_page demo_read_back
         demo_int demo_textract demo_config 5 resumed_world = (w1, Ok df1)
    /\ exists (M : Z) (new : list Response),
         let fetched :=
           filter (fun url => CStr url ∉ prior_urls demo_read_back resumed_world)
                  (p ← zrange 1 (Z.to_nat (Z.max 1 M));
                   page_urls steady_listing p) in
         let n0 := length (prior_urls demo_read_back resumed_world) in
         read_max_page (steady_listing 1) = Ok M
         /\ file w1 = Some df1
         /\ (exists tr,
               trace w1 = trace resumed_world ++ tr
               /\ forall url,
                    GetResponse url ∈ tr ->
                    CStr url ∉ prior_urls demo_read_back resumed_world)
         /\ Forall2 (fetched_as demo_response_page demo_config) fetched new
         /\ urls_of df1
            = prior_urls demo_read_back resumed_world ++ (CStr <$> fetched)
         /\ nrows df1 = (n0 + length new)%nat
         /\ (forall (c : string) (col : list Cell),
               (c = "text_attachment" ->
                extract_text_attachment demo_config || components demo_config
                = false) ->
               (c = "component" -> components demo_config = false) ->
               get_column df1 c = Some col ->
               drop n0 col = cell_of c <$> new
               /\ forall stored,
                    file resumed_world = Some stored ->
                    take n0 col
                    = default (replicate n0 CNaN)
                              (get_column (demo_read_back stored) c))
         /\ (forall c : string,
               ((0 < n0)%nat
                /\ exists stored,
                     file resumed_world = Some stored
                     /\ c ∈ column_names (demo_read_back stored))
               \/ (exists r : Response, r ∈ new /\ c ∈ r.*1) ->
               c ∈ column_names df1)
         /\ (NoDup (prior_urls demo_read_back resumed_world) ->
             NoDup (p ← zrange 1 (Z.to_nat (Z.max 1 M));
                    page_urls steady_listing p) ->
             NoDup (urls_of df1))
         /\ (forall (fuel2 : nat) w2 df2,
               demo_read_back df1 = df1 ->
               download_responses steady_listing demo_response_page
                 demo_read_back demo_int demo_textract demo_config fuel2 w1
               = (w2, Ok df2) ->
               df2 = df1).
Proof.
  eexists _, _.
  assert (forall stored, file resumed_world = Some stored ->
                         well_formed (demo_read_back stored)) as Hprior
    by (intros stored [= <-]; repeat constructor).
  split; [exact Hprior|]. split; [vm_compute; reflexivity|].
  apply (download_responses_resume steady_listing demo_response_page
           demo_read_back demo_int demo_textract demo_config 5
           resumed_world _ _ Hprior).
  vm_compute. reflexivity.
Defined.

End FurtherRuns.
